(** * smallapi: a shallow embedding of the router, the request context,
      the middleware pipeline, the session store and the WebSocket layer.

    Go strings are byte strings ([string]); Go maps are [gmap]s; a slice
    updated by index is a [list] with stdpp's insert; [int] values are [Z];
    a function value that may be [nil] is an [option]. *)

From Stdlib Require Import ZArith Ascii DecimalString DecimalPos DecimalZ.
From stdpp Require Import gmap strings list fin_maps.

Local Open Scope Z_scope.

(* ===================================================================== *)
(** * The pieces of Go's [strings] package the router calls              *)
(* ===================================================================== *)

Module GoStrings.

(** [strings.TrimLeft(s, c)] for a one-byte cutset. *)
Fixpoint TrimLeft (c : ascii) (s : string) : string :=
  match s with
  | EmptyString => EmptyString
  | String a s' => if Ascii.eqb a c then TrimLeft c s' else s
  end.

(** [strings.TrimRight(s, c)] for a one-byte cutset. *)
Fixpoint TrimRight (c : ascii) (s : string) : string :=
  match s with
  | EmptyString => EmptyString
  | String a s' =>
      match TrimRight c s' with
      | EmptyString => if Ascii.eqb a c then EmptyString else String a EmptyString
      | t => String a t
      end
  end.

(** [strings.Trim(s, c)]: every leading and trailing [c] is removed. *)
Definition Trim (s : string) (c : ascii) : string := TrimRight c (TrimLeft c s).

(** [strings.Split(s, sep)] for a one-byte separator: the pieces between
    the separators, the empty string giving one empty piece. *)
Fixpoint Split (s : string) (sep : ascii) : list string :=
  match s with
  | EmptyString => [EmptyString]
  | String a s' =>
      if Ascii.eqb a sep then EmptyString :: Split s' sep
      else match Split s' sep with
           | cur :: rest => String a cur :: rest
           | [] => [String a EmptyString]
           end
  end.

(** [strings.HasPrefix(s, c)] for a one-byte prefix. *)
Definition HasPrefix (s : string) (c : ascii) : bool :=
  match s with
  | String a _ => Ascii.eqb a c
  | EmptyString => false
  end.

(** The slice expression [s[1:]] on a non-empty string. *)
Definition tail1 (s : string) : string :=
  match s with
  | String _ s' => s'
  | EmptyString => EmptyString
  end.

(** [strings.Join(l, sep)] for a one-byte separator. *)
Fixpoint Join (l : list string) (sep : ascii) : string :=
  match l with
  | [] => EmptyString
  | [x] => x
  | x :: rest => x +:+ String sep (Join rest sep)
  end.

(** [strings.Repeat] of one byte. *)
Fixpoint Repeat (c : ascii) (n : nat) : string :=
  match n with
  | O => EmptyString
  | S n' => String c (Repeat c n')
  end.

(** The byte [c] occurs in [s]. *)
Fixpoint Contains (s : string) (c : ascii) : bool :=
  match s with
  | EmptyString => false
  | String a s' => Ascii.eqb a c || Contains s' c
  end.

(** The last byte of [s] is [c]. *)
Fixpoint HasSuffix (s : string) (c : ascii) : bool :=
  match s with
  | EmptyString => false
  | String a EmptyString => Ascii.eqb a c
  | String _ s' => HasSuffix s' c
  end.

End GoStrings.

(* ===================================================================== *)
(** * router.go                                                          *)
(* ===================================================================== *)

Module Router.
Import GoStrings.

(** [Segment] represents a part of a route pattern. *)
Record Segment := mkSegment {
  IsParam : bool;
  Name : string;
  Value : string
}.

(** [RoutePattern] represents a compiled route pattern. *)
Record RoutePattern := mkPattern { Segments : list Segment }.

Section WithHandler.
(** The non-nil values of [HandlerFunc]; a [HandlerFunc] is an
    [option], [None] being Go's [nil]. *)
Context {HandlerFunc : Type}.

Record Route := mkRoute {
  Method : string;
  Path : string;
  Handler : option HandlerFunc;
  Pattern : RoutePattern
}.

Record Router := mkRouter { routes : list Route }.

Definition NewRouter : Router := mkRouter [].

(** The zero value [make([]Segment, n)] fills the slice with. *)
Definition zeroSegment : Segment := mkSegment false "" "".

(** The body of the [for i, segment := range segments] loop of
    [compilePattern], writing [pattern.Segments[i]]. *)
Fixpoint compileLoop (i : nat) (segments : list string) (acc : list Segment)
  : list Segment :=
  match segments with
  | [] => acc
  | segment :: rest =>
      let seg :=
        if HasPrefix segment ":"
        then mkSegment true (tail1 segment) ""
        else mkSegment false "" segment in
      compileLoop (S i) rest (<[i := seg]> acc)
  end.

Definition compilePattern (path : string) : RoutePattern :=
  let segments := Split (Trim path "/") "/" in
  mkPattern (compileLoop 0 segments (replicate (length segments) zeroSegment)).

Definition Add (r : Router) (method path : string) (handler : option HandlerFunc)
  : Router :=
  let pattern := compilePattern path in
  let route := mkRoute method path handler pattern in
  mkRouter (routes r ++ [route]).

(** The loop of [matchPattern] over [pattern.Segments], from index [i],
    with its early return on a static segment that differs. *)
Fixpoint matchLoop (segs : list Segment) (i : nat) (pathSegments : list string)
    (params : gmap string string) : option (gmap string string) * bool :=
  match segs with
  | [] => (Some params, true)
  | segment :: rest =>
      if IsParam segment
      then matchLoop rest (S i) pathSegments
             (<[Name segment := pathSegments !!! i]> params)
      else if negb (String.eqb (Value segment) (pathSegments !!! i))
           then (None, false)
           else matchLoop rest (S i) pathSegments params
  end.

Definition matchPattern (pattern : RoutePattern) (pathSegments : list string)
  : option (gmap string string) * bool :=
  if negb (Nat.eqb (length (Segments pattern)) (length pathSegments))
  then (None, false)
  else matchLoop (Segments pattern) 0 pathSegments ∅.

(** The loop of [Match] over [r.routes]. *)
Fixpoint MatchLoop (rs : list Route) (method : string) (pathSegments : list string)
  : option HandlerFunc * option (gmap string string) :=
  match rs with
  | [] => (None, None)
  | route :: rest =>
      if negb (String.eqb (Method route) method)
      then MatchLoop rest method pathSegments
      else
        let '(params, matches) := matchPattern (Pattern route) pathSegments in
        if matches then (Handler route, params)
        else MatchLoop rest method pathSegments
  end.

Definition Match (r : Router) (method path : string)
  : option HandlerFunc * option (gmap string string) :=
  let pathSegments := Split (Trim path "/") "/" in
  MatchLoop (routes r) method pathSegments.

(** A router built by a sequence of [Add] calls. *)
Definition build (adds : list (string * string * option HandlerFunc)) : Router :=
  foldl (fun r '(m, p, h) => Add r m p h) NewRouter adds.

End WithHandler.
Global Arguments Route : clear implicits.
Global Arguments Router : clear implicits.

End Router.

(* ===================================================================== *)
(** * The standard-library digests the handshake calls                   *)
(* ===================================================================== *)

(** Bytes are [Z] values in [0, 256); [byte x] is Go's conversion
    [byte(x)] of an [int]. *)
Definition byte (x : Z) : Z := x mod 256.

Definition byte_of_ascii (a : ascii) : Z := Z.of_N (N_of_ascii a).
Definition ascii_of_byte (b : Z) : ascii := ascii_of_N (Z.to_N b).

(** The conversion [[]byte(s)]. *)
Fixpoint bytes_of_string (s : string) : list Z :=
  match s with
  | EmptyString => []
  | String a s' => byte_of_ascii a :: bytes_of_string s'
  end.

(** [crypto/sha1]: FIPS 180-4 SHA-1 over 32-bit words held in [Z]. *)
Module SHA1.

Definition w32 (x : Z) : Z := x mod 2 ^ 32.

Definition rotl (n x : Z) : Z :=
  w32 (Z.lor (Z.shiftl x n) (Z.shiftr x (32 - n))).

(** [n] bytes of [x], most significant first. *)
Fixpoint be_bytes (n : nat) (x : Z) : list Z :=
  match n with
  | O => []
  | S n' => byte (Z.shiftr x (8 * Z.of_nat n')) :: be_bytes n' x
  end.

Definition padding (msg : list Z) : list Z :=
  let l := Z.of_nat (length msg) in
  msg ++ [128] ++ replicate (Z.to_nat ((55 - l) mod 64)) 0 ++ be_bytes 8 (8 * l).

(** Big-endian 32-bit words of a byte sequence. *)
Fixpoint words (bs : list Z) : list Z :=
  match bs with
  | a :: b :: c :: d :: rest =>
      (Z.shiftl a 24 + Z.shiftl b 16 + Z.shiftl c 8 + d) :: words rest
  | _ => []
  end.

Definition f (t : nat) (b c d : Z) : Z :=
  if (t <? 20)%nat then Z.lor (Z.land b c) (Z.land (Z.lxor b (2 ^ 32 - 1)) d)
  else if (t <? 40)%nat then Z.lxor (Z.lxor b c) d
  else if (t <? 60)%nat
       then Z.lor (Z.lor (Z.land b c) (Z.land b d)) (Z.land c d)
  else Z.lxor (Z.lxor b c) d.

Definition K (t : nat) : Z :=
  if (t <? 20)%nat then 0x5A827999
  else if (t <? 40)%nat then 0x6ED9EBA1
  else if (t <? 60)%nat then 0x8F1BBCDC
  else 0xCA62C1D6.

Record state := mkState { h0 : Z; h1 : Z; h2 : Z; h3 : Z; h4 : Z }.

Definition init : state :=
  mkState 0x67452301 0xEFCDAB89 0x98BADCFE 0x10325476 0xC3D2E1F0.

(** [n] rounds from round [t]; [w] is the window [W_t .. W_(t+15)] of the
    message schedule. *)
Fixpoint rounds (n t : nat) (w : list Z) (s : state) : state :=
  match n with
  | O => s
  | S n' =>
      let '(mkState a b c d e) := s in
      let temp := w32 (rotl 5 a + f t b c d + e + K t + nth 0 w 0) in
      let next :=
        rotl 1 (Z.lxor (Z.lxor (nth 13 w 0) (nth 8 w 0))
                       (Z.lxor (nth 2 w 0) (nth 0 w 0))) in
      rounds n' (S t) (tl w ++ [next]) (mkState temp a (rotl 30 b) c d)
  end.

Definition block (s : state) (w : list Z) : state :=
  let '(mkState a b c d e) := rounds 80 0 w s in
  mkState (w32 (h0 s + a)) (w32 (h1 s + b)) (w32 (h2 s + c))
          (w32 (h3 s + d)) (w32 (h4 s + e)).

(** The blocks of sixteen words, folded from the left; [n] bounds the
    number of blocks. *)
Fixpoint blocks (n : nat) (ws : list Z) (s : state) : state :=
  match n with
  | O => s
  | S n' =>
      match ws with
      | [] => s
      | _ => blocks n' (drop 16 ws) (block s (take 16 ws))
      end
  end.

(** [sha1.Sum]: the 20-byte digest. *)
Definition Sum (msg : list Z) : list Z :=
  let ws := words (padding msg) in
  let s := blocks (length ws) ws init in
  be_bytes 4 (h0 s) ++ be_bytes 4 (h1 s) ++ be_bytes 4 (h2 s)
    ++ be_bytes 4 (h3 s) ++ be_bytes 4 (h4 s).

End SHA1.

(** [encoding/base64], [StdEncoding] (RFC 4648 alphabet, with padding). *)
Module Base64.

Definition alphabet : string :=
  "ABCDEFGHIJKLMNOPQRSTUVWXYZabcdefghijklmnopqrstuvwxyz0123456789+/".

Definition digit (i : Z) : ascii :=
  match String.get (Z.to_nat i) alphabet with
  | Some a => a
  | None => "="%char
  end.

Fixpoint EncodeToString (bs : list Z) : string :=
  match bs with
  | [] => EmptyString
  | [a] =>
      String (digit (Z.shiftr a 2))
        (String (digit (Z.shiftl (Z.land a 3) 4)) "==")
  | [a; b] =>
      String (digit (Z.shiftr a 2))
        (String (digit (Z.lor (Z.shiftl (Z.land a 3) 4) (Z.shiftr b 4)))
           (String (digit (Z.shiftl (Z.land b 15) 2)) "="))
  | a :: b :: c :: rest =>
      String (digit (Z.shiftr a 2))
        (String (digit (Z.lor (Z.shiftl (Z.land a 3) 4) (Z.shiftr b 4)))
           (String (digit (Z.lor (Z.shiftl (Z.land b 15) 2) (Z.shiftr c 6)))
              (String (digit (Z.land c 63)) (EncodeToString rest))))
  end.

End Base64.

(* ===================================================================== *)
(** * websocket.go                                                       *)
(* ===================================================================== *)

Module WebSocket.

Definition websocketMagicString : string := "258EAFA5-E914-47DA-95CA-C5AB0DC85B11".

Definition calculateAcceptKey (key : string) : string :=
  Base64.EncodeToString (SHA1.Sum (bytes_of_string (key +:+ websocketMagicString))).

(** The connection, seen from the writer: the buffers handed to
    [conn.Write] so far, and whether the peer still accepts writes. *)
Record Conn := mkConn { sent : list (list Z); alive : bool }.

(** [conn.Write(buf)]: the buffer goes out whole or an error comes back
    ([true] is a non-nil error). *)
Definition Conn_Write (c : Conn) (buf : list Z) : Conn * bool :=
  if alive c then (mkConn (sent c ++ [buf]) true, false) else (c, true).

(** The frame [WriteMessage] builds before it writes it. *)
Definition frameOf (data : list Z) : list Z :=
  let frame := [] in
  let frame := frame ++ [0x81] in
  let len := Z.of_nat (length data) in
  let frame :=
    if len <? 126 then frame ++ [byte len]
    else
      let frame := frame ++ [126] in
      let frame := frame ++ [byte (Z.shiftr len 8)] in
      frame ++ [byte (Z.land len 0xFF)] in
  frame ++ data.

Definition WriteMessage (ws : Conn) (data : list Z) : Conn * bool :=
  Conn_Write ws (frameOf data).

End WebSocket.

(* ===================================================================== *)
(** * Values, and what the model takes from Go's runtime and libraries   *)
(* ===================================================================== *)

(** The values an [interface{}] holds in this program: [nil], strings,
    ints, bools, the [map[string]string] literals of the error bodies, and
    any other value, known by a tag only. *)
Inductive Any :=
| ANil
| AStr (s : string)
| AInt (z : Z)
| ABool (b : bool)
| AMapSS (kv : list (string * string))
| AOther (tag : nat).

(** [strconv.Itoa] and [strconv.FormatInt(_, 10)]. *)
Definition Itoa (z : Z) : string := NilZero.string_of_int (Z.to_int z).

Module Http.

(** [http.Cookie], with the fields the program sets. *)
Record Cookie := mkCookie {
  CName : string;
  CValue : string;
  CPath : string;
  CMaxAge : Z;
  CHttpOnly : bool;
  CSecure : bool;
  CSameSiteLax : bool
}.

(** What the program reads of an [*http.Request]. [Header] and [Cookies]
    give the first value of a name, as [Header.Get] and [r.Cookie] do;
    [URLQuery] and [PostForm] are the parsed [url.Values]; [Body] is the
    part of the body not read yet. *)
Record Request := mkRequest {
  Method : string;
  URLPath : string;
  ContentLength : Z;
  Header : gmap string string;
  Cookies : gmap string string;
  URLQuery : gmap string (list string);
  PostForm : gmap string (list string);
  RemoteAddr : string;
  Body : string
}.

(** How the response writer answers [w.(http.Hijacker)] and [Hijack()]. *)
Inductive Hijacking := NotHijacker | HijackFails | HijackOk (writeFails flushFails : bool).

(** An [http.ResponseWriter]: the header map, the cookies set, the
    status of the first [WriteHeader] (if any), the chunks written, and,
    once hijacked, the bytes written to the raw connection. Header names
    are kept as the program passes them to [Set]. *)
Record ResponseWriter := mkResponseWriter {
  RHeader : gmap string string;
  RCookies : list Cookie;
  RStatus : option Z;
  RBody : list string;
  RHijack : Hijacking;
  RRaw : option (list string)
}.

Definition Header_Set (w : ResponseWriter) (key value : string) : ResponseWriter :=
  mkResponseWriter (<[key := value]> (RHeader w)) (RCookies w) (RStatus w)
    (RBody w) (RHijack w) (RRaw w).

Definition SetCookie (w : ResponseWriter) (ck : Cookie) : ResponseWriter :=
  mkResponseWriter (RHeader w) (RCookies w ++ [ck]) (RStatus w)
    (RBody w) (RHijack w) (RRaw w).

(** The codes net/http sends as the status of a response. Its
    [WriteHeader] panics for a code below 100 or above 999, and for a
    code from 100 to 199 it sends an informational response, after
    which the status is still to come. *)
Definition finalStatus (code : Z) : Prop := 200 <= code <= 999.

(** The statuses whose response may have a body: net/http writes none
    after 204 and 304 (nor after an informational response). *)
Definition bodyAllowed (code : Z) : Prop := code <> 204 /\ code <> 304.

(** [w.WriteHeader(code)]: only the first call counts, and a later call
    is ignored whatever its code. This is the writer for a first code
    that is a [finalStatus]; what net/http does with another first code
    (the panic, the informational response) is not in the model, so a
    statement about the status sent bounds the code. *)
Definition WriteHeader (w : ResponseWriter) (code : Z) : ResponseWriter :=
  match RStatus w with
  | Some _ => w
  | None => mkResponseWriter (RHeader w) (RCookies w) (Some code)
              (RBody w) (RHijack w) (RRaw w)
  end.

(** [w.Write(b)]: an implicit [WriteHeader(200)] first. The bytes go to
    the body when the status sent is one that is [bodyAllowed]. *)
Definition Write (w : ResponseWriter) (b : string) : ResponseWriter :=
  let w := WriteHeader w 200 in
  mkResponseWriter (RHeader w) (RCookies w) (RStatus w)
    (RBody w ++ [b]) (RHijack w) (RRaw w).

(** The raw connection after a successful [Hijack()], with [b] written. *)
Definition RawWrite (w : ResponseWriter) (b : string) : ResponseWriter :=
  mkResponseWriter (RHeader w) (RCookies w) (RStatus w)
    (RBody w) (RHijack w) (Some (default [] (RRaw w) ++ [b])).

Definition NewResponseWriter (h : Hijacking) : ResponseWriter :=
  mkResponseWriter ∅ [] None [] h None.

(** [url.Values.Get]. *)
Definition Values_Get (v : gmap string (list string)) (name : string) : string :=
  match v !! name with
  | Some (x :: _) => x
  | _ => ""
  end.

Definition Header_Get (r : Request) (name : string) : string :=
  default "" (Header r !! name).

Definition setBody (r : Request) (b : string) : Request :=
  mkRequest (Method r) (URLPath r) (ContentLength r) (Header r) (Cookies r)
    (URLQuery r) (PostForm r) (RemoteAddr r) b.

End Http.

(** The library calls whose results the model does not compute:
    - [json_Marshal v]: the bytes [json.Encoder.Encode] writes for [v]
      (with the final newline), or [None] for an error;
    - [json_Decode body v]: [json.Decoder.Decode] into [v] reading [body]:
      the unread rest, the decoded value, and whether it failed;
    - [http_ServeFile], [http_Redirect]: the standard responses;
    - [fallback_Execute]: parsing and executing the built-in page of
      [Render] on the response writer, and whether it failed;
    - [filepath_Join], [fileExists] ([os.Stat] without error). *)
Class GoRuntime := {
  json_Marshal : Any -> option string;
  json_Decode : string -> Any -> string * Any * bool;
  http_ServeFile : Http.ResponseWriter -> Http.Request -> string -> Http.ResponseWriter;
  http_Redirect : Http.ResponseWriter -> Http.Request -> string -> Z -> Http.ResponseWriter;
  fallback_Execute : string -> Any -> Http.ResponseWriter -> Http.ResponseWriter * bool;
  filepath_Join : string -> string -> string;
  fileExists : string -> bool
}.

(* ===================================================================== *)
(** * session.go                                                         *)
(* ===================================================================== *)

Module Session.

(** A [Session]; the bag is [data]. *)
Record Session := mkSession {
  id : string;
  data : gmap string Any;
  maxAge : Z
}.

(** [SessionManager]: the table holds the sessions themselves, so the
    [*Session] a request gets is the table's entry under its id. *)
Record SessionManager := mkSessionManager {
  sessions : gmap string Session;
  smMaxAge : Z
}.

(** 24 hours, in nanoseconds. *)
Definition NewSessionManager : SessionManager :=
  mkSessionManager ∅ (24 * 3600 * 1000000000).

Definition setSessionCookie (sm : SessionManager) (w : Http.ResponseWriter)
    (sessionID : string) : Http.ResponseWriter :=
  Http.SetCookie w
    (Http.mkCookie "session_id" sessionID "/" (smMaxAge sm / 1000000000)
       true false true).

(** [GetSession]; [fresh] is what [generateSessionID] returns if it is
    called. The result names the session by its id in the new table. *)
Definition GetSession (sm : SessionManager) (r : Http.Request)
    (w : Http.ResponseWriter) (fresh : string)
  : SessionManager * Http.ResponseWriter * string :=
  let '(sessionID, w) :=
    match Http.Cookies r !! "session_id" with
    | None => (fresh, setSessionCookie sm w fresh)
    | Some value =>
        if String.eqb value "" then (fresh, setSessionCookie sm w fresh)
        else (value, w)
    end in
  match sessions sm !! sessionID with
  | Some _ => (sm, w, sessionID)
  | None =>
      let session := mkSession sessionID ∅ (smMaxAge sm) in
      (mkSessionManager (<[sessionID := session]> (sessions sm)) (smMaxAge sm),
       w, sessionID)
  end.

(** The session a [*Session] handle points to. *)
Definition deref (sm : SessionManager) (sid : string) : Session :=
  default (mkSession sid ∅ (smMaxAge sm)) (sessions sm !! sid).

Definition Set_ (s : Session) (key : string) (value : Any) : Session :=
  mkSession (id s) (<[key := value]> (data s)) (maxAge s).

(** A missing key reads as [nil]. *)
Definition Get (s : Session) (key : string) : Any :=
  default ANil (data s !! key).

Definition Delete (s : Session) (key : string) : Session :=
  mkSession (id s) (delete key (data s)) (maxAge s).

Definition Clear (s : Session) : Session :=
  mkSession (id s) ∅ (maxAge s).

Definition Has (s : Session) (key : string) : bool :=
  bool_decide (is_Some (data s !! key)).

(** A method with a pointer receiver, run through the table. *)
Definition through (f : Session -> Session) (sm : SessionManager) (sid : string)
  : SessionManager :=
  mkSessionManager (alter f sid (sessions sm)) (smMaxAge sm).

End Session.

(* ===================================================================== *)
(** * context.go                                                         *)
(* ===================================================================== *)

Module Ctx.
Import Http.

(** [Context]. [templates] is [c.app.templates]: [None] for [nil],
    otherwise the engine's [Render(name, data)], giving the output and
    whether it failed. [params] is [None] for a nil map. [session] names
    the session in the manager's table. *)
Record Context := mkContext {
  Request : Http.Request;
  Response : Http.ResponseWriter;
  templates : option (string -> Any -> string * bool);
  params : option (gmap string string);
  query : gmap string (list string);
  form : gmap string (list string);
  session : string;
  data : gmap string Any;
  written : bool;
  statusCode : Z
}.

Definition setRequest (c : Context) (r : Http.Request) : Context :=
  mkContext r (Response c) (templates c) (params c) (query c) (form c)
    (session c) (data c) (written c) (statusCode c).

Definition setResponse (c : Context) (w : Http.ResponseWriter) : Context :=
  mkContext (Request c) w (templates c) (params c) (query c) (form c)
    (session c) (data c) (written c) (statusCode c).

Definition setParams (c : Context) (p : option (gmap string string)) : Context :=
  mkContext (Request c) (Response c) (templates c) p (query c) (form c)
    (session c) (data c) (written c) (statusCode c).

Definition setData (c : Context) (d : gmap string Any) : Context :=
  mkContext (Request c) (Response c) (templates c) (params c) (query c) (form c)
    (session c) d (written c) (statusCode c).

Definition setWritten (c : Context) (b : bool) : Context :=
  mkContext (Request c) (Response c) (templates c) (params c) (query c) (form c)
    (session c) (data c) b (statusCode c).

Definition setStatusCode (c : Context) (code : Z) : Context :=
  mkContext (Request c) (Response c) (templates c) (params c) (query c) (form c)
    (session c) (data c) (written c) code.

Definition NewContext (w : Http.ResponseWriter) (r : Http.Request)
    (tmpl : option (string -> Any -> string * bool))
    (sm : Session.SessionManager) (fresh : string)
  : Context * Session.SessionManager :=
  let q := URLQuery r in
  let f :=
    if String.eqb (Method r) "POST" || String.eqb (Method r) "PUT"
       || String.eqb (Method r) "PATCH"
    then PostForm r else ∅ in
  let '(sm, w, sid) := Session.GetSession sm r w fresh in
  (mkContext r w tmpl (Some ∅) q f sid ∅ false 200, sm).

(** The line end of the handshake response. *)
Definition CRLF : string :=
  String.String (ascii_of_nat 13) (String.String (ascii_of_nat 10) "").

Section Methods.
Context {rt : GoRuntime}.

Definition Param (c : Context) (name : string) : string :=
  match params c with
  | Some m => default "" (m !! name)
  | None => ""
  end.

Definition Query (c : Context) (name : string) : string :=
  Values_Get (query c) name.

Definition QueryDefault (c : Context) (name defaultValue : string) : string :=
  let value := Values_Get (query c) name in
  if String.eqb value "" then defaultValue else value.

Definition Form (c : Context) (name : string) : string :=
  Values_Get (form c) name.

Definition FormDefault (c : Context) (name defaultValue : string) : string :=
  let value := Values_Get (form c) name in
  if String.eqb value "" then defaultValue else value.

(** [sendJSON]: the context after the call, and whether it returned an
    error. *)
Definition sendJSON (c : Context) (v : Any) : Context * bool :=
  let c := setResponse c (Header_Set (Response c) "Content-Type" "application/json") in
  let c := if negb (statusCode c =? 200)
           then setResponse c (WriteHeader (Response c) (statusCode c))
           else c in
  let c := setWritten c true in
  match json_Marshal v with
  | Some bytes => (setResponse c (Write (Response c) bytes), false)
  | None => (c, true)
  end.

(** [JSON]: the context after the call, what [v] holds after it, and
    whether it returned an error. *)
Definition JSON (c : Context) (v : Any) : Context * Any * bool :=
  if String.eqb (Method (Request c)) "GET" || (ContentLength (Request c) =? 0)
  then
    let '(c, err) := sendJSON c v in (c, v, err)
  else
    let '(rest, v, err) := json_Decode (Body (Request c)) v in
    (setRequest c (setBody (Request c) rest), v, err).

Definition String (c : Context) (text : string) : Context :=
  let c := setResponse c (Header_Set (Response c) "Content-Type" "text/plain") in
  let c := if negb (statusCode c =? 200)
           then setResponse c (WriteHeader (Response c) (statusCode c))
           else c in
  let c := setWritten c true in
  setResponse c (Write (Response c) text).

Definition HTML (c : Context) (html : string) : Context :=
  let c := setResponse c (Header_Set (Response c) "Content-Type" "text/html") in
  let c := if negb (statusCode c =? 200)
           then setResponse c (WriteHeader (Response c) (statusCode c))
           else c in
  let c := setWritten c true in
  setResponse c (Write (Response c) html).

Definition Render (c : Context) (templateName : string) (d : Any) : Context * bool :=
  let c := setResponse c (Header_Set (Response c) "Content-Type" "text/html") in
  let c := if negb (statusCode c =? 200)
           then setResponse c (WriteHeader (Response c) (statusCode c))
           else c in
  let c := setWritten c true in
  match templates c with
  | Some render =>
      let '(output, err) := render templateName d in
      if err then (c, true)
      else if (String.length output =? 0)%nat then (c, true)
      else (setResponse c (Write (Response c) output), false)
  | None =>
      let '(w, err) := fallback_Execute templateName d (Response c) in
      (setResponse c w, err)
  end.

Definition File (c : Context) (filePath : string) : Context :=
  let c := setResponse c (http_ServeFile (Response c) (Request c) filePath) in
  setWritten c true.

Definition Redirect (c : Context) (url : string) : Context :=
  let c := setResponse c (http_Redirect (Response c) (Request c) url 302) in
  setWritten c true.

Definition Status (c : Context) (code : Z) : Context := setStatusCode c code.

Definition Header (c : Context) (key value : string) : Context :=
  setResponse c (Header_Set (Response c) key value).

Definition Cookie (c : Context) (ck : Http.Cookie) : Context :=
  setResponse c (SetCookie (Response c) ck).

Definition Set_ (c : Context) (key : string) (value : Any) : Context :=
  setData c (<[key := value]> (data c)).

Definition Get (c : Context) (key : string) : Any :=
  default ANil (data c !! key).

(** [Body]: [io.ReadAll] leaves nothing unread. *)
Definition ReadBody (c : Context) : Context * string :=
  (setRequest c (setBody (Request c) ""), Body (Request c)).

Definition IP (c : Context) : string :=
  let ip := Header_Get (Request c) "X-Forwarded-For" in
  if negb (String.eqb ip "") then default "" (head (GoStrings.Split ip ","))
  else
    let ip := Header_Get (Request c) "X-Real-IP" in
    if negb (String.eqb ip "") then ip
    else RemoteAddr (Request c).

(** [Upgrade] (websocket.go), as far as the context goes: the context
    after the call and whether it returned an error. The handler runs
    on a task of its own and is not part of the call. *)
Definition Upgrade (c : Context) : Context * bool :=
  if negb (String.eqb (Header_Get (Request c) "Connection") "Upgrade")
     || negb (String.eqb (Header_Get (Request c) "Upgrade") "websocket")
  then ((JSON (Status c 400)
           (AMapSS [("error", "Not a WebSocket upgrade request")])).1.1, true)
  else
    let key := Header_Get (Request c) "Sec-WebSocket-Key" in
    if String.eqb key ""
    then ((JSON (Status c 400)
             (AMapSS [("error", "Missing Sec-WebSocket-Key header")])).1.1, true)
    else
      let acceptKey := WebSocket.calculateAcceptKey key in
      match RHijack (Response c) with
      | NotHijacker =>
          ((JSON (Status c 500)
              (AMapSS [("error", "WebSocket upgrade not supported")])).1.1, true)
      | HijackFails =>
          ((JSON (Status c 500)
              (AMapSS [("error", "Failed to hijack connection")])).1.1, true)
      | HijackOk writeFails flushFails =>
          if writeFails then (c, true)
          else
            let response :=
              "HTTP/1.1 101 Switching Protocols" +:+ CRLF
              +:+ "Upgrade: websocket" +:+ CRLF
              +:+ "Connection: Upgrade" +:+ CRLF
              +:+ "Sec-WebSocket-Accept: " +:+ acceptKey +:+ CRLF
              +:+ CRLF in
            (setResponse c (RawWrite (Response c) response), flushFails)
      end.

End Methods.

End Ctx.

(* ===================================================================== *)
(** * middleware.go: the rate limiter                                    *)
(* ===================================================================== *)

Module Middleware.
Import Ctx.

(** The [client] entry of [RateLimit]; [reset] is a time in nanoseconds. *)
Record client := mkClient { requests : Z; reset : Z }.

(** [time.Minute]. *)
Definition Minute : Z := 60 * 1000000000.

(** [t.Unix()]. *)
Definition Unix (t : Z) : Z := t / 1000000000.

(** The loop that deletes the entries whose window is over:
    [now.After(v.reset)]. *)
Definition cleanup (now : Z) (clients : gmap string client) : gmap string client :=
  filter (fun kv => ¬ (reset kv.2 < now)) clients.

Section WithRuntime.
Context {rt : GoRuntime}.

(** One call of the closure [RateLimit(requestsPerMinute)] returns:
    [now] is what [time.Now()] gives, [clients] the closure's map. The
    result is the map and the context after the call, and the
    middleware's answer. *)
Definition RateLimit (requestsPerMinute : Z) (now : Z)
    (clients : gmap string client) (c : Context)
  : gmap string client * Context * bool :=
  let ip := IP c in
  let clients := cleanup now clients in
  let '(cl, clients) :=
    match clients !! ip with
    | Some cl => (cl, clients)
    | None =>
        let cl := mkClient 0 (now + Minute) in
        (cl, <[ip := cl]> clients)
    end in
  if requestsPerMinute <=? requests cl
  then
    (clients,
     (JSON (Status c 429) (AMapSS [("error", "Rate limit exceeded")])).1.1,
     false)
  else
    let cl := mkClient (requests cl + 1) (reset cl) in
    let clients := <[ip := cl]> clients in
    let c := Header c "X-RateLimit-Limit" (Itoa requestsPerMinute) in
    let c := Header c "X-RateLimit-Remaining" (Itoa (requestsPerMinute - requests cl)) in
    let c := Header c "X-RateLimit-Reset" (Itoa (Unix (reset cl))) in
    (clients, c, true).

End WithRuntime.

End Middleware.

(* ===================================================================== *)
(** * smallapi.go: the application and its request loop                  *)
(* ===================================================================== *)

Module App.
Import Ctx.

Section WithEnv.
Context {rt : GoRuntime} {Env : Type}.

(** What a middleware or a handler can read and change: the request's
    context, the session table, the log, and [env] for everything else
    its closure reaches. *)
Record State := mkState {
  ctx : Ctx.Context;
  sess : Session.SessionManager;
  logs : list string;
  env : Env
}.

Definition setCtx (s : State) (c : Ctx.Context) : State :=
  mkState c (sess s) (logs s) (env s).

(** [log.Printf]. *)
Definition Printf (s : State) (line : string) : State :=
  mkState (ctx s) (sess s) (logs s ++ [line]) (env s).

(** A call either returns or panics with a (non-nil) value, shown here
    as [%v] prints it. *)
Inductive Result (A : Type) :=
| Returned (a : A) (s : State)
| Panicked (p : string) (s : State).
Global Arguments Returned {A} a s.
Global Arguments Panicked {A} p s.

Definition MiddlewareFunc : Type := State -> Result bool.
Definition HandlerFunc : Type := State -> Result unit.

(** [App]; [static] lists the map in the order the [range] loop visits
    it. The session manager is in the [State]. *)
Record App := mkApp {
  router : Router.Router HandlerFunc;
  middleware : list MiddlewareFunc;
  templates : option (string -> Any -> string * bool);
  static : list (string * string)
}.

Definition New (engine : string -> Any -> string * bool) : App :=
  mkApp Router.NewRouter [] (Some engine) [].

Definition Use (a : App) (m : MiddlewareFunc) : App :=
  mkApp (router a) (middleware a ++ [m]) (templates a) (static a).

(** [a.router.Add(method, path, handler)], the body of [Get], [Post] and
    the like. *)
Definition addRoute (a : App) (method path : string) (handler : option HandlerFunc) : App :=
  mkApp (Router.Add (router a) method path handler) (middleware a)
    (templates a) (static a).

Definition Get (a : App) (path : string) (handler : option HandlerFunc) : App :=
  addRoute a "GET" path handler.

Definition Post (a : App) (path : string) (handler : option HandlerFunc) : App :=
  addRoute a "POST" path handler.


(** A function whose deferred closure calls [recover()]: a panic of the
    body ends there, the closure runs [onPanic], and the function
    returns the zero value of its result. *)
Definition deferRecover {A} (zero : A) (onPanic : string -> State -> State)
    (body : State -> Result A) (s : State) : Result A :=
  match body s with
  | Returned a s' => Returned a s'
  | Panicked p s' => Returned zero (onPanic p s')
  end.

(** The deferred closure shared by [Recovery] and [ServeHTTP]. *)
Definition respond500 (prefix : string) (p : string) (s : State) : State :=
  let s := Printf s (prefix +:+ p) in
  if negb (written (ctx s))
  then setCtx s (JSON (Status (ctx s) 500)
                   (AMapSS [("error", "Internal Server Error")])).1.1
  else s.

(** [Recovery()] (middleware.go): the deferred closure guards the
    body [return true]. *)
Definition Recovery : MiddlewareFunc :=
  deferRecover false (respond500 "Panic recovered: ")
    (fun s => Returned true s).

(** What the request loop did, in order: the file it served, the
    middleware it called (by index, with what the call returned, [None]
    for a panic), the handler it called. *)
Inductive Event :=
| EvStatic (filePath : string)
| EvMiddleware (i : nat) (ret : option bool)
| EvHandler.

(** The static-file loop: the file to serve, if some entry has one. *)
Fixpoint staticLoop (st : list (string * string)) (path : string) : option string :=
  match st with
  | [] => None
  | (urlPath, dirPath) :: rest =>
      if (String.length urlPath <=? String.length path)%nat
         && String.eqb (String.substring 0 (String.length urlPath) path) urlPath
      then
        let filePath :=
          filepath_Join dirPath
            (String.substring (String.length urlPath)
               (String.length path - String.length urlPath) path) in
        if fileExists filePath then Some filePath
        else staticLoop rest path
      else staticLoop rest path
  end.

(** How the middleware loop ended. *)
Inductive Pipeline :=
| Continue (s : State)
| Stopped (s : State)
| Escaped (p : string) (s : State).

(** The middleware loop from index [i]; [tr] collects the calls. *)
Fixpoint runMiddleware (ms : list MiddlewareFunc) (i : nat) (s : State)
    (tr : list Event) : Pipeline * list Event :=
  match ms with
  | [] => (Continue s, tr)
  | m :: rest =>
      match m s with
      | Returned true s' =>
          runMiddleware rest (S i) s' (tr ++ [EvMiddleware i (Some true)])
      | Returned false s' => (Stopped s', tr ++ [EvMiddleware i (Some false)])
      | Panicked p s' => (Escaped p s', tr ++ [EvMiddleware i None])
      end
  end.

(** One run of [ServeHTTP]: the state it leaves, the calls it made, and
    the panic that left it, if one did. *)
Record Run := mkRun {
  final : State;
  events : list Event;
  escaped : option string
}.

(** [ServeHTTP]; [fresh] is the session id [generateSessionID] would
    return during this request. The source calls [NewContext(w, r,
    a.sessions)], without the application its definition takes; the
    context gets the application's templates here. The router is asked
    with the method and path of [r], the request [ServeHTTP] was called
    with: a middleware that assigns [c.Request] gives the context
    another request and leaves [r] alone. Requests are values here, so
    a change of the context's request stands for such an assignment,
    not for a write through the pointer the two share at the start. *)
Definition ServeHTTP (a : App) (w : Http.ResponseWriter) (r : Http.Request)
    (fresh : string) (sm : Session.SessionManager) (lg : list string) (e : Env)
  : Run :=
  let '(c, sm) := NewContext w r (templates a) sm fresh in
  let s := mkState c sm lg e in
  match staticLoop (static a) (Http.URLPath r) with
  | Some filePath =>
      mkRun (setCtx s (setResponse c (http_ServeFile (Response c) r filePath)))
            [EvStatic filePath] None
  | None =>
      match runMiddleware (middleware a) 0 s [] with
      | (Stopped s, tr) => mkRun s tr None
      | (Escaped p s, tr) => mkRun s tr (Some p)
      | (Continue s, tr) =>
          let '(handler, params) :=
            Router.Match (router a) (Http.Method r) (Http.URLPath r) in
          match handler with
          | None =>
              mkRun (setCtx s (JSON (Status (ctx s) 404)
                                 (AMapSS [("error", "Not Found")])).1.1)
                    tr None
          | Some h =>
              let s := setCtx s (setParams (ctx s) params) in
              match deferRecover tt (respond500 "Panic in handler: ") h s with
              | Returned _ s => mkRun s (tr ++ [EvHandler]) None
              | Panicked p s => mkRun s (tr ++ [EvHandler]) (Some p)
              end
          end
      end
  end.

End WithEnv.
Global Arguments State : clear implicits.
Global Arguments App : clear implicits.
Global Arguments Run : clear implicits.
Global Arguments MiddlewareFunc : clear implicits.
Global Arguments HandlerFunc : clear implicits.

End App.

(* ===================================================================== *)
(** * What the specification says, in the model's terms                  *)
(* ===================================================================== *)

Module RouterSpec.
Import GoStrings Router.

(** The segment a piece of a template stands for: a parameter named by
    what follows the colon, or a literal holding the piece. *)
Definition segmentOf (piece : string) : Segment :=
  match piece with
  | String ":" name => mkSegment true name ""
  | _ => mkSegment false "" piece
  end.

(** The pieces of a path or of a template. *)
Definition pieces (path : string) : list string := Split (Trim path "/") "/".

Section WithHandler.
Context {HandlerFunc : Type}.

(** The route a registration stands for. *)
Definition routeOf (reg : string * string * option HandlerFunc) : Route HandlerFunc :=
  mkRoute reg.1.1 reg.1.2 reg.2 (compilePattern reg.1.2).

(** A route matches a request: same method, same number of segments,
    every literal segment equal to the path's segment at its place. *)
Definition accepts (rt : Route HandlerFunc) (method : string) (segs : list string)
  : Prop :=
  Method rt = method
  /\ length (Segments (Pattern rt)) = length segs
  /\ forall i seg s,
       Segments (Pattern rt) !! i = Some seg -> segs !! i = Some s ->
       IsParam seg = false -> Value seg = s.
End WithHandler.

(** The literal segments agree with the path segments beside them. *)
Fixpoint literals_ok (segs : list Segment) (ps : list string) : bool :=
  match segs, ps with
  | seg :: segs', p :: ps' =>
      (IsParam seg || String.eqb (Value seg) p) && literals_ok segs' ps'
  | _, _ => true
  end.

(** The bindings the parameter segments add to [params], left to right. *)
Fixpoint bind (segs : list Segment) (ps : list string) (params : gmap string string)
  : gmap string string :=
  match segs, ps with
  | seg :: segs', p :: ps' =>
      bind segs' ps' (if IsParam seg then <[Name seg := p]> params else params)
  | _, _ => params
  end.

(** Every parameter segment's name is bound to the path segment at its
    place. *)
Definition binds_each (pat : RoutePattern) (segs : list string)
    (params : gmap string string) : Prop :=
  forall i seg s,
    Segments pat !! i = Some seg -> IsParam seg = true -> segs !! i = Some s ->
    params !! Name seg = Some s.

(** The bindings are those of the parameter segments, the last segment
    of a name giving the name's value. *)
Definition binds_last (pat : RoutePattern) (segs : list string)
    (params : gmap string string) : Prop :=
  forall name value,
    params !! name = Some value <->
    exists i seg,
      Segments pat !! i = Some seg /\ IsParam seg = true /\ Name seg = name
      /\ segs !! i = Some value
      /\ forall j seg', (i < j)%nat -> Segments pat !! j = Some seg' ->
           IsParam seg' = true -> Name seg' <> name.

(** What [Match] returns on a router built from the registrations
    [adds]: the handler and the bindings of the first registration whose
    route matches, no earlier registration having that method and path,
    or two nils when no route matches. [binds] says what the bindings
    are. *)
Definition Match_returns {HandlerFunc : Type}
    (binds : RoutePattern -> list string -> gmap string string -> Prop)
    (adds : list (string * string * option HandlerFunc))
    (method path : string) : Prop :=
  let r := build adds in
  let segs := pieces path in
  (exists k reg params,
      adds !! k = Some reg
      /\ accepts (routeOf reg) method segs
      /\ (forall j reg', (j < k)%nat -> adds !! j = Some reg' ->
             ~ accepts (routeOf reg') method segs)
      /\ (forall j reg', (j < k)%nat -> adds !! j = Some reg' ->
             (reg'.1.1, reg'.1.2) <> (reg.1.1, reg.1.2))
      /\ Match r method path = (reg.2, Some params)
      /\ binds (compilePattern reg.1.2) segs params)
  \/ ((forall j reg', adds !! j = Some reg' -> ~ accepts (routeOf reg') method segs)
      /\ Match r method path = (None, None)).

End RouterSpec.

Module CtxOps.
Import Http Ctx.

(** The methods with receiver [*Context], as operations on the context.
    [OpRead] stands for the methods that assign nothing: [Param],
    [ParamInt], [Query], [QueryDefault], [QueryInt], [Form],
    [FormDefault], [GetCookie], [Session], [Get], [GetString], [GetInt],
    [IsAjax], [IP], [UserAgent], [Method], [Path], [URL], [Validate]. *)
Inductive Op :=
| OpJSON (v : Any)
| OpSendJSON (v : Any)
| OpString (text : string)
| OpHTML (html : string)
| OpRender (templateName : string) (d : Any)
| OpFile (filePath : string)
| OpRedirect (url : string)
| OpStatus (code : Z)
| OpHeader (key value : string)
| OpCookie (ck : Http.Cookie)
| OpSet (key : string) (value : Any)
| OpBody
| OpUpgrade
| OpRead.

(** [JSON] takes the call for a response: the method is GET or the
    request announces no body. *)
Definition respondsJSON (c : Context) : bool :=
  String.eqb (Method (Request c)) "GET" || (ContentLength (Request c) =? 0).

(** [Upgrade] answers with an error body instead of taking the
    connection over. *)
Definition upgradeRefused (c : Context) : bool :=
  negb (String.eqb (Header_Get (Request c) "Connection") "Upgrade")
  || negb (String.eqb (Header_Get (Request c) "Upgrade") "websocket")
  || String.eqb (Header_Get (Request c) "Sec-WebSocket-Key") ""
  || match RHijack (Response c) with
     | HijackOk _ _ => false
     | _ => true
     end.

(** The operation sends a response through the context: one of
    [sendJSON], [String], [HTML], [Render], [File], [Redirect], or [JSON]
    taken for a response, directly or inside [Upgrade]. *)
Definition sending (op : Op) (c : Context) : bool :=
  match op with
  | OpSendJSON _ | OpString _ | OpHTML _ | OpRender _ _ | OpFile _ | OpRedirect _ => true
  | OpJSON _ => respondsJSON c
  | OpUpgrade => upgradeRefused c && respondsJSON c
  | _ => false
  end.

Section WithRuntime.
Context {rt : GoRuntime}.

(** The context after the operation returns. *)
Definition exec (op : Op) (c : Context) : Context :=
  match op with
  | OpJSON v => (JSON c v).1.1
  | OpSendJSON v => (sendJSON c v).1
  | OpString text => String c text
  | OpHTML html => HTML c html
  | OpRender templateName d => (Render c templateName d).1
  | OpFile filePath => File c filePath
  | OpRedirect url => Redirect c url
  | OpStatus code => Status c code
  | OpHeader key value => Header c key value
  | OpCookie ck => Cookie c ck
  | OpSet key value => Set_ c key value
  | OpBody => (ReadBody c).1
  | OpUpgrade => (Upgrade c).1
  | OpRead => c
  end.

(** A sequence of operations, from the left. *)
Definition run (ops : list Op) (c : Context) : Context :=
  foldl (fun c op => exec op c) c ops.

(** Some operation of the sequence sent a response when its turn came. *)
Fixpoint sent (ops : list Op) (c : Context) : bool :=
  match ops with
  | [] => false
  | op :: rest => sending op c || sent rest (exec op c)
  end.

End WithRuntime.

End CtxOps.

Module SessionSpec.
Import Http Session.

(** The token [GetSession] works with: the cookie's value, or the
    generated one when the cookie is absent or empty. *)
Definition token (r : Request) (fresh : string) : string :=
  match Cookies r !! "session_id" with
  | Some value => if String.eqb value "" then fresh else value
  | None => fresh
  end.

End SessionSpec.

Module RateLimitSpec.
Import Ctx Middleware.

(** The entry of [ip] whose window is not over at [now]. *)
Definition live (now : Z) (clients : gmap string client) (ip : string) : option client :=
  match clients !! ip with
  | Some cl => if reset cl <? now then None else Some cl
  | None => None
  end.

(** The entry a call works with: the live one, or a new one. *)
Definition entry (now : Z) (clients : gmap string client) (ip : string) : client :=
  default (mkClient 0 (now + Minute)) (live now clients ip).

(** The body of the refusal. *)
Definition refusal : Any := AMapSS [("error", "Rate limit exceeded")].

Section WithRuntime.
Context {rt : GoRuntime}.

(** The closure's map after a sequence of calls, each with its time. *)
Fixpoint serve (limit : Z) (reqs : list (Z * Context)) (clients : gmap string client)
  : gmap string client :=
  match reqs with
  | [] => clients
  | (now, c) :: rest => serve limit rest (RateLimit limit now clients c).1.1
  end.







End WithRuntime.

End RateLimitSpec.

(** A runtime to run the examples with: maps of strings and strings are
    encoded, a body is decoded as a string, files are served by name. *)
Module ExampleRuntime.

Definition quote : string := String.String (ascii_of_nat 34) "".

Fixpoint fields (kv : list (string * string)) : string :=
  match kv with
  | [] => ""
  | [(k, v)] => quote +:+ k +:+ quote +:+ ":" +:+ quote +:+ v +:+ quote
  | (k, v) :: rest =>
      quote +:+ k +:+ quote +:+ ":" +:+ quote +:+ v +:+ quote +:+ "," +:+ fields rest
  end.

Definition marshal (v : Any) : option string :=
  match v with
  | AMapSS kv => Some ("{" +:+ fields kv +:+ "}")
  | AStr s => Some (quote +:+ s +:+ quote)
  | _ => None
  end.

#[export] Instance runtime : GoRuntime := {|
  json_Marshal := marshal;
  json_Decode := fun body v => ("", AStr body, false);
  http_ServeFile := fun w r filePath => Http.Write w ("file " +:+ filePath);
  http_Redirect := fun w r url code =>
    Http.WriteHeader (Http.Header_Set w "Location" url) code;
  fallback_Execute := fun name d w => (Http.Write w name, false);
  filepath_Join := fun dir rest => dir +:+ rest;
  fileExists := fun filePath => String.eqb filePath "public/app.css"
|}.

(** A request with no cookies, headers or body. *)
Definition request (method path : string) (body : string) : Http.Request :=
  Http.mkRequest method path (Z.of_nat (String.length body)) ∅ ∅ ∅ ∅ "10.0.0.1:4000" body.

(** The context of such a request, on a writer that has sent nothing. *)
Definition context (method path : string) (body : string) : Ctx.Context :=
  (Ctx.NewContext (Http.NewResponseWriter Http.NotHijacker) (request method path body)
     None Session.NewSessionManager "s1").1.

End ExampleRuntime.

Module PipelineSpec.
Import Http Ctx App.


Section WithEnv.
Context {rt : GoRuntime} {Env : Type}.







End WithEnv.

(** Applications to run the examples with, on [ExampleRuntime]. *)
Section Examples.
Import ExampleRuntime.

Definition boom : MiddlewareFunc unit := fun s => Panicked "boom" s.
Definition hello : HandlerFunc unit :=
  fun s => Returned tt (setCtx s (String (ctx s) "hello")).
Definition crash : HandlerFunc unit := fun s => Panicked "boom" s.


(** [Recovery()] first, then a middleware that panics. *)
Definition guardedApp : App unit :=
  Get (Use (Use (New (fun _ _ => ("", true))) Recovery) boom) "/" (Some hello).

(** A route whose handler panics. *)
Definition crashApp : App unit :=
  Post (Get (New (fun _ _ => ("", true))) "/" (Some crash)) "/" (Some crash).

(** [ServeHTTP] on a new writer and a new session table. *)
Definition serve (a : App unit) (method path body : string) : Run unit :=
  ServeHTTP a (NewResponseWriter NotHijacker) (request method path body)
    "s1" Session.NewSessionManager [] tt.

End Examples.

End PipelineSpec.

(* ===================================================================== *)
(** * More of the repository: definitions                               *)
(* ===================================================================== *)

Module RouterMore.
Import GoStrings Router.

(** The names of the parameter segments of a pattern, in order. *)
Definition paramNames (pat : RoutePattern) : list string :=
  map Name (filter (fun seg => IsParam seg = true) (Segments pat)).

Section WithHandler.
Context {HandlerFunc : Type}.

(** [Routes] returns all registered routes. *)
Definition Routes (r : Router HandlerFunc) : list (Route HandlerFunc) := routes r.

(** What [PrintRoutes] prints: a line per route, the method, a space and
    the path. *)
Definition PrintRoutes (r : Router HandlerFunc) : list string :=
  map (fun route => Method route +:+ " " +:+ Path route) (routes r).

End WithHandler.

End RouterMore.

Module WebSocketRead.

(** The connection seen from the reader: the chunks of bytes the network
    delivers, in order. *)
Definition Inbox : Type := list (list Z).

(** [conn.Read(buf)] with [len(buf) = n]: the bytes of the first chunk
    that fit go to the front of the buffer, the rest of the buffer stays
    zero, and what is left of the chunk stays first in line. A buffer of
    length zero reads nothing; an empty inbox is the end of the
    connection, an error. The result is the inbox, the buffer and whether
    there was an error. *)
Fixpoint Conn_Read (inbox : Inbox) (n : nat) : Inbox * list Z * bool :=
  match n with
  | O => (inbox, [], false)
  | _ =>
      match inbox with
      | [] => ([], replicate n 0, true)
      | [] :: rest => Conn_Read rest n
      | chunk :: rest =>
          let got := take n chunk in
          (match drop n chunk with
           | [] => rest
           | more => more :: rest
           end,
           got ++ replicate (n - length got) 0,
           false)
      end
  end.

(** The loop [payload[i] ^= maskKey[i%4]]. *)
Definition unmask (maskKey : list Z) (payload : list Z) : list Z :=
  imap (fun i b => Z.lxor b (nth (i mod 4) maskKey 0)) payload.

(** [ReadMessage]: the inbox after the call and the payload, [None] for
    an error. *)
Definition ReadMessage (inbox : Inbox) : Inbox * option (list Z) :=
  let '(inbox, header, err) := Conn_Read inbox 2 in
  if err then (inbox, None)
  else
    let payloadLen := Z.to_nat (Z.land (nth 1 header 0) 0x7F) in
    let '(inbox, maskKey, err) :=
      if negb (Z.land (nth 1 header 0) 0x80 =? 0)
      then let '(inbox, key, err) := Conn_Read inbox 4 in (inbox, Some key, err)
      else (inbox, None, false) in
    if err then (inbox, None)
    else
      let '(inbox, payload, err) := Conn_Read inbox payloadLen in
      if err then (inbox, None)
      else
        (inbox,
         Some match maskKey with
              | Some key => unmask key payload
              | None => payload
              end).

(** [WriteText]. *)
Definition WriteText (ws : WebSocket.Conn) (text : string) : WebSocket.Conn * bool :=
  WebSocket.WriteMessage ws (bytes_of_string text).

(** RFC 6455, section 5.3, on the sender's side: the octets of the
    payload are added (exclusive or) to the four octets of the masking
    key, one after the other, and the key starts over after its fourth
    octet. *)
Fixpoint masked (k0 k1 k2 k3 : Z) (payload : list Z) : list Z :=
  match payload with
  | [] => []
  | b :: rest => Z.lxor b k0 :: masked k1 k2 k3 k0 rest
  end.

(** A frame a client sends: the text header, the length with the mask
    bit, the key and the masked payload. *)
Definition maskedFrame (k0 k1 k2 k3 : Z) (payload : list Z) : list Z :=
  [0x81; 128 + Z.of_nat (length payload)] ++ [k0; k1; k2; k3]
  ++ masked k0 k1 k2 k3 payload.

End WebSocketRead.

Module SessionMore.
Import Session.

(** [GetString]: the value when it is a string, the empty string
    otherwise. *)
Definition GetString (s : Session) (key : string) : string :=
  match Get s key with
  | AStr str => str
  | _ => ""
  end.

(** [GetInt]: the value when it is an int, zero otherwise. *)
Definition GetInt (s : Session) (key : string) : Z :=
  match Get s key with
  | AInt i => i
  | _ => 0
  end.

(** [Keys]: the keys of the bag, in the order the [range] loop visits
    them. *)
Definition Keys (s : Session) : list string := (map_to_list (data s)).*1.

(** [ID]. *)
Definition ID (s : Session) : string := id s.

End SessionMore.

(** [strconv.Atoi]: an optional sign and decimal digits, at least one, in
    the range of a 64-bit [int]. The result is the value and whether there
    was an error: zero for a syntax error, the nearest bound for a number
    out of range. *)
Module GoStrconv.

Definition maxInt : Z := 2 ^ 63 - 1.
Definition minInt : Z := - 2 ^ 63.

(** The numeral [s] stands for, when it is one. *)
Definition parse (s : string) : option Decimal.int :=
  match s with
  | String "+" rest => option_map Decimal.Pos (NilZero.uint_of_string rest)
  | _ => NilZero.int_of_string s
  end.

Definition Atoi (s : string) : Z * bool :=
  match parse s with
  | None => (0, true)
  | Some d =>
      let z := Z.of_int d in
      if z <? minInt then (minInt, true)
      else if maxInt <? z then (maxInt, true)
      else (z, false)
  end.

End GoStrconv.

Module CtxMore.
Import Http Ctx.

(** [ParamInt]: the value and whether there was an error. *)
Definition ParamInt (c : Context) (name : string) : Z * bool :=
  let value := Param c name in
  if String.eqb value "" then (0, true) else GoStrconv.Atoi value.

(** [QueryInt]. *)
Definition QueryInt (c : Context) (name : string) : Z * bool :=
  let value := Values_Get (query c) name in
  if String.eqb value "" then (0, true) else GoStrconv.Atoi value.

(** [GetString] and [GetInt] of the context's own data. *)
Definition GetString (c : Context) (key : string) : string :=
  match data c !! key with
  | Some (AStr value) => value
  | _ => ""
  end.

Definition GetInt (c : Context) (key : string) : Z :=
  match data c !! key with
  | Some (AInt value) => value
  | _ => 0
  end.

Definition UserAgent (c : Context) : string := Header_Get (Request c) "User-Agent".
Definition Method (c : Context) : string := Http.Method (Request c).
Definition Path (c : Context) : string := URLPath (Request c).
Definition Session (c : Context) : string := session c.

End CtxMore.

(** templates.go: a template is known by what [Execute] writes for a
    value and whether it fails. *)
Module Templates.

Record TemplateEngine := mkTemplateEngine {
  templates : gmap string (Any -> string * bool);
  dir : string
}.

Definition NewTemplateEngine : TemplateEngine := mkTemplateEngine ∅ "".

(** [Render]: the output and whether there was an error. *)
Definition Render (te : TemplateEngine) (name : string) (d : Any) : string * bool :=
  match templates te !! name with
  | None => ("", true)
  | Some tmpl => tmpl d
  end.



End Templates.

Module RateLimitMore.
Import Ctx Middleware.

Section WithRuntime.
Context {rt : GoRuntime}.

(** The answers of the limiter to a sequence of calls, each with its
    time, from the map [clients]. *)
Fixpoint answers (limit : Z) (reqs : list (Z * Context)) (clients : gmap string client)
  : list bool :=
  match reqs with
  | [] => []
  | (now, c) :: rest =>
      (RateLimit limit now clients c).2
      :: answers limit rest (RateLimit limit now clients c).1.1
  end.

End WithRuntime.

(** A request from [remote] that names [forwarded] in X-Forwarded-For. *)
Definition forwardedRequest (remote forwarded : string) : Http.Request :=
  Http.mkRequest "GET" "/" 0 {[ "X-Forwarded-For" := forwarded ]} ∅ ∅ ∅ remote "".

Definition forwardedContext (remote forwarded : string) : Context :=
  (NewContext (Http.NewResponseWriter Http.NotHijacker)
     (forwardedRequest remote forwarded) None Session.NewSessionManager "s1").1.

End RateLimitMore.

(* ===================================================================== *)
(** * smallapi.go: the other registrations and the route groups          *)
(* ===================================================================== *)

Module AppMore.
Import Ctx App.

Section WithEnv.
Context {rt : GoRuntime} {Env : Type}.

Definition Put (a : App Env) (path : string) (handler : option (HandlerFunc Env))
  : App Env := addRoute a "PUT" path handler.

Definition Delete (a : App Env) (path : string) (handler : option (HandlerFunc Env))
  : App Env := addRoute a "DELETE" path handler.

Definition Patch (a : App Env) (path : string) (handler : option (HandlerFunc Env))
  : App Env := addRoute a "PATCH" path handler.

Definition Options (a : App Env) (path : string) (handler : option (HandlerFunc Env))
  : App Env := addRoute a "OPTIONS" path handler.

(** [Route]: one [Add] for each method, in the order of the slice. *)
Definition Route (a : App Env) (methods : list string) (path : string)
    (handler : option (HandlerFunc Env)) : App Env :=
  foldl (fun a method => addRoute a method path handler) a methods.

(** [RouteGroup]: [app] is the application the group points to, as the
    calls on the group have left it. *)
Record RouteGroup := mkRouteGroup {
  app : App Env;
  prefix : string
}.

Definition Group (a : App Env) (prefix : string) : RouteGroup :=
  mkRouteGroup a prefix.

Definition GroupGet (g : RouteGroup) (path : string)
    (handler : option (HandlerFunc Env)) : RouteGroup :=
  mkRouteGroup (Get (app g) (prefix g +:+ path) handler) (prefix g).

Definition GroupPost (g : RouteGroup) (path : string)
    (handler : option (HandlerFunc Env)) : RouteGroup :=
  mkRouteGroup (Post (app g) (prefix g +:+ path) handler) (prefix g).

Definition GroupPut (g : RouteGroup) (path : string)
    (handler : option (HandlerFunc Env)) : RouteGroup :=
  mkRouteGroup (Put (app g) (prefix g +:+ path) handler) (prefix g).

Definition GroupDelete (g : RouteGroup) (path : string)
    (handler : option (HandlerFunc Env)) : RouteGroup :=
  mkRouteGroup (Delete (app g) (prefix g +:+ path) handler) (prefix g).

(** [RouteGroup.Use]: the middleware goes to the application. *)
Definition GroupUse (g : RouteGroup) (m : MiddlewareFunc Env) : RouteGroup :=
  mkRouteGroup (Use (app g) m) (prefix g).

(** A middleware that is a function of the context alone. *)
Definition ofContext (f : Context -> Context * bool) : MiddlewareFunc Env :=
  fun s => Returned (f (ctx s)).2 (setCtx s (f (ctx s)).1).

(** A handler that answers with a status and a text:
    [c.Status(code).String(text)]. *)
Definition respond (code : Z) (text : string) : HandlerFunc Env :=
  fun s => Returned tt (setCtx s (String (Status (ctx s) code) text)).

End WithEnv.
Global Arguments RouteGroup : clear implicits.

(** An application with one route outside a group and a group whose
    middleware refuses every request. *)
Definition deny : MiddlewareFunc unit := fun s => Returned false s.

Definition groupedApp : App unit :=
  app (GroupUse
         (GroupGet (Group (Get (New (fun _ _ => ("", true))) "/" (Some PipelineSpec.hello))
                      "/admin")
            "/users" (Some PipelineSpec.hello))
         deny).

End AppMore.

(* ===================================================================== *)
(** * middleware.go: the other middleware                                *)
(* ===================================================================== *)

Module GoStringsMore.



(** [strings.Join] for a separator of any length. *)
Fixpoint JoinS (elems : list string) (sep : string) : string :=
  match elems with
  | [] => ""
  | [x] => x
  | x :: rest => x +:+ sep +:+ JoinS rest sep
  end.

End GoStringsMore.

Module MiddlewareMore.
Import Http Ctx GoStringsMore.

Record CORSConfig := mkCORSConfig {
  AllowOrigins : list string;
  AllowMethods : list string;
  AllowHeaders : list string
}.

Section WithRuntime.
Context {rt : GoRuntime}.

(** The loop over [config.AllowOrigins], with its [break]. *)
Fixpoint originAllowed (allowOrigins : list string) (origin : string) : bool :=
  match allowOrigins with
  | [] => false
  | allowedOrigin :: rest =>
      if String.eqb allowedOrigin "*" || String.eqb allowedOrigin origin
      then true
      else originAllowed rest origin
  end.

(** The closure [CORSWithConfig(config)] returns: the context after the
    call and the answer. *)
Definition CORSWithConfig (config : CORSConfig) (c : Context) : Context * bool :=
  let origin := Header_Get (Request c) "Origin" in
  let allowed := originAllowed (AllowOrigins config) origin in
  let c := if allowed then Header c "Access-Control-Allow-Origin" origin else c in
  let c := Header c "Access-Control-Allow-Methods" (JoinS (AllowMethods config) ", ") in
  let c := Header c "Access-Control-Allow-Headers" (JoinS (AllowHeaders config) ", ") in
  let c := Header c "Access-Control-Allow-Credentials" "true" in
  if String.eqb (CtxMore.Method c) "OPTIONS"
  then (Status c 204, false)
  else (c, true).

Definition CORS : Context -> Context * bool :=
  CORSWithConfig
    (mkCORSConfig ["*"] ["GET"; "POST"; "PUT"; "DELETE"; "OPTIONS"]
       ["Content-Type"; "Authorization"]).

Definition Secure (c : Context) : Context * bool :=
  let c := Header c "X-Content-Type-Options" "nosniff" in
  let c := Header c "X-Frame-Options" "DENY" in
  let c := Header c "X-XSS-Protection" "1; mode=block" in
  let c := Header c "Strict-Transport-Security" "max-age=31536000" in
  let c := Header c "Content-Security-Policy" "default-src 'self'" in
  (c, true).


(** [RequireAuth]; the session of the context is read in the table
    [sm]. *)
Definition RequireAuth (sm : Session.SessionManager) (c : Context) : Context * bool :=
  let userID := Session.Get (Session.deref sm (CtxMore.Session c)) "user_id" in
  match userID with
  | ANil =>
      ((JSON (Status c 401) (AMapSS [("error", "Authentication required")])).1.1,
       false)
  | _ => (Set_ c "user_id" userID, true)
  end.

(** [Logger]: the deferred closure logs when the middleware returns;
    [duration] is [time.Since(start)] as [%v] prints it. *)
Definition Logger {Env : Type} (duration : string) : App.MiddlewareFunc Env :=
  fun s =>
    App.Returned true
      (App.Printf s (CtxMore.Method (App.ctx s) +:+ " " +:+ CtxMore.Path (App.ctx s)
                     +:+ " " +:+ Itoa (statusCode (App.ctx s)) +:+ " " +:+ duration)).

End WithRuntime.

End MiddlewareMore.

Module ExampleMore.

(** A GET request for [/] with one header. *)
Definition headerRequest (name value : string) : Http.Request :=
  Http.mkRequest "GET" "/" 0 {[ name := value ]} ∅ ∅ ∅ "10.0.0.1:4000" "".

(** Its context, with the session [s1] new in the table. *)
Definition headerContext (name value : string) : Ctx.Context :=
  (Ctx.NewContext (Http.NewResponseWriter Http.NotHijacker) (headerRequest name value)
     None Session.NewSessionManager "s1").1.

(** An application that logs, with one route whose handler answers
    500. *)
Definition loggedApp : App.App unit :=
  App.Get (App.Use (App.New (fun _ _ => ("", true))) (MiddlewareMore.Logger "1ms"))
    "/" (Some (AppMore.respond 500 "oops")).

(** The session table after that request. *)
Definition headerSessions (name value : string) : Session.SessionManager :=
  (Ctx.NewContext (Http.NewResponseWriter Http.NotHijacker) (headerRequest name value)
     None Session.NewSessionManager "s1").2.

End ExampleMore.

(* ===================================================================== *)
(** * auth.go: passwords, users and login sessions                       *)
(* ===================================================================== *)

(** The conversion [string(b)]. *)
Fixpoint string_of_bytes (bs : list Z) : string :=
  match bs with
  | [] => EmptyString
  | b :: rest => String (ascii_of_byte b) (string_of_bytes rest)
  end.

(** [encoding/base64]: [StdEncoding.DecodeString]. *)
Module Base64Decode.

(** The decode map of the standard alphabet. *)
Fixpoint indexOf (a : ascii) (s : string) (i : Z) : option Z :=
  match s with
  | EmptyString => None
  | String x s' => if Ascii.eqb a x then Some i else indexOf a s' (i + 1)
  end.

Definition decodeMap (a : ascii) : option Z := indexOf a Base64.alphabet 0.

Definition isNewline (a : ascii) : bool :=
  Ascii.eqb a (ascii_of_nat 10) || Ascii.eqb a (ascii_of_nat 13).

Fixpoint skipNewlines (s : string) : string :=
  match s with
  | EmptyString => EmptyString
  | String a s' => if isNewline a then skipNewlines s' else s
  end.

(** The 24 bits of a quantum of four digits. *)
Definition val (d0 d1 d2 d3 : Z) : Z :=
  Z.lor (Z.lor (Z.lor (Z.shiftl d0 18) (Z.shiftl d1 12)) (Z.shiftl d2 6)) d3.

(** The decoder, quantum by quantum; [dbuf] holds the digits of the
    quantum read so far. Line ends are skipped; padding must fill the
    last quantum and end the input; [None] is a [CorruptInputError]. *)
Fixpoint decode (src : string) (dbuf : list Z) : option (list Z) :=
  match src with
  | EmptyString =>
      match dbuf with
      | [] => Some []
      | _ => None
      end
  | String c rest =>
      match decodeMap c with
      | Some out =>
          match dbuf with
          | [d0; d1; d2] =>
              let v := val d0 d1 d2 out in
              match decode rest [] with
              | Some more =>
                  Some (byte (Z.shiftr v 16) :: byte (Z.shiftr v 8) :: byte v :: more)
              | None => None
              end
          | _ => decode rest (dbuf ++ [out])
          end
      | None =>
          if isNewline c then decode rest dbuf
          else if negb (Ascii.eqb c "=") then None
          else
            match dbuf with
            | [d0; d1] =>
                match skipNewlines rest with
                | EmptyString => None
                | String c' rest' =>
                    if negb (Ascii.eqb c' "=") then None
                    else
                      match skipNewlines rest' with
                      | EmptyString => Some [byte (Z.shiftr (val d0 d1 0 0) 16)]
                      | _ => None
                      end
                end
            | [d0; d1; d2] =>
                match skipNewlines rest with
                | EmptyString =>
                    let v := val d0 d1 d2 0 in
                    Some [byte (Z.shiftr v 16); byte (Z.shiftr v 8)]
                | _ => None
                end
            | _ => None
            end
      end
  end.

Definition DecodeString (s : string) : option (list Z) := decode s [].

End Base64Decode.

Module Auth.

Record User := mkUser {
  ID : string;
  Username : string;
  Email : string;
  Password : string;
  Data : gmap string Any;
  Created : Z
}.

(** A [*User]: the place of the user object in the heap. *)
Definition loc : Type := nat.

(** [AuthManager]: the two maps hold pointers, so a user reached through
    a session and through [users] is one object, in [heap]. *)
Record AuthManager := mkAuthManager {
  heap : gmap loc User;
  users : gmap string loc;
  sessions : gmap string loc
}.

Definition NewAuthManager : AuthManager := mkAuthManager ∅ ∅ ∅.

(** The object a pointer of the maps points to. *)
Definition load (am : AuthManager) (l : loc) : User :=
  default (mkUser "" "" "" "" ∅ 0) (heap am !! l).

Definition hashPassword (password : string) : string :=
  Base64.EncodeToString (bytes_of_string password).

Definition verifyPassword (hash password : string) : bool :=
  match Base64Decode.DecodeString hash with
  | None => false
  | Some decoded => String.eqb (string_of_bytes decoded) password
  end.

(** What the two type assertions of [UpdateUser] find in [updates]:
    the string under [email] and the map under [data], if there. *)
Record Updates := mkUpdates {
  email : option string;
  data : option (gmap string Any)
}.

Section WithRange.
(** The order in which a [range] loop visits a map of pointers. *)
Variable range : gmap string loc -> list (string * loc).

(** The loop of [Register]: some user has the name or the address. *)
Fixpoint taken (am : AuthManager) (visit : list (string * loc))
    (username email : string) : bool :=
  match visit with
  | [] => false
  | (_, l) :: rest =>
      if String.eqb (Username (load am l)) username
         || String.eqb (Email (load am l)) email
      then true
      else taken am rest username email
  end.

(** [Register]; [id] is what [generateID] returns, an id or an error,
    and [now] the time. The result is the manager after the call, the
    new user and the error. *)
Definition Register (am : AuthManager) (username email password : string)
    (id : string + string) (now : Z)
  : AuthManager * option loc * option string :=
  if taken am (range (users am)) username email
  then (am, None, Some "user already exists")
  else
    match id with
    | inr err => (am, None, Some err)
    | inl id =>
        let hashedPassword := hashPassword password in
        let user := mkUser id username email hashedPassword ∅ now in
        let l := fresh (dom (heap am)) in
        (mkAuthManager (<[l := user]> (heap am)) (<[id := l]> (users am)) (sessions am),
         Some l, None)
    end.

(** The loop of [Login], with its [break]. *)
Fixpoint find (am : AuthManager) (visit : list (string * loc)) (username : string)
  : option loc :=
  match visit with
  | [] => None
  | (_, u) :: rest =>
      if String.eqb (Username (load am u)) username
         || String.eqb (Email (load am u)) username
      then Some u
      else find am rest username
  end.

(** [Login]; [token] is what [generateID] returns. The result is the
    manager after the call, the token, the user and the error. *)
Definition Login (am : AuthManager) (username password : string)
    (token : string + string)
  : AuthManager * string * option loc * option string :=
  match find am (range (users am)) username with
  | None => (am, "", None, Some "user not found")
  | Some user =>
      if negb (verifyPassword (Password (load am user)) password)
      then (am, "", None, Some "invalid password")
      else
        match token with
        | inr err => (am, "", None, Some err)
        | inl token =>
            (mkAuthManager (heap am) (users am) (<[token := user]> (sessions am)),
             token, Some user, None)
        end
  end.

Definition Logout (am : AuthManager) (token : string) : AuthManager :=
  mkAuthManager (heap am) (users am) (delete token (sessions am)).

Definition GetUser (am : AuthManager) (token : string) : option loc :=
  sessions am !! token.

Definition ChangePassword (am : AuthManager) (userID oldPassword newPassword : string)
  : AuthManager * option string :=
  match users am !! userID with
  | None => (am, Some "user not found")
  | Some user =>
      if negb (verifyPassword (Password (load am user)) oldPassword)
      then (am, Some "invalid old password")
      else
        let u := load am user in
        let u := mkUser (ID u) (Username u) (Email u) (hashPassword newPassword)
                   (Data u) (Created u) in
        (mkAuthManager (<[user := u]> (heap am)) (users am) (sessions am), None)
  end.

Definition UpdateUser (am : AuthManager) (userID : string) (updates : Updates)
  : AuthManager * option string :=
  match users am !! userID with
  | None => (am, Some "user not found")
  | Some user =>
      let u := load am user in
      let u :=
        match email updates with
        | Some email => mkUser (ID u) (Username u) email (Password u) (Data u) (Created u)
        | None => u
        end in
      let u :=
        match data updates with
        | Some data =>
            mkUser (ID u) (Username u) (Email u) (Password u) (data ∪ Data u) (Created u)
        | None => u
        end in
      (mkAuthManager (<[user := u]> (heap am)) (users am) (sessions am), None)
  end.

Definition DeleteUser (am : AuthManager) (userID : string)
  : AuthManager * option string :=
  match users am !! userID with
  | None => (am, Some "user not found")
  | Some _ =>
      (mkAuthManager (heap am) (delete userID (users am))
         (filter (fun kv => ID (load am kv.2) <> userID) (sessions am)),
       None)
  end.

Definition ListUsers (am : AuthManager) : list loc := (range (users am)).*2.

(** The managers a program can have: a new one, and what the methods
    make of one. *)
Inductive reachable : AuthManager -> Prop :=
| reach_New : reachable NewAuthManager
| reach_Register am username email password id now :
    reachable am -> reachable (Register am username email password id now).1.1
| reach_Login am username password token :
    reachable am -> reachable (Login am username password token).1.1.1
| reach_Logout am token :
    reachable am -> reachable (Logout am token)
| reach_ChangePassword am userID oldPassword newPassword :
    reachable am -> reachable (ChangePassword am userID oldPassword newPassword).1
| reach_UpdateUser am userID updates :
    reachable am -> reachable (UpdateUser am userID updates).1
| reach_DeleteUser am userID :
    reachable am -> reachable (DeleteUser am userID).1.

End WithRange.

(** Every pointer of the maps has its object, and the object under an
    id has that id. *)
Definition wellformed (am : AuthManager) : Prop :=
  (forall id l, users am !! id = Some l ->
     exists u, heap am !! l = Some u /\ ID u = id)
  /\ (forall token l, sessions am !! token = Some l -> is_Some (heap am !! l)).

(** No two users of the manager have one name. *)
Definition usernames_unique (am : AuthManager) : Prop :=
  forall id1 id2 l1 l2,
    users am !! id1 = Some l1 -> users am !! id2 = Some l2 ->
    Username (load am l1) = Username (load am l2) -> id1 = id2.

(** A visiting order: the entries of the map, each once. *)
Definition visits (range : gmap string loc -> list (string * loc)) : Prop :=
  forall m, range m ≡ₚ map_to_list m.

(** Two accounts, then the second takes the first one's address. *)
Definition twoUsers (range : gmap string loc -> list (string * loc)) : AuthManager :=
  (UpdateUser
     (Register range
        (Register range NewAuthManager "ann" "ann@example.org" "pw1"
           (inl "id1") 0).1.1
        "bob" "bob@example.org" "pw2" (inl "id2") 1).1.1
     "id2" (mkUpdates (Some "ann@example.org") None)).1.

(** A visiting order that starts with the entry of [first], when the
    map has one. *)
Definition rangeFirst (first : string) (m : gmap string loc) : list (string * loc) :=
  match m !! first with
  | Some l => (first, l) :: map_to_list (delete first m)
  | None => map_to_list m
  end.

(** An account whose name is the address of an earlier one. *)
Definition crossed : AuthManager :=
  (Register map_to_list
     (Register map_to_list NewAuthManager "ann" "ann@example.org" "pw1"
        (inl "id1") 0).1.1
     "ann@example.org" "bob@example.org" "pw2" (inl "id2") 1).1.1.

End Auth.

(* ===================================================================== *)
(** * validation.go: the validators                                      *)
(* ===================================================================== *)

(** [regexp]: the patterns of the validators that are made of ASCII
    classes, matched from [^] to [$]. A byte outside ASCII is in none of
    the classes, as the rune it belongs to is in none. *)
Module Regexp.

Inductive re :=
| Fail
| Eps
| Class (p : ascii -> bool)
| Cat (a b : re)
| Alt (a b : re)
| Star (a : re).

Fixpoint nullable (r : re) : bool :=
  match r with
  | Fail => false
  | Eps => true
  | Class _ => false
  | Cat a b => nullable a && nullable b
  | Alt a b => nullable a || nullable b
  | Star _ => true
  end.

(** What is left of [r] after the byte [c]. *)
Fixpoint deriv (c : ascii) (r : re) : re :=
  match r with
  | Fail => Fail
  | Eps => Fail
  | Class p => if p c then Eps else Fail
  | Cat a b =>
      if nullable a then Alt (Cat (deriv c a) b) (deriv c b)
      else Cat (deriv c a) b
  | Alt a b => Alt (deriv c a) (deriv c b)
  | Star a => Cat (deriv c a) (Star a)
  end.

(** [MatchString] for a pattern between [^] and [$]. *)
Fixpoint MatchString (r : re) (s : string) : bool :=
  match s with
  | EmptyString => nullable r
  | String c s' => MatchString (deriv c r) s'
  end.

(** [r+] and [r{2,}]. *)
Definition Plus (r : re) : re := Cat r (Star r).
Definition TwoOrMore (r : re) : re := Cat r (Cat r (Star r)).

Definition between (lo hi : ascii) (c : ascii) : bool :=
  (nat_of_ascii lo <=? nat_of_ascii c)%nat && (nat_of_ascii c <=? nat_of_ascii hi)%nat.

Definition digit (c : ascii) : bool := between "0" "9" c.
Definition letter (c : ascii) : bool := between "a" "z" c || between "A" "Z" c.
Definition alnum (c : ascii) : bool := letter c || digit c.

(** [[a-zA-Z0-9._%+-]] and [[a-zA-Z0-9.-]]. *)
Definition localChar (c : ascii) : bool :=
  alnum c || Ascii.eqb c "." || Ascii.eqb c "_" || Ascii.eqb c "%"
  || Ascii.eqb c "+" || Ascii.eqb c "-".
Definition domainChar (c : ascii) : bool :=
  alnum c || Ascii.eqb c "." || Ascii.eqb c "-".

(** The four patterns. *)
Definition emailRegex : re :=
  Cat (Plus (Class localChar))
    (Cat (Class (Ascii.eqb "@"))
       (Cat (Plus (Class domainChar))
          (Cat (Class (Ascii.eqb ".")) (TwoOrMore (Class letter))))).
Definition numericRegex : re := Plus (Class digit).
Definition alphaRegex : re := Plus (Class letter).
Definition alphaNumRegex : re := Plus (Class alnum).

(** The strings of a pattern. *)
Inductive lang : re -> string -> Prop :=
| lang_Eps : lang Eps ""
| lang_Class p c : p c = true -> lang (Class p) (String c "")
| lang_Cat a b s t : lang a s -> lang b t -> lang (Cat a b) (s +:+ t)
| lang_Alt_l a b s : lang a s -> lang (Alt a b) s
| lang_Alt_r a b s : lang b s -> lang (Alt a b) s
| lang_Star_nil a : lang (Star a) ""
| lang_Star_cons a s t : lang a s -> lang (Star a) t -> lang (Star a) (s +:+ t).

(** Every byte of the string is in the class. *)
Fixpoint all (p : ascii -> bool) (s : string) : bool :=
  match s with
  | EmptyString => true
  | String c s' => p c && all p s'
  end.

End Regexp.

Module Validation.
Import GoStrings GoStringsMore.

(** What the validators read of a field's [reflect.Value]: its kind and,
    by kind, the string, the integer, the length or whether it is nil.
    A float is given by its comparisons with [float64(n)]; [VOther] is
    any kind the validators have no case for (bool, the unsigned
    integers, struct, func, chan and so on). *)
Inductive Value :=
| VString (s : string)
| VInt (i : Z)
| VFloat (below above : Z -> bool)
| VSlice (len : Z)
| VArray (len : Z)
| VMap (len : Z)
| VPtr (isNil : bool)
| VInterface (isNil : bool)
| VOther.

Record ValidationRule := mkRule {
  Type_ : string;
  Value_ : string;
  Message : string
}.

(** What the model takes from the libraries: [regexp.Compile] with the
    [MatchString] of its result, the URL pattern (its [.] and its
    negated classes go by runes), and the Unicode part of
    [strings.TrimSpace]. *)
Class ValidationLib := {
  regexp_Compile : string -> option (string -> bool);
  urlRegex_MatchString : string -> bool;
  TrimFunc_IsSpace : string -> string;
  TrimRightFunc_IsSpace : string -> string
}.

Definition asciiSpace (c : ascii) : bool :=
  let n := nat_of_ascii c in
  (n =? 9)%nat || (n =? 10)%nat || (n =? 11)%nat || (n =? 12)%nat
  || (n =? 13)%nat || (n =? 32)%nat.

(** [c >= utf8.RuneSelf]. *)
Definition nonASCII (c : ascii) : bool := (128 <=? nat_of_ascii c)%nat.

Fixpoint rev (s acc : string) : string :=
  match s with
  | EmptyString => acc
  | String c s' => rev s' (String c acc)
  end.

Section WithLib.
Context {lib : ValidationLib}.

(** The second loop of [TrimSpace], on the string read from its end. *)
Fixpoint trimEnd (reversed : string) : string :=
  match reversed with
  | EmptyString => EmptyString
  | String c rest =>
      if nonASCII c then TrimRightFunc_IsSpace (rev reversed "")
      else if asciiSpace c then trimEnd rest
      else rev reversed ""
  end.

(** [strings.TrimSpace]. *)
Fixpoint TrimSpace (s : string) : string :=
  match s with
  | EmptyString => EmptyString
  | String c s' =>
      if nonASCII c then TrimFunc_IsSpace s
      else if asciiSpace c then TrimSpace s'
      else trimEnd (rev s "")
  end.

(** [strings.SplitN(s, sep, 2)] for a one-byte separator. *)
Fixpoint SplitN2 (s : string) (sep : ascii) : list string :=
  match s with
  | EmptyString => [EmptyString]
  | String c s' =>
      if Ascii.eqb c sep then [EmptyString; s']
      else match SplitN2 s' sep with
           | cur :: rest => String c cur :: rest
           | [] => [String c EmptyString]
           end
  end.

(** The loop of [parseValidationTag] over the parts. *)
Fixpoint parseParts (parts : list string) : list ValidationRule :=
  match parts with
  | [] => []
  | part :: rest =>
      let part := TrimSpace part in
      if String.eqb part "" then parseParts rest
      else
        let ruleParts := SplitN2 part "=" in
        let ruleType := default "" (head ruleParts) in
        let ruleValue :=
          match ruleParts with
          | _ :: value :: _ => value
          | _ => ""
          end in
        mkRule ruleType ruleValue "" :: parseParts rest
  end.

Definition parseValidationTag (tag : string) : list ValidationRule :=
  parseParts (Split tag ",").

(** The validators return the text of the error, [None] for [nil]. *)
Definition validateRequired (field : Value) (fieldName : string) : option string :=
  match field with
  | VString s =>
      if String.eqb s "" then Some (fieldName +:+ " is required") else None
  | VSlice len | VArray len | VMap len =>
      if len =? 0 then Some (fieldName +:+ " is required") else None
  | VPtr isNil | VInterface isNil =>
      if isNil then Some (fieldName +:+ " is required") else None
  | _ => None
  end.

Definition validateMin (field : Value) (fieldName minStr : string) : option string :=
  let '(min, err) := GoStrconv.Atoi minStr in
  if err then Some ("invalid min value: " +:+ minStr)
  else
    match field with
    | VString s =>
        if Z.of_nat (String.length s) <? min
        then Some (fieldName +:+ " must be at least " +:+ Itoa min +:+ " characters")
        else None
    | VInt i =>
        if i <? min
        then Some (fieldName +:+ " must be at least " +:+ Itoa min)
        else None
    | VFloat below _ =>
        if below min
        then Some (fieldName +:+ " must be at least " +:+ Itoa min)
        else None
    | VSlice len | VArray len =>
        if len <? min
        then Some (fieldName +:+ " must have at least " +:+ Itoa min +:+ " items")
        else None
    | _ => None
    end.

Definition validateMax (field : Value) (fieldName maxStr : string) : option string :=
  let '(max, err) := GoStrconv.Atoi maxStr in
  if err then Some ("invalid max value: " +:+ maxStr)
  else
    match field with
    | VString s =>
        if max <? Z.of_nat (String.length s)
        then Some (fieldName +:+ " must be at most " +:+ Itoa max +:+ " characters")
        else None
    | VInt i =>
        if max <? i
        then Some (fieldName +:+ " must be at most " +:+ Itoa max)
        else None
    | VFloat _ above =>
        if above max
        then Some (fieldName +:+ " must be at most " +:+ Itoa max)
        else None
    | VSlice len | VArray len =>
        if max <? len
        then Some (fieldName +:+ " must have at most " +:+ Itoa max +:+ " items")
        else None
    | _ => None
    end.

Definition validateEmail (field : Value) (fieldName : string) : option string :=
  match field with
  | VString email =>
      if negb (Regexp.MatchString Regexp.emailRegex email)
      then Some (fieldName +:+ " must be a valid email address")
      else None
  | _ => Some (fieldName +:+ " must be a string for email validation")
  end.

Definition validateURL (field : Value) (fieldName : string) : option string :=
  match field with
  | VString url =>
      if negb (urlRegex_MatchString url)
      then Some (fieldName +:+ " must be a valid URL")
      else None
  | _ => Some (fieldName +:+ " must be a string for URL validation")
  end.

Definition validateNumeric (field : Value) (fieldName : string) : option string :=
  match field with
  | VString value =>
      if negb (Regexp.MatchString Regexp.numericRegex value)
      then Some (fieldName +:+ " must contain only numbers")
      else None
  | _ => Some (fieldName +:+ " must be a string for numeric validation")
  end.

Definition validateAlpha (field : Value) (fieldName : string) : option string :=
  match field with
  | VString value =>
      if negb (Regexp.MatchString Regexp.alphaRegex value)
      then Some (fieldName +:+ " must contain only letters")
      else None
  | _ => Some (fieldName +:+ " must be a string for alpha validation")
  end.

Definition validateAlphaNum (field : Value) (fieldName : string) : option string :=
  match field with
  | VString value =>
      if negb (Regexp.MatchString Regexp.alphaNumRegex value)
      then Some (fieldName +:+ " must contain only letters and numbers")
      else None
  | _ => Some (fieldName +:+ " must be a string for alphanumeric validation")
  end.

Definition validateRegex (field : Value) (fieldName pattern : string) : option string :=
  match field with
  | VString value =>
      match regexp_Compile pattern with
      | None => Some ("invalid regex pattern: " +:+ pattern)
      | Some regex =>
          if negb (regex value)
          then Some (fieldName +:+ " does not match required pattern")
          else None
      end
  | _ => Some (fieldName +:+ " must be a string for regex validation")
  end.

Definition applyValidationRule (field : Value) (fieldName : string)
    (rule : ValidationRule) : option string :=
  if String.eqb (Type_ rule) "required" then validateRequired field fieldName
  else if String.eqb (Type_ rule) "min" then validateMin field fieldName (Value_ rule)
  else if String.eqb (Type_ rule) "max" then validateMax field fieldName (Value_ rule)
  else if String.eqb (Type_ rule) "email" then validateEmail field fieldName
  else if String.eqb (Type_ rule) "url" then validateURL field fieldName
  else if String.eqb (Type_ rule) "numeric" then validateNumeric field fieldName
  else if String.eqb (Type_ rule) "alpha" then validateAlpha field fieldName
  else if String.eqb (Type_ rule) "alphanum" then validateAlphaNum field fieldName
  else if String.eqb (Type_ rule) "regex"
       then validateRegex field fieldName (Value_ rule)
  else Some ("unknown validation rule: " +:+ Type_ rule).

Fixpoint validateField (field : Value) (fieldName : string)
    (rules : list ValidationRule) : option string :=
  match rules with
  | [] => None
  | rule :: rest =>
      match applyValidationRule field fieldName rule with
      | Some err => Some err
      | None => validateField field fieldName rest
      end
  end.

(** A field of the struct: its name, its [validate] tag (empty when it
    has none) and its value. *)
Record Field := mkField {
  fieldName : string;
  fieldTag : string;
  fieldValue : Value
}.

(** What [Validate] is given: a struct, a pointer to a target, a nil
    pointer, or a value of another kind. *)
Inductive Target :=
| TStruct (fields : list Field)
| TPtr (elem : Target)
| TNil
| TOther.

(** The loop of [validateStruct] over the fields, collecting [errs]. *)
Fixpoint fieldErrors (fields : list Field) (errs : list string) : list string :=
  match fields with
  | [] => errs
  | f :: rest =>
      if String.eqb (fieldTag f) "" then fieldErrors rest errs
      else
        let rules := parseValidationTag (fieldTag f) in
        match validateField (fieldValue f) (fieldName f) rules with
        | Some err => fieldErrors rest (errs ++ [err])
        | None => fieldErrors rest errs
        end
  end.

(** The error of one field: that of its first rule that fails, when it
    has a tag. *)
Definition failure (f : Field) : option string :=
  if String.eqb (fieldTag f) "" then None
  else validateField (fieldValue f) (fieldName f) (parseValidationTag (fieldTag f)).

Definition validateStruct (v : Target) : option string :=
  let val :=
    match v with
    | TPtr elem => elem
    | TNil => TOther
    | _ => v
    end in
  match val with
  | TStruct fields =>
      let errs := fieldErrors fields [] in
      if (0 <? length errs)%nat then Some (JoinS errs "; ") else None
  | _ => Some "validation target must be a struct"
  end.

End WithLib.

(** A library for the examples: no pattern compiles, no URL matches,
    and the Unicode trims leave their argument as it is. *)
Definition exampleLib : ValidationLib :=
  Build_ValidationLib (fun _ => None) (fun _ => false) (fun s => s) (fun s => s).

(** The fields of a sign-up form. *)
Definition signup (name email age : string) : list Field :=
  [mkField "Name" "required,min=2" (VString name);
   mkField "Email" "required,email" (VString email);
   mkField "Age" "numeric" (VString age);
   mkField "Note" "" (VString "")].

End Validation.

(** What [strconv.Atoi] is to read, said without a parser: which texts
    are numerals and what number a numeral stands for. *)
Module StrconvSpec.

(** A decimal digit, and its value. *)
Definition isDigit (a : ascii) : bool :=
  (48 <=? nat_of_ascii a)%nat && (nat_of_ascii a <=? 57)%nat.
Definition digitValue (a : ascii) : Z := Z.of_nat (nat_of_ascii a) - 48.

Fixpoint digits (s : string) : bool :=
  match s with
  | EmptyString => true
  | String a rest => isDigit a && digits rest
  end.

(** A numeral: an optional sign and one or more digits. *)
Definition numeral (s : string) : bool :=
  match s with
  | EmptyString => false
  | String a rest =>
      if Ascii.eqb a "+" || Ascii.eqb a "-"
      then negb (String.eqb rest "") && digits rest
      else digits s
  end.

(** The number a run of digits stands for, after the digits that gave
    [acc]. *)
Fixpoint valueFrom (acc : Z) (s : string) : Z :=
  match s with
  | EmptyString => acc
  | String a rest => valueFrom (10 * acc + digitValue a) rest
  end.

Definition value (s : string) : Z :=
  match s with
  | EmptyString => 0
  | String a rest =>
      if Ascii.eqb a "-" then - valueFrom 0 rest
      else if Ascii.eqb a "+" then valueFrom 0 rest
      else valueFrom 0 s
  end.

(** What [Atoi] is to return for [s]. *)
Definition read (s : string) : Z * bool :=
  if numeral s
  then
    if value s <? GoStrconv.minInt then (GoStrconv.minInt, true)
    else if GoStrconv.maxInt <? value s then (GoStrconv.maxInt, true)
    else (value s, false)
  else (0, true).

End StrconvSpec.

(* ===================================================================== *)
(** * Facts about the string functions                                   *)
(* ===================================================================== *)

Module GoStringsFacts.
Import GoStrings.

Lemma append_cons (x : ascii) (a b : string) :
  String x a +:+ b = String x (a +:+ b).
Proof. reflexivity. Qed.

Lemma append_nil (b : string) : "" +:+ b = b.
Proof. reflexivity. Qed.

Lemma append_assoc (a b c : string) : (a +:+ b) +:+ c = a +:+ (b +:+ c).
Proof.
  induction a as [|x a IH]; [reflexivity|].
  now rewrite !append_cons, IH.
Qed.

Lemma append_empty_r (a : string) : a +:+ "" = a.
Proof.
  induction a as [|x a IH]; [reflexivity|].
  now rewrite append_cons, IH.
Qed.


Lemma ascii_eqb_true (a c : ascii) : Ascii.eqb a c = true -> a = c.
Proof. apply Ascii.eqb_eq. Qed.

(** [TrimLeft] removes a run of [c] and leaves no [c] in front. *)
Lemma TrimLeft_spec (c : ascii) (s : string) :
  (exists n, s = Repeat c n +:+ TrimLeft c s) /\ HasPrefix (TrimLeft c s) c = false.
Proof.
  induction s as [|a s [[n Hn] Hp]]; simpl.
  - split; [exists O; reflexivity | reflexivity].
  - destruct (Ascii.eqb a c) eqn:E.
    + apply ascii_eqb_true in E. subst a. split; [|exact Hp].
      exists (S n). simpl. rewrite append_cons. now rewrite <- Hn.
    + split; [exists O; reflexivity | simpl; exact E].
Qed.

(** [TrimRight] removes a run of [c] and leaves no [c] at the end. *)
Lemma TrimRight_spec (c : ascii) (s : string) :
  (exists m, s = TrimRight c s +:+ Repeat c m) /\ HasSuffix (TrimRight c s) c = false.
Proof.
  induction s as [|a s [[m Hm] Hs]]; simpl.
  - split; [exists O; reflexivity | reflexivity].
  - destruct (TrimRight c s) as [|b t] eqn:T.
    + rewrite append_nil in Hm.
      destruct (Ascii.eqb a c) eqn:E.
      * apply ascii_eqb_true in E. subst a. split; [|reflexivity].
        exists (S m). rewrite append_nil. simpl. now rewrite Hm.
      * split; [|simpl; exact E].
        exists m. rewrite append_cons, append_nil. now rewrite <- Hm.
    + split; [|exact Hs].
      exists m. rewrite append_cons. now rewrite <- Hm.
Qed.

(** [TrimRight] does not bring a [c] to the front. *)
Lemma TrimRight_prefix (c : ascii) (s : string) :
  HasPrefix s c = false -> HasPrefix (TrimRight c s) c = false.
Proof.
  destruct s as [|a s]; simpl; [reflexivity|]. intros E.
  destruct (TrimRight c s); [rewrite E|]; simpl; auto.
Qed.

Lemma Trim_spec (s : string) (c : ascii) :
  (exists n m, s = Repeat c n +:+ Trim s c +:+ Repeat c m)
  /\ HasPrefix (Trim s c) c = false /\ HasSuffix (Trim s c) c = false.
Proof.
  unfold Trim.
  destruct (TrimLeft_spec c s) as [[n Hn] Hp].
  destruct (TrimRight_spec c (TrimLeft c s)) as [[m Hm] Hs].
  split; [|split; [now apply TrimRight_prefix | exact Hs]].
  exists n, m. now rewrite <- Hm, <- Hn.
Qed.

Lemma Split_nonempty (s : string) (c : ascii) : Split s c <> [].
Proof.
  destruct s as [|a s]; simpl; [discriminate|].
  destruct (Ascii.eqb a c); [discriminate|].
  destruct (Split s c); discriminate.
Qed.

(** Joining the pieces with the separator gives the string back. *)
Lemma Join_Split (s : string) (c : ascii) : Join (Split s c) c = s.
Proof.
  induction s as [|a s IH]; simpl; [reflexivity|].
  destruct (Ascii.eqb a c) eqn:E.
  - apply ascii_eqb_true in E. subst a.
    pose proof (Split_nonempty s c) as Hne.
    simpl. destruct (Split s c) as [|x rest]; [congruence|].
    now rewrite IH.
  - pose proof (Split_nonempty s c) as Hne.
    destruct (Split s c) as [|x rest]; [congruence|].
    simpl in *. destruct rest; simpl in *; now rewrite <- IH.
Qed.

(** No piece contains the separator. *)
Lemma Split_no_sep (s : string) (c : ascii) (piece : string) :
  piece ∈ Split s c -> Contains piece c = false.
Proof.
  revert piece. induction s as [|a s IH]; simpl; intros piece Hin.
  - apply list_elem_of_singleton in Hin. now subst.
  - destruct (Ascii.eqb a c) eqn:E.
    + apply elem_of_cons in Hin as [->|Hin]; [reflexivity | now apply IH].
    + pose proof (Split_nonempty s c) as Hne.
      destruct (Split s c) as [|x rest]; [congruence|].
      apply elem_of_cons in Hin as [->|Hin].
      * simpl. rewrite E. simpl. apply IH. now left.
      * apply IH. now right.
Qed.

End GoStringsFacts.

(* ===================================================================== *)
(** * The router                                                         *)
(* ===================================================================== *)

Module RouterFacts.
Import GoStrings Router RouterSpec.

Lemma segmentOf_code (piece : string) :
  (if HasPrefix piece ":" then mkSegment true (tail1 piece) ""
   else mkSegment false "" piece) = segmentOf piece.
Proof.
  destruct piece as [|a rest]; [reflexivity|]. simpl.
  destruct (Ascii.eqb a ":") eqn:E.
  - apply Ascii.eqb_eq in E. now subst a.
  - unfold segmentOf.
    destruct a as [[] [] [] [] [] [] [] []]; try reflexivity; discriminate.
Qed.

(** The loop fills the slots from [i] on, one per piece, and leaves the
    others. *)
Lemma compileLoop_fill (segs : list string) :
  forall (pre mid post : list Segment),
    length mid = length segs ->
    compileLoop (length pre) segs (pre ++ mid ++ post)
    = pre ++ map segmentOf segs ++ post.
Proof.
  induction segs as [|piece segs IH]; intros pre mid post Hlen.
  - destruct mid; [reflexivity | discriminate].
  - destruct mid as [|z mid]; [discriminate|]. simpl in Hlen.
    cbn [compileLoop]. rewrite segmentOf_code.
    rewrite insert_app_r_alt by lia. rewrite Nat.sub_diag. cbn [app].
    change (<[0%nat := segmentOf piece]> (z :: mid ++ post))
      with (segmentOf piece :: mid ++ post).
    replace (S (length pre)) with (length (pre ++ [segmentOf piece]))
      by (rewrite length_app; simpl; lia).
    replace (pre ++ segmentOf piece :: mid ++ post)
      with ((pre ++ [segmentOf piece]) ++ mid ++ post)
      by (now rewrite <- app_assoc).
    rewrite IH by lia. now rewrite <- app_assoc.
Qed.

Theorem compilePattern_map (path : string) :
  Segments (compilePattern path) = map segmentOf (pieces path).
Proof.
  unfold compilePattern, pieces. cbn [Segments].
  pose proof (compileLoop_fill (Split (Trim path "/") "/") []
                (replicate (length (Split (Trim path "/") "/")) zeroSegment) []) as H.
  cbn [length app] in H. rewrite !app_nil_r in H. apply H.
  apply length_replicate.
Qed.

End RouterFacts.

(** C5. [compilePattern] trims the slashes at both ends of the template,
    splits the rest on the slash, and gives one segment per piece, in
    order: a piece that starts with a colon gives a parameter segment named
    by what follows the colon, any other piece a literal segment holding the
    piece; the template of the root gives one empty literal segment. *)
Theorem compilePattern_segments :
  forall path : string,
    let trimmed := GoStrings.Trim path "/" in
    let pieces := GoStrings.Split trimmed "/" in
    ((exists n m, path = GoStrings.Repeat "/" n +:+ trimmed +:+ GoStrings.Repeat "/" m)
     /\ GoStrings.HasPrefix trimmed "/" = false
     /\ GoStrings.HasSuffix trimmed "/" = false)
    /\ (GoStrings.Join pieces "/" = trimmed
        /\ forall piece, piece ∈ pieces -> GoStrings.Contains piece "/" = false)
    /\ length (Router.Segments (@Router.compilePattern path)) = length pieces
    /\ (forall i piece,
          pieces !! i = Some piece ->
          exists seg,
            Router.Segments (@Router.compilePattern path) !! i = Some seg
            /\ ((exists name, piece = String ":" name
                              /\ seg = Router.mkSegment true name "")
                \/ (GoStrings.HasPrefix piece ":" = false
                    /\ seg = Router.mkSegment false "" piece)))
    /\ Router.Segments (@Router.compilePattern "/") = [Router.mkSegment false "" ""].
Proof.
  intros path trimmed pieces.
  split; [apply GoStringsFacts.Trim_spec|].
  split; [split; [apply GoStringsFacts.Join_Split
                 | intros piece; apply GoStringsFacts.Split_no_sep]|].
  rewrite RouterFacts.compilePattern_map. fold trimmed. 
  change (RouterSpec.pieces path) with pieces.
  split; [apply length_map|]. split; [|reflexivity].
  intros i piece Hi. exists (RouterSpec.segmentOf piece).
  split; [now rewrite list_lookup_fmap, Hi|].
  rewrite <- RouterFacts.segmentOf_code.
  destruct piece as [|a rest]; [right; split; reflexivity|]. simpl.
  destruct (Ascii.eqb a ":") eqn:E.
  - apply Ascii.eqb_eq in E. subst a. left. now exists rest.
  - right. split; reflexivity.
Qed.

Module MatchFacts.
Import GoStrings Router RouterSpec.

Section WithHandler.
Context {HandlerFunc : Type}.
Implicit Types (rt : Route HandlerFunc) (r : Router HandlerFunc).

Lemma build_from (adds : list (string * string * option HandlerFunc)) :
  forall r,
    routes (foldl (fun r '(m, p, h) => Add r m p h) r adds)
    = routes r ++ map routeOf adds.
Proof.
  induction adds as [|[[m p] h] adds IH]; intros r; simpl.
  - now rewrite app_nil_r.
  - rewrite IH. unfold Add. cbn [routes]. now rewrite <- app_assoc.
Qed.

(** The routes of a built router are its registrations, in order. *)
Lemma build_routes (adds : list (string * string * option HandlerFunc)) :
  routes (build adds) = map routeOf adds.
Proof. unfold build. now rewrite build_from. Qed.

(** The loop of [matchPattern], on the path segments from [i] on. *)
Lemma matchLoop_zip (pathSegments : list string) (segs : list Segment) :
  forall i params,
    (i + length segs = length pathSegments)%nat ->
    matchLoop segs i pathSegments params
    = if literals_ok segs (drop i pathSegments)
      then (Some (bind segs (drop i pathSegments) params), true)
      else (None, false).
Proof.
  induction segs as [|seg segs IH]; intros i params Hlen; [reflexivity|].
  simpl in Hlen.
  destruct (lookup_lt_is_Some_2 pathSegments i) as [p Hp]; [lia|].
  rewrite (drop_S _ _ _ Hp). cbn [matchLoop literals_ok bind].
  rewrite (list_lookup_total_correct _ _ _ Hp).
  destruct (IsParam seg) eqn:Ep; cbn [orb andb].
  - apply IH. lia.
  - destruct (String.eqb (Value seg) p) eqn:Ev; cbn [negb andb]; [|reflexivity].
    apply IH. lia.
Qed.

Lemma matchPattern_zip (pat : RoutePattern) (segs : list string) :
  matchPattern pat segs
  = if Nat.eqb (length (Segments pat)) (length segs) && literals_ok (Segments pat) segs
    then (Some (bind (Segments pat) segs ∅), true)
    else (None, false).
Proof.
  unfold matchPattern.
  destruct (Nat.eqb (length (Segments pat)) (length segs)) eqn:E; [|reflexivity].
  apply Nat.eqb_eq in E. cbn [negb andb].
  rewrite matchLoop_zip by (simpl; lia). reflexivity.
Qed.

Lemma literals_ok_iff (segs : list Segment) :
  forall ps,
    literals_ok segs ps = true <->
    forall i seg s, segs !! i = Some seg -> ps !! i = Some s ->
                    IsParam seg = false -> Value seg = s.
Proof.
  induction segs as [|seg segs IH]; intros ps.
  - split; [intros _ i seg s H; now rewrite lookup_nil in H | reflexivity].
  - destruct ps as [|p ps]; cbn [literals_ok].
    + split; [intros _ i seg' s _ H; now rewrite lookup_nil in H | reflexivity].
    + rewrite andb_true_iff, IH. split.
      * intros [H0 Hrest] [|i] seg' s Hs Hps Hlit; simpl in *.
        -- injection Hs as <-. injection Hps as <-.
           rewrite Hlit in H0. simpl in H0. now apply String.eqb_eq.
        -- eauto.
      * intros H. split.
        -- destruct (IsParam seg) eqn:Ep; [reflexivity|]. simpl.
           apply String.eqb_eq. now apply (H 0%nat seg p).
        -- intros i seg' s Hs Hps. apply (H (S i) seg' s); assumption.
Qed.

(** What [bind] leaves under a name: the value of the last parameter
    segment of that name, or what was there when no segment has it. *)
Lemma bind_lookup (segs : list Segment) :
  forall ps params name value,
    length segs = length ps ->
    bind segs ps params !! name = Some value <->
    (exists i seg,
        segs !! i = Some seg /\ IsParam seg = true /\ Name seg = name
        /\ ps !! i = Some value
        /\ forall j seg', (i < j)%nat -> segs !! j = Some seg' ->
             IsParam seg' = true -> Name seg' <> name)
    \/ ((forall j seg', segs !! j = Some seg' -> IsParam seg' = true ->
                        Name seg' <> name)
        /\ params !! name = Some value).
Proof.
  induction segs as [|seg segs IH]; intros ps params name value Hlen.
  - cbn [bind]. split.
    + intros H. right. split; [|exact H].
      intros j seg' Hj. now rewrite lookup_nil in Hj.
    + intros [(i & seg & Hi & _)|[_ H]]; [now rewrite lookup_nil in Hi | exact H].
  - destruct ps as [|p ps]; [discriminate|]. simpl in Hlen.
    cbn [bind]. rewrite IH by lia. split.
    + intros [(i & seg0 & Hi & Hp & Hn & Hv & Hlast)|[Hnone Hpar]].
      * left. exists (S i), seg0. repeat split; try assumption.
        intros [|j] seg' Hlt Hj; [lia|]. simpl in Hj.
        apply (Hlast j seg'); [lia | exact Hj].
      * destruct (IsParam seg) eqn:Ep.
        -- destruct (decide (Name seg = name)) as [Heq|Hne].
           ++ left. exists 0%nat, seg. subst name.
              rewrite lookup_insert_eq in Hpar.
              injection Hpar as <-.
              repeat split; try assumption; try reflexivity.
              intros [|j] seg' Hlt Hj; [lia|]. simpl in Hj.
                 now apply (Hnone j seg').
           ++ right. rewrite lookup_insert_ne in Hpar by assumption.
              split; [|exact Hpar].
              intros [|j] seg' Hj Hp'; simpl in Hj.
              ** injection Hj as <-. exact Hne.
              ** now apply (Hnone j seg').
        -- right. split; [|exact Hpar].
           intros [|j] seg' Hj Hp'; simpl in Hj.
           ** injection Hj as <-. congruence.
           ** now apply (Hnone j seg').
    + intros [(i & seg0 & Hi & Hp & Hn & Hv & Hlast)|[Hnone Hpar]].
      * destruct i as [|i]; simpl in Hi, Hv.
        -- injection Hi as <-. injection Hv as <-. right. rewrite Hp. split.
           ++ intros j seg' Hj. apply (Hlast (S j) seg'); [lia | exact Hj].
           ++ rewrite Hn. apply lookup_insert_eq.
        -- left. exists i, seg0. repeat split; try assumption.
           intros j seg' Hlt Hj. apply (Hlast (S j) seg'); [lia | exact Hj].
      * right. split.
        -- intros j seg' Hj. apply (Hnone (S j) seg'). exact Hj.
        -- destruct (IsParam seg) eqn:Ep; [|exact Hpar].
           rewrite lookup_insert_ne; [exact Hpar|].
           apply (Hnone 0%nat seg); [reflexivity | exact Ep].
Qed.

Lemma bind_binds_last (pat : RoutePattern) (segs : list string) :
  length (Segments pat) = length segs ->
  binds_last pat segs (bind (Segments pat) segs ∅).
Proof.
  intros Hlen name value. rewrite bind_lookup by exact Hlen. split.
  - intros [H|[_ H]]; [exact H | now rewrite lookup_empty in H].
  - intros H. now left.
Qed.

(** A route is tried as the specification says. *)
Lemma route_step rt (method : string) (segs : list string) :
  (accepts rt method segs
   /\ String.eqb (Method rt) method = true
   /\ exists params, matchPattern (Pattern rt) segs = (Some params, true)
                     /\ binds_last (Pattern rt) segs params)
  \/ (~ accepts rt method segs
      /\ (String.eqb (Method rt) method = false
          \/ matchPattern (Pattern rt) segs = (None, false))).
Proof.
  rewrite matchPattern_zip. unfold accepts.
  destruct (String.eqb (Method rt) method) eqn:Em.
  - apply String.eqb_eq in Em.
    destruct (Nat.eqb (length (Segments (Pattern rt))) (length segs)) eqn:El.
    + apply Nat.eqb_eq in El. cbn [andb].
      destruct (literals_ok (Segments (Pattern rt)) segs) eqn:Eo.
      * left. pose proof (proj1 (literals_ok_iff _ _) Eo) as Hlit.
        split; [auto|]. split; [reflexivity|].
        eexists. split; [reflexivity|]. now apply bind_binds_last.
      * right. split; [|now right].
        intros (_ & _ & H). apply (proj2 (literals_ok_iff _ _)) in H. congruence.
    + apply Nat.eqb_neq in El. right. split; [|now right].
      intros (_ & H & _). contradiction.
  - apply String.eqb_neq in Em. right. split; [|now left].
    intros (H & _). contradiction.
Qed.

(** The loop of [Match] returns the first route that matches. *)
Lemma MatchLoop_first (rs : list (Route HandlerFunc)) (method : string)
    (segs : list string) :
  (exists k rt params,
      rs !! k = Some rt /\ accepts rt method segs
      /\ (forall j rt', (j < k)%nat -> rs !! j = Some rt' ->
                        ~ accepts rt' method segs)
      /\ MatchLoop rs method segs = (Handler rt, Some params)
      /\ binds_last (Pattern rt) segs params)
  \/ ((forall j rt', rs !! j = Some rt' -> ~ accepts rt' method segs)
      /\ MatchLoop rs method segs = (None, None)).
Proof.
  induction rs as [|rt rs IH].
  - right. split; [|reflexivity].
    intros j rt' H. now rewrite lookup_nil in H.
  - cbn [MatchLoop].
    destruct (route_step rt method segs)
      as [(Hacc & Em & params & Hm & Hb)|[Hno Hwhy]].
    + left. exists 0%nat, rt, params. rewrite Em, Hm. cbn [negb].
      split; [reflexivity|]. split; [exact Hacc|].
      split; [intros j rt' Hlt; lia|]. split; [reflexivity | exact Hb].
    + assert (Hskip : (if negb (String.eqb (Method rt) method)
                       then MatchLoop rs method segs
                       else let '(params, matches) := matchPattern (Pattern rt) segs in
                            if matches then (Handler rt, params)
                            else MatchLoop rs method segs)
                      = MatchLoop rs method segs).
      { destruct Hwhy as [Em|Hm]; [now rewrite Em|].
        rewrite Hm. now destruct (negb _). }
      rewrite Hskip.
      destruct IH as [(k & rt0 & params & Hk & Hacc & Hfirst & Hm & Hb)|[Hnone Hm]].
      * left. exists (S k), rt0, params.
        split; [exact Hk|]. split; [exact Hacc|].
        split; [|split; [exact Hm | exact Hb]].
        intros [|j] rt' Hlt Hj; simpl in Hj.
        -- injection Hj as <-. exact Hno.
        -- apply (Hfirst j rt'); [lia | exact Hj].
      * right. split; [|exact Hm].
        intros [|j] rt' Hj; simpl in Hj.
        -- injection Hj as <-. exact Hno.
        -- now apply (Hnone j rt').
Qed.

End WithHandler.

End MatchFacts.

(** C1, as the code has it. For every router built by a sequence of [Add]
    calls and every request, [Match] scans the routes in registration order
    and returns the handler and the bindings of the first route whose
    method equals the request's, whose segment count equals the path's, and
    whose literal segments equal the path's segments at their places; each
    parameter segment binds its name to the path segment at its place, as
    it stands, a later parameter segment of the same name replacing the
    binding of an earlier one. When no route matches, [Match] returns two
    nils. Of two registrations with the same method and path, the first
    wins. *)
Theorem Match_first_registered :
  forall (HandlerFunc : Type)
         (adds : list (string * string * option HandlerFunc))
         (method path : string),
    RouterSpec.Match_returns RouterSpec.binds_last adds method path.
Proof.
  intros HandlerFunc adds method path. unfold RouterSpec.Match_returns.
  unfold Router.Match. rewrite MatchFacts.build_routes.
  fold (RouterSpec.pieces path).
  destruct (MatchFacts.MatchLoop_first (map RouterSpec.routeOf adds) method
              (RouterSpec.pieces path))
    as [(k & rt & params & Hk & Hacc & Hfirst & Hm & Hb)|[Hnone Hm]].
  - left. rewrite list_lookup_fmap in Hk.
    destruct (adds !! k) as [reg|] eqn:Ek; [|discriminate].
    injection Hk as <-. exists k, reg, params.
    assert (Hearlier : forall j reg', (j < k)%nat -> adds !! j = Some reg' ->
                         ~ RouterSpec.accepts (RouterSpec.routeOf reg') method
                             (RouterSpec.pieces path)).
    { intros j reg' Hlt Hj. apply (Hfirst j (RouterSpec.routeOf reg') Hlt).
      now rewrite list_lookup_fmap, Hj. }
    split; [exact Ek|]. split; [exact Hacc|]. split; [exact Hearlier|].
    split; [|split; [exact Hm | exact Hb]].
    intros j reg' Hlt Hj Hsame. apply (Hearlier j reg' Hlt Hj).
    destruct reg' as [[m' p'] h'], reg as [[m p] h]. simpl in Hsame.
    injection Hsame as -> ->. exact Hacc.
  - right. split; [|exact Hm].
    intros j reg' Hj. apply (Hnone j (RouterSpec.routeOf reg')).
    now rewrite list_lookup_fmap, Hj.
Qed.

(** C1 as stated fails on a pattern that uses a parameter name twice: for
    the template [/:id/:id] and the path [/a/b] the bindings hold [b] under
    [id], so the first parameter segment is not bound to [a]. *)
Lemma Match_repeated_name :
  ~ RouterSpec.Match_returns RouterSpec.binds_each
      [("GET", "/:id/:id", Some tt)] "GET" "/a/b".
Proof.
  assert (HM : Router.Match (Router.build [("GET", "/:id/:id", Some tt)]) "GET" "/a/b"
               = (Some tt, Some (<["id" := "b"]> (<["id" := "a"]> ∅)))).
  { reflexivity. }
  unfold RouterSpec.Match_returns. rewrite HM.
  intros [(k & reg & params & Hk & _ & _ & _ & Hret & Hb)|[_ Hret]]; [|discriminate].
  destruct k as [|k]; [|now rewrite lookup_cons, lookup_nil in Hk].
  injection Hk as <-. injection Hret as <-.
  specialize (Hb 0%nat (Router.mkSegment true "id" "") "a"
                eq_refl eq_refl eq_refl).
  cbn [Router.Name] in Hb. rewrite lookup_insert_eq in Hb. discriminate.
Qed.

(** The router on the requests of the specification's examples: a
    parameter is bound to the segment as it stands, a longer path and a
    method in another case do not match, and of two registrations of one
    method and path the first answers. *)
Example Match_examples :
  let r := Router.build [("GET", "/users/:id", Some 1%nat);
                         ("GET", "/users/:id", Some 2%nat);
                         ("POST", "/users", Some 3%nat)] in
  Router.Match r "GET" "/users/42" = (Some 1%nat, Some {[ "id" := "42" ]})
  /\ Router.Match r "GET" "/users/a%20b/" = (Some 1%nat, Some {[ "id" := "a%20b" ]})
  /\ Router.Match r "GET" "/users/42/edit" = (None, None)
  /\ Router.Match r "get" "/users/42" = (None, None)
  /\ Router.Match r "POST" "users" = (Some 3%nat, Some ∅)
  /\ Router.Match r "GET" "/" = (None, None).
Proof. repeat split. Qed.

(* ===================================================================== *)
(** * The WebSocket layer                                                *)
(* ===================================================================== *)

Module DigestFacts.

(** FIPS 180 test vectors. *)
Example sha1_abc :
  SHA1.Sum (bytes_of_string "abc")
  = [0xa9; 0x99; 0x3e; 0x36; 0x47; 0x06; 0x81; 0x6a; 0xba; 0x3e;
     0x25; 0x71; 0x78; 0x50; 0xc2; 0x6c; 0x9c; 0xd0; 0xd8; 0x9d].
Proof. vm_compute. reflexivity. Qed.

Example sha1_empty :
  SHA1.Sum []
  = [0xda; 0x39; 0xa3; 0xee; 0x5e; 0x6b; 0x4b; 0x0d; 0x32; 0x55;
     0xbf; 0xef; 0x95; 0x60; 0x18; 0x90; 0xaf; 0xd8; 0x07; 0x09].
Proof. vm_compute. reflexivity. Qed.

(** A message of two blocks. *)
Example sha1_two_blocks :
  SHA1.Sum (bytes_of_string "abcdbcdecdefdefgefghfghighijhijkijkljklmklmnlmnomnopnopq")
  = [0x84; 0x98; 0x3e; 0x44; 0x1c; 0x3b; 0xd2; 0x6e; 0xba; 0xae;
     0x4a; 0xa1; 0xf9; 0x51; 0x29; 0xe5; 0xe5; 0x46; 0x70; 0xf1].
Proof. vm_compute. reflexivity. Qed.

(** RFC 4648 test vectors. *)
Example base64_vectors :
  map (fun s => Base64.EncodeToString (bytes_of_string s))
      [""; "f"; "fo"; "foo"; "foob"; "fooba"; "foobar"]
  = [""; "Zg=="; "Zm8="; "Zm9v"; "Zm9vYg=="; "Zm9vYmE="; "Zm9vYmFy"].
Proof. vm_compute. reflexivity. Qed.

Lemma be_bytes_length (n : nat) (x : Z) : length (SHA1.be_bytes n x) = n.
Proof. induction n as [|n IH]; simpl; [reflexivity | now rewrite IH]. Qed.

(** A digest has twenty bytes. *)
Lemma Sum_length (msg : list Z) : length (SHA1.Sum msg) = 20%nat.
Proof. unfold SHA1.Sum. rewrite !length_app, !be_bytes_length. reflexivity. Qed.

End DigestFacts.

(** C7. The accept value of a key is the Base64 encoding of the SHA-1
    digest of the key followed by the GUID
    258EAFA5-E914-47DA-95CA-C5AB0DC85B11; for the key of RFC 6455 it is
    s3pPLMBiTxaQ9kYGzzhZRbK+xOo=. *)
Theorem calculateAcceptKey_rfc6455 :
  (forall key : string,
      WebSocket.calculateAcceptKey key
      = Base64.EncodeToString
          (SHA1.Sum (bytes_of_string (key +:+ "258EAFA5-E914-47DA-95CA-C5AB0DC85B11"))))
  /\ WebSocket.calculateAcceptKey "dGhlIHNhbXBsZSBub25jZQ=="
     = "s3pPLMBiTxaQ9kYGzzhZRbK+xOo=".
Proof.
  split; [intros key; reflexivity|]. vm_compute. reflexivity.
Qed.

Module FrameFacts.
Import WebSocket.

Lemma byte_small (x : Z) : 0 <= x < 256 -> byte x = x.
Proof. intros H. unfold byte. now apply Z.mod_small. Qed.

Lemma low_byte (x : Z) : Z.land x 0xFF = x mod 256.
Proof. change 0xFF with (Z.ones 8). now rewrite Z.land_ones. Qed.

Lemma high_byte (x : Z) : Z.shiftr x 8 = x / 256.
Proof. now rewrite Z.shiftr_div_pow2. Qed.

(** The frame, with the case on the length spelled out. *)
Lemma frameOf_cases (data : list Z) :
  let n := Z.of_nat (length data) in
  frameOf data
  = 0x81 :: (if n <? 126 then [n] else [126; (n / 256) mod 256; n mod 256]) ++ data.
Proof.
  intros n. unfold frameOf. fold n.
  destruct (n <? 126) eqn:E; cbn [app].
  - apply Z.ltb_lt in E. rewrite byte_small by lia. reflexivity.
  - rewrite high_byte, low_byte. unfold byte.
    rewrite Z.mod_mod by lia. reflexivity.
Qed.

End FrameFacts.

(** C9. [WriteMessage] hands the connection one buffer, the frame: its
    first byte is 0x81 (FIN set, opcode text); for a payload of fewer than
    126 bytes the second byte is the length; for one of 126 to 65535 bytes
    the second byte is 126 and the next two are the length, most
    significant byte first; the mask bit of the second byte is clear and
    the payload follows as it is. *)
Theorem WriteMessage_frame :
  forall (ws : WebSocket.Conn) (data : list Z),
    let n := Z.of_nat (length data) in
    WebSocket.WriteMessage ws data = WebSocket.Conn_Write ws (WebSocket.frameOf data)
    /\ (WebSocket.alive ws = true ->
        WebSocket.sent (WebSocket.WriteMessage ws data).1
        = WebSocket.sent ws ++ [WebSocket.frameOf data])
    /\ (exists second rest,
           WebSocket.frameOf data = 0x81 :: second :: rest
           /\ Z.testbit second 7 = false
           /\ exists ext, rest = ext ++ data)
    /\ (n < 126 -> WebSocket.frameOf data = 0x81 :: n :: data)
    /\ (126 <= n < 65536 ->
        exists hi lo,
          WebSocket.frameOf data = 0x81 :: 126 :: hi :: lo :: data
          /\ 0 <= hi < 256 /\ 0 <= lo < 256 /\ 256 * hi + lo = n).
Proof.
  intros ws data n.
  pose proof (FrameFacts.frameOf_cases data) as Hf. cbv zeta in Hf. fold n in Hf.
  split; [reflexivity|]. split.
  { intros Halive. unfold WebSocket.WriteMessage, WebSocket.Conn_Write.
    now rewrite Halive. }
  split.
  { rewrite Hf. destruct (n <? 126) eqn:E.
    - apply Z.ltb_lt in E. exists n, data. split; [reflexivity|]. split.
      + apply Z.testbit_false; [lia|].
        rewrite Z.div_small by (unfold n; lia). reflexivity.
      + now exists [].
    - exists 126, ([(n / 256) mod 256; n mod 256] ++ data).
      split; [reflexivity|]. split; [reflexivity|].
      now exists [(n / 256) mod 256; n mod 256]. }
  split.
  { intros Hlt. rewrite Hf. apply Z.ltb_lt in Hlt. now rewrite Hlt. }
  intros [Hlo Hhi]. rewrite Hf.
  assert (Hge : (n <? 126) = false) by (apply Z.ltb_ge; lia).
  rewrite Hge.
  exists (n / 256), (n mod 256).
  assert (0 <= n / 256 < 256)
    by (split; [apply Z.div_pos; lia | apply Z.div_lt_upper_bound; lia]).
  rewrite (Z.mod_small (n / 256)) by lia.
  split; [reflexivity|]. split; [lia|].
  split; [apply Z.mod_pos_bound; lia|].
  pose proof (Z.div_mod n 256). lia.
Qed.

(* ===================================================================== *)
(** * Sessions                                                           *)
(* ===================================================================== *)

Module SessionFacts.
Import Http Session SessionSpec.

Lemma GetSession_token (sm : SessionManager) (r : Request) (w : ResponseWriter)
    (fresh : string) :
  (GetSession sm r w fresh).2 = token r fresh.
Proof.
  unfold GetSession, token.
  destruct (Cookies r !! "session_id") as [value|];
    [destruct (String.eqb value "")|];
    now destruct (sessions sm !! _).
Qed.

(** The table after [GetSession]: the token's entry is kept when there is
    one and is a new empty session otherwise; nothing else changes. *)
Lemma GetSession_table (sm : SessionManager) (r : Request) (w : ResponseWriter)
    (fresh : string) :
  sessions (GetSession sm r w fresh).1.1
  = match sessions sm !! token r fresh with
    | Some _ => sessions sm
    | None => <[token r fresh := mkSession (token r fresh) ∅ (smMaxAge sm)]> (sessions sm)
    end.
Proof.
  unfold GetSession, token.
  destruct (Cookies r !! "session_id") as [value|];
    [destruct (String.eqb value "")|];
    now destruct (sessions sm !! _).
Qed.

Lemma deref_through (f : Session -> Session) (sm : SessionManager) (sid : string) :
  is_Some (sessions sm !! sid) ->
  deref (through f sm sid) sid = f (deref sm sid).
Proof.
  intros [s Hs]. unfold deref, through. cbn [sessions smMaxAge].
  rewrite lookup_alter_eq, Hs. reflexivity.
Qed.

End SessionFacts.

(** C6. [Set] then [Get] of a key on one session gives the value set, on
    the session itself and through the table from one request to the next
    that carries the same token; [GetSession] with a token the table does
    not hold (generated because the cookie is absent or empty, or carried
    by the cookie) creates an empty session, on which [Get] gives [nil]
    for every key. *)
Theorem session_round_trip :
  forall (sm : Session.SessionManager) (r : Http.Request) (w : Http.ResponseWriter)
         (fresh : string),
    let sm1 := (Session.GetSession sm r w fresh).1.1 in
    let sid := (Session.GetSession sm r w fresh).2 in
    (forall (s : Session.Session) (key : string) (value : Any),
        Session.Get (Session.Set_ s key value) key = value)
    /\ sid = SessionSpec.token r fresh
    /\ (forall (key : string) (value : Any),
          let sm2 := Session.through (fun s => Session.Set_ s key value) sm1 sid in
          Session.Get (Session.deref sm2 sid) key = value
          /\ forall (r' : Http.Request) (w' : Http.ResponseWriter) (fresh' : string),
               Http.Cookies r' !! "session_id" = Some sid -> sid <> "" ->
               Session.GetSession sm2 r' w' fresh' = (sm2, w', sid))
    /\ (Session.sessions sm !! sid = None ->
        Session.data (Session.deref sm1 sid) = ∅
        /\ forall key : string, Session.Get (Session.deref sm1 sid) key = ANil).
Proof.
  intros sm r w fresh sm1 sid.
  assert (Hsid : sid = SessionSpec.token r fresh)
    by apply SessionFacts.GetSession_token.
  assert (Htab : is_Some (Session.sessions sm1 !! sid)).
  { unfold sm1. rewrite SessionFacts.GetSession_table, Hsid.
    destruct (Session.sessions sm !! SessionSpec.token r fresh) eqn:E.
    - rewrite E. eauto.
    - rewrite lookup_insert_eq. eauto. }
  split.
  { intros s key value. unfold Session.Get, Session.Set_. cbn [Session.data].
    now rewrite lookup_insert_eq. }
  split; [exact Hsid|]. split.
  { intros key value sm2. split.
    - unfold sm2. rewrite SessionFacts.deref_through by exact Htab.
      unfold Session.Get, Session.Set_. cbn [Session.data].
      now rewrite lookup_insert_eq.
    - intros r' w' fresh' Hck Hne.
      assert (Htab2 : is_Some (Session.sessions sm2 !! sid)).
      { unfold sm2, Session.through. cbn [Session.sessions].
        rewrite lookup_alter_eq. destruct Htab as [s ->]. simpl. eauto. }
      unfold Session.GetSession. rewrite Hck.
      apply String.eqb_neq in Hne. rewrite Hne.
      destruct Htab2 as [s ->]. reflexivity. }
  intros Hnone.
  assert (Hd : Session.data (Session.deref sm1 sid) = ∅).
  { unfold Session.deref, sm1. rewrite SessionFacts.GetSession_table.
    rewrite <- Hsid, Hnone, lookup_insert_eq. reflexivity. }
  split; [exact Hd|]. intros key. unfold Session.Get.
  now rewrite Hd, lookup_empty.
Qed.

(* ===================================================================== *)
(** * The request context                                                *)
(* ===================================================================== *)

Module CtxFacts.
Import Http Ctx CtxOps.

Section WithRuntime.
Context {rt : GoRuntime}.

Lemma sendJSON_written (c : Context) (v : Any) : written (sendJSON c v).1 = true.
Proof.
  unfold sendJSON. destruct (negb (statusCode _ =? 200));
    now destruct (json_Marshal v).
Qed.

Lemma sendJSON_request (c : Context) (v : Any) : Request (sendJSON c v).1 = Request c.
Proof.
  unfold sendJSON. destruct (negb (statusCode _ =? 200));
    now destruct (json_Marshal v).
Qed.




Lemma JSON_respond (c : Context) (v : Any) :
  respondsJSON c = true ->
  JSON c v = ((sendJSON c v).1, v, (sendJSON c v).2).
Proof.
  unfold respondsJSON, JSON. intros ->. now destruct (sendJSON c v).
Qed.

Lemma JSON_decode (c : Context) (v : Any) :
  respondsJSON c = false ->
  JSON c v = (setRequest c (setBody (Request c) (json_Decode (Body (Request c)) v).1.1),
              (json_Decode (Body (Request c)) v).1.2,
              (json_Decode (Body (Request c)) v).2).
Proof.
  unfold respondsJSON, JSON. intros ->.
  now destruct (json_Decode (Body (Request c)) v) as [[rest v'] err].
Qed.

Lemma JSON_written (c : Context) (v : Any) :
  written (JSON c v).1.1 = written c || respondsJSON c.
Proof.
  destruct (respondsJSON c) eqn:E.
  - rewrite JSON_respond by exact E. cbn [fst]. rewrite sendJSON_written.
    now rewrite orb_true_r.
  - rewrite JSON_decode by exact E. cbn. now rewrite orb_false_r.
Qed.

Lemma respondsJSON_Status (c : Context) (code : Z) :
  respondsJSON (Status c code) = respondsJSON c.
Proof. reflexivity. Qed.

Lemma Upgrade_written (c : Context) :
  written (Upgrade c).1 = written c || (upgradeRefused c && respondsJSON c).
Proof.
  unfold Upgrade, upgradeRefused.
  destruct (negb (String.eqb (Header_Get (Request c) "Connection") "Upgrade")
            || negb (String.eqb (Header_Get (Request c) "Upgrade") "websocket")) eqn:E1.
  { cbn [fst orb andb]. now rewrite JSON_written, respondsJSON_Status. }
  cbn [orb].
  destruct (String.eqb (Header_Get (Request c) "Sec-WebSocket-Key") "") eqn:E2.
  { cbn [fst orb andb]. now rewrite JSON_written, respondsJSON_Status. }
  cbn [orb].
  destruct (RHijack (Response c)) as [| |writeFails flushFails].
  - cbn [fst andb]. now rewrite JSON_written, respondsJSON_Status.
  - cbn [fst andb]. now rewrite JSON_written, respondsJSON_Status.
  - destruct writeFails; cbn; now rewrite orb_false_r.
Qed.

(** One operation: the flag is set by the sending operations and kept by
    all. *)
Lemma exec_written (op : Op) (c : Context) :
  written (exec op c) = written c || sending op c.
Proof.
  destruct op; cbn [exec sending]; rewrite ?orb_false_r, ?orb_true_r;
    try reflexivity.
  - apply JSON_written.
  - apply sendJSON_written.
  - unfold Render.
    destruct (templates _) as [render|].
    + destruct (render templateName d) as [output []]; [reflexivity|].
      now destruct (String.length output =? 0)%nat.
    + now destruct (fallback_Execute _ _ _).
  - apply Upgrade_written.
Qed.

Lemma run_written (ops : list Op) :
  forall c, written (run ops c) = written c || sent ops c.
Proof.
  induction ops as [|op ops IH]; intros c.
  - cbn. now rewrite orb_false_r.
  - unfold run in *. cbn [foldl sent]. rewrite IH, exec_written.
    now rewrite orb_assoc.
Qed.

End WithRuntime.

End CtxFacts.


(** C10. The written flag of a new context is false; each of [sendJSON],
    [JSON] taken for a response, [String], [HTML], [Render], [File] and
    [Redirect] leaves it true; every method of the context leaves it as it
    was unless it is one of these or calls one ([Upgrade] refusing through
    [JSON]); so after any sequence of operations on a new context the flag
    is true exactly when one of them sent a response. *)
Theorem written_tracks_sending :
  forall (rt : GoRuntime) (w : Http.ResponseWriter) (r : Http.Request)
         (tmpl : option (string -> Any -> string * bool))
         (sm : Session.SessionManager) (fresh : string),
    let c0 := (Ctx.NewContext w r tmpl sm fresh).1 in
    Ctx.written c0 = false
    /\ (forall (c : Ctx.Context) (v : Any) (text : string) (d : Any),
          Ctx.written (Ctx.sendJSON c v).1 = true
          /\ (CtxOps.respondsJSON c = true -> Ctx.written (Ctx.JSON c v).1.1 = true)
          /\ Ctx.written (Ctx.String c text) = true
          /\ Ctx.written (Ctx.HTML c text) = true
          /\ Ctx.written (Ctx.Render c text d).1 = true
          /\ Ctx.written (Ctx.File c text) = true
          /\ Ctx.written (Ctx.Redirect c text) = true)
    /\ (forall (op : CtxOps.Op) (c : Ctx.Context),
          CtxOps.sending op c = false ->
          Ctx.written (CtxOps.exec op c) = Ctx.written c)
    /\ (forall ops : list CtxOps.Op,
          Ctx.written (CtxOps.run ops c0) = CtxOps.sent ops c0).
Proof.
  intros rt w r tmpl sm fresh c0.
  assert (H0 : Ctx.written c0 = false).
  { unfold c0, Ctx.NewContext. now destruct (Session.GetSession sm r w fresh) as [[? ?] ?]. }
  split; [exact H0|]. split.
  { intros c v text d.
    pose proof (fun op => CtxFacts.exec_written op c) as E.
    split; [apply CtxFacts.sendJSON_written|].
    split; [intros Hr; rewrite CtxFacts.JSON_written, Hr; apply orb_true_r|].
    pose proof (E (CtxOps.OpString text)) as Hs.
    pose proof (E (CtxOps.OpHTML text)) as Hh.
    pose proof (E (CtxOps.OpRender text d)) as Hr.
    pose proof (E (CtxOps.OpFile text)) as Hf.
    pose proof (E (CtxOps.OpRedirect text)) as Hd.
    cbn [CtxOps.exec CtxOps.sending] in Hs, Hh, Hr, Hf, Hd.
    rewrite Hs, Hh, Hr, Hf, Hd, orb_true_r. repeat split. }
  split.
  { intros op c Hs. rewrite CtxFacts.exec_written, Hs. apply orb_false_r. }
  intros ops. now rewrite CtxFacts.run_written, H0.
Qed.

(* ===================================================================== *)
(** * The rate limiter                                                   *)
(* ===================================================================== *)

Module RateLimitFacts.
Import Http Ctx Middleware RateLimitSpec.

Lemma cleanup_lookup (now : Z) (clients : gmap string client) (ip : string) :
  cleanup now clients !! ip = live now clients ip.
Proof.
  unfold cleanup, live. rewrite map_lookup_filter.
  destruct (clients !! ip) as [cl|]; [|reflexivity]. cbn.
  destruct (reset cl <? now) eqn:E.
  - apply Z.ltb_lt in E. rewrite option_guard_False; [reflexivity | cbn; tauto].
  - apply Z.ltb_ge in E. rewrite option_guard_True; [reflexivity | cbn; lia].
Qed.

Section WithRuntime.
Context {rt : GoRuntime}.

(** A call that finds the client under its limit. *)
Lemma RateLimit_accept (limit now : Z) (clients : gmap string client) (c : Context) :
  let cl := entry now clients (IP c) in
  requests cl < limit ->
  RateLimit limit now clients c
  = (<[IP c := mkClient (requests cl + 1) (reset cl)]> (cleanup now clients),
     Header (Header (Header c "X-RateLimit-Limit" (Itoa limit))
                    "X-RateLimit-Remaining" (Itoa (limit - (requests cl + 1))))
            "X-RateLimit-Reset" (Itoa (Unix (reset cl))),
     true).
Proof.
  intros cl Hlt. unfold RateLimit. subst cl. unfold entry in *.
  rewrite <- cleanup_lookup in *.
  destruct (cleanup now clients !! IP c) as [cl|] eqn:E; cbn [from_option id] in *.
  - assert (Hc : (limit <=? requests cl) = false) by (apply Z.leb_gt; lia).
    rewrite Hc. reflexivity.
  - cbn [requests reset] in *.
    assert (Hc : (limit <=? 0) = false) by (apply Z.leb_gt; lia).
    rewrite Hc. now rewrite insert_insert_eq.
Qed.

(** A call that finds the client at its limit. *)
Lemma RateLimit_refuse (limit now : Z) (clients : gmap string client) (c : Context) :
  let cl := entry now clients (IP c) in
  limit <= requests cl ->
  (RateLimit limit now clients c).1.1 !! IP c = Some cl
  /\ (forall ip, ip <> IP c ->
        (RateLimit limit now clients c).1.1 !! ip = live now clients ip)
  /\ (RateLimit limit now clients c).1.2 = (JSON (Status c 429) refusal).1.1
  /\ (RateLimit limit now clients c).2 = false.
Proof.
  intros cl Hle. unfold RateLimit. subst cl. unfold entry in *.
  rewrite <- cleanup_lookup in *.
  destruct (cleanup now clients !! IP c) as [cl|] eqn:E; cbn [from_option id] in *.
  - assert (Hc : (limit <=? requests cl) = true) by (apply Z.leb_le; lia).
    rewrite Hc. cbn [fst snd]. split; [exact E|].
    split; [|split; reflexivity].
    intros ip _. apply cleanup_lookup.
  - cbn [requests reset] in *.
    assert (Hc : (limit <=? 0) = true) by (apply Z.leb_le; lia).
    rewrite Hc. cbn [fst snd]. split; [apply lookup_insert_eq|].
    split; [|split; reflexivity].
    intros ip Hne. rewrite lookup_insert_ne by congruence. apply cleanup_lookup.
Qed.

(** What a call leaves in the map: the caller's entry counted up to the
    limit, the live entries of the others. *)
Lemma RateLimit_map (limit now : Z) (clients : gmap string client) (c : Context) :
  let cl := entry now clients (IP c) in
  (RateLimit limit now clients c).1.1 !! IP c
  = Some (mkClient (if limit <=? requests cl then requests cl else requests cl + 1)
                   (reset cl))
  /\ forall ip, ip <> IP c ->
       (RateLimit limit now clients c).1.1 !! ip = live now clients ip.
Proof.
  intros cl. destruct (limit <=? requests cl) eqn:E.
  - apply Z.leb_le in E.
    destruct (RateLimit_refuse limit now clients c E) as (H1 & H2 & _).
    split; [|exact H2]. fold cl in H1. rewrite H1. now destruct cl.
  - apply Z.leb_gt in E. rewrite (RateLimit_accept limit now clients c E).
    cbn [fst snd]. fold cl. split; [apply lookup_insert_eq|].
    intros ip Hne. rewrite lookup_insert_ne by congruence. apply cleanup_lookup.
Qed.




End WithRuntime.

End RateLimitFacts.

Module LimiterFacts.
Import Http Ctx Middleware RateLimitSpec RateLimitFacts.

Section WithRuntime.
Context {rt : GoRuntime}.




Lemma sendJSON_statusCode (c : Context) (v : Any) :
  statusCode (sendJSON c v).1 = statusCode c.
Proof.
  unfold sendJSON. destruct (negb (statusCode _ =? 200));
    now destruct (json_Marshal v).
Qed.

Lemma JSON_statusCode (c : Context) (v : Any) :
  statusCode (JSON c v).1.1 = statusCode c.
Proof.
  destruct (CtxOps.respondsJSON c) eqn:E.
  - rewrite CtxFacts.JSON_respond by exact E. apply sendJSON_statusCode.
  - rewrite CtxFacts.JSON_decode by exact E. reflexivity.
Qed.



Lemma entry_fresh (now : Z) (clients : gmap string client) (ip : string) :
  live now clients ip = None -> entry now clients ip = mkClient 0 (now + Minute).
Proof. unfold entry. now intros ->. Qed.

End WithRuntime.

End LimiterFacts.




(* ===================================================================== *)
(** * The request loop                                                   *)
(* ===================================================================== *)

Module PipelineFacts.
Import Http Ctx App PipelineSpec.


Section WithEnv.
Context {rt : GoRuntime} {Env : Type}.


Lemma deferRecover_returns {A} (zero : A) (onPanic : string -> State Env -> State Env)
    (body : State Env -> Result A) (s : State Env) :
  exists a s', deferRecover zero onPanic body s = Returned a s'.
Proof. unfold deferRecover. destruct (body s); eauto. Qed.

Lemma JSON_route (c : Context) (v : Any) :
  Method (Request (JSON c v).1.1) = Method (Request c)
  /\ URLPath (Request (JSON c v).1.1) = URLPath (Request c).
Proof.
  destruct (CtxOps.respondsJSON c) eqn:E.
  - rewrite CtxFacts.JSON_respond by exact E. cbn [fst].
    now rewrite CtxFacts.sendJSON_request.
  - rewrite CtxFacts.JSON_decode by exact E. split; reflexivity.
Qed.

(** What the request loop does right about panics: when the middleware
    let the request through and the matched handler panics, the panic
    ends in [ServeHTTP], a line is logged, and the context is left to
    [JSON] with status code 500 if the written flag is false, and alone
    otherwise. *)
Lemma handler_panic_recovered (a : App Env) (w : Http.ResponseWriter) (r : Http.Request)
    (fresh : string) (sm : Session.SessionManager) (lg : list string) (e : Env)
    (s : State Env) (tr : list Event) (h : HandlerFunc Env)
    (params : option (gmap string string)) (p : string) (s' : State Env) :
  let start := NewContext w r (App.templates a) sm fresh in
  staticLoop (static a) (URLPath r) = None ->
  runMiddleware (middleware a) 0 (mkState start.1 start.2 lg e) [] = (Continue s, tr) ->
  Router.Match (router a) (Method r) (URLPath r) = (Some h, params) ->
  h (setCtx s (setParams (ctx s) params)) = Panicked p s' ->
  let run := ServeHTTP a w r fresh sm lg e in
  escaped run = None
  /\ events run = tr ++ [EvHandler]
  /\ logs (final run) = logs s' ++ ["Panic in handler: " +:+ p]
  /\ ctx (final run)
     = if written (ctx s')
       then ctx s'
       else (JSON (Status (ctx s') 500)
               (AMapSS [("error", "Internal Server Error")])).1.1.
Proof.
  intros start Hstatic Hmw Hmatch Hpanic run.
  unfold run, ServeHTTP. fold start.
  destruct start as [c sm'] eqn:Hstart. cbn [fst snd] in Hmw.
  rewrite Hstatic, Hmw, Hmatch. unfold deferRecover. rewrite Hpanic.
  unfold respond500, Printf. cbn [ctx logs].
  destruct (written (ctx s')); repeat split.
Qed.

End WithEnv.

End PipelineFacts.



(** C3 at its failing inputs. With [Recovery()] installed first, a panic
    of a later middleware leaves [ServeHTTP]: nothing is logged and no
    response is written. A panic of the handler of a POST request with a
    body is recovered and logged, but the 500 body goes to [JSON], which
    decodes the request body instead: no response is written. The panic
    of the handler of a GET request gets the 500 response. *)
Theorem ServeHTTP_panic_runs :
  (let run := PipelineSpec.serve PipelineSpec.guardedApp "GET" "/" "" in
   App.events run = [App.EvMiddleware 0 (Some true); App.EvMiddleware 1 None]
   /\ App.escaped run = Some "boom"
   /\ App.logs (App.final run) = []
   /\ Ctx.written (App.ctx (App.final run)) = false
   /\ Http.RStatus (Ctx.Response (App.ctx (App.final run))) = None
   /\ Http.RBody (Ctx.Response (App.ctx (App.final run))) = [])
  /\ (let run := PipelineSpec.serve PipelineSpec.crashApp "POST" "/" "{}" in
      App.events run = [App.EvHandler]
      /\ App.escaped run = None
      /\ App.logs (App.final run) = ["Panic in handler: boom"]
      /\ Ctx.written (App.ctx (App.final run)) = false
      /\ Http.RStatus (Ctx.Response (App.ctx (App.final run))) = None
      /\ Http.RBody (Ctx.Response (App.ctx (App.final run))) = [])
  /\ (let run := PipelineSpec.serve PipelineSpec.crashApp "GET" "/" "" in
      App.events run = [App.EvHandler]
      /\ App.escaped run = None
      /\ App.logs (App.final run) = ["Panic in handler: boom"]
      /\ Ctx.written (App.ctx (App.final run)) = true
      /\ Http.RStatus (Ctx.Response (App.ctx (App.final run))) = Some 500
      /\ Http.RBody (Ctx.Response (App.ctx (App.final run)))
         = [default ""
              (ExampleRuntime.marshal (AMapSS [("error", "Internal Server Error")]))]).
Proof.
  split; [|split]; vm_compute; repeat split.
Qed.

(* ===================================================================== *)
(** * The theorems at work                                               *)
(* ===================================================================== *)

(** A payload of three bytes is framed with its length; one of two
    hundred bytes with the marker 126 and the length in two bytes. *)
Lemma WriteMessage_frame_witness :
  WebSocket.frameOf [1; 2; 3] = [0x81; 3; 1; 2; 3]
  /\ exists hi lo,
       WebSocket.frameOf (replicate 200 7) = 0x81 :: 126 :: hi :: lo :: replicate 200 7
       /\ 0 <= hi < 256 /\ 0 <= lo < 256 /\ 256 * hi + lo = 200.
Proof.
  split.
  - apply (WriteMessage_frame (WebSocket.mkConn [] true) [1; 2; 3]). cbn. lia.
  - apply (WriteMessage_frame (WebSocket.mkConn [] true) (replicate 200 7)).
    rewrite length_replicate. lia.
Defined.


(** A request without the cookie gets the generated token and an empty
    session; a value set in it is read back. *)
Lemma session_round_trip_witness :
  (Session.GetSession Session.NewSessionManager (ExampleRuntime.request "GET" "/" "")
     (Http.NewResponseWriter Http.NotHijacker) "s1").2 = "s1"
  /\ Session.Get
       (Session.deref
          (Session.GetSession Session.NewSessionManager
             (ExampleRuntime.request "GET" "/" "")
             (Http.NewResponseWriter Http.NotHijacker) "s1").1.1
          (Session.GetSession Session.NewSessionManager
             (ExampleRuntime.request "GET" "/" "")
             (Http.NewResponseWriter Http.NotHijacker) "s1").2)
       "user_id"
     = ANil
  /\ Session.Get (Session.Set_ (Session.mkSession "s1" ∅ 0) "user_id" (AInt 7)) "user_id"
     = AInt 7.
Proof.
  pose proof (session_round_trip Session.NewSessionManager
                (ExampleRuntime.request "GET" "/" "")
                (Http.NewResponseWriter Http.NotHijacker) "s1") as H.
  cbv zeta in H. destruct H as (Hrt & Htok & _ & Hnew).
  split; [exact Htok|]. split.
  - apply Hnew. reflexivity.
  - apply Hrt.
Defined.

(* ===================================================================== *)
(** * More of the router                                                 *)
(* ===================================================================== *)

Module TrimFacts.
Import GoStrings GoStringsFacts.

Lemma TrimLeft_Repeat_app (c : ascii) (n : nat) (s : string) :
  TrimLeft c (Repeat c n +:+ s) = TrimLeft c s.
Proof.
  induction n as [|n IH]; [reflexivity|].
  cbn [Repeat]. rewrite append_cons. cbn [TrimLeft].
  now rewrite Ascii.eqb_refl.
Qed.

Lemma TrimRight_Repeat (c : ascii) (k : nat) : TrimRight c (Repeat c k) = "".
Proof.
  induction k as [|k IH]; [reflexivity|].
  cbn [Repeat TrimRight]. rewrite IH. now rewrite Ascii.eqb_refl.
Qed.

Lemma TrimRight_app_Repeat (c : ascii) (k : nat) (s : string) :
  TrimRight c (s +:+ Repeat c k) = TrimRight c s.
Proof.
  induction s as [|a s IH].
  - rewrite append_nil. apply TrimRight_Repeat.
  - rewrite append_cons. cbn [TrimRight]. now rewrite IH.
Qed.

Lemma TrimLeft_app_Repeat (c : ascii) (k : nat) (s : string) :
  exists k', TrimLeft c (s +:+ Repeat c k) = TrimLeft c s +:+ Repeat c k'.
Proof.
  induction s as [|a s [k' IH]].
  - exists O. rewrite !append_nil. cbn [TrimLeft Repeat].
    pose proof (TrimLeft_Repeat_app c k "") as H.
    now rewrite append_empty_r in H.
  - rewrite append_cons. cbn [TrimLeft].
    destruct (Ascii.eqb a c); [now exists k' | now exists k].
Qed.

(** Slashes around a path do not reach the pieces. *)
Lemma Trim_outer (c : ascii) (n k : nat) (s : string) :
  Trim (Repeat c n +:+ s +:+ Repeat c k) c = Trim s c.
Proof.
  unfold Trim. rewrite TrimLeft_Repeat_app.
  destruct (TrimLeft_app_Repeat c k s) as [k' ->].
  apply TrimRight_app_Repeat.
Qed.

Lemma TrimLeft_clean (c : ascii) (s : string) :
  HasPrefix s c = false -> TrimLeft c s = s.
Proof. destruct s as [|a s]; [reflexivity|]. cbn. now intros ->. Qed.

Lemma TrimRight_clean (c : ascii) (s : string) :
  Contains s c = false -> TrimRight c s = s.
Proof.
  induction s as [|a s IH]; [reflexivity|]. cbn [Contains TrimRight].
  intros H. apply orb_false_iff in H as [Ha Hs]. rewrite (IH Hs), Ha.
  now destruct s.
Qed.

(** A string without the byte is its own trimming and its only piece. *)
Lemma Trim_clean (c : ascii) (s : string) :
  Contains s c = false -> Trim s c = s.
Proof.
  intros H. unfold Trim. rewrite TrimLeft_clean.
  - now apply TrimRight_clean.
  - destruct s as [|a s]; [reflexivity|]. cbn in *.
    now apply orb_false_iff in H as [-> _].
Qed.

Lemma Split_clean (c : ascii) (s : string) :
  Contains s c = false -> Split s c = [s].
Proof.
  induction s as [|a s IH]; [reflexivity|]. cbn [Contains Split].
  intros H. apply orb_false_iff in H as [Ha Hs]. now rewrite Ha, (IH Hs).
Qed.

End TrimFacts.

Module MatchMoreFacts.
Import GoStrings Router RouterSpec RouterMore MatchFacts.

(** The names [bind] adds are those of the parameter segments. *)
Lemma bind_dom (segs : list Segment) :
  forall (ps : list string) (params : gmap string string) (name : string),
    length segs = length ps ->
    is_Some (bind segs ps params !! name) <->
    is_Some (params !! name) \/ name ∈ paramNames (mkPattern segs).
Proof.
  unfold paramNames. cbn [Segments].
  induction segs as [|seg segs IH]; intros ps params name Hlen.
  - cbn. rewrite elem_of_nil. tauto.
  - destruct ps as [|p ps]; [discriminate|]. simpl in Hlen.
    cbn [bind]. rewrite IH by lia. rewrite filter_cons.
    destruct (decide (IsParam seg = true)) as [Hp|Hp].
    + rewrite Hp. cbn [map]. rewrite elem_of_cons.
      destruct (decide (Name seg = name)) as [<-|Hne].
      * rewrite lookup_insert_eq. split; [intros _; right; now left|].
        intros _. left. eauto.
      * rewrite lookup_insert_ne by exact Hne. split.
        -- intros [H|H]; [now left | right; now right].
        -- intros [H|[H|H]]; [now left | congruence | now right].
    + destruct (IsParam seg); [congruence|]. reflexivity.
Qed.

(** The value [bind] leaves under a name is a path segment or was there
    before. *)
Lemma bind_values (segs : list Segment) :
  forall (ps : list string) (params : gmap string string) (name value : string),
    bind segs ps params !! name = Some value ->
    value ∈ ps \/ params !! name = Some value.
Proof.
  induction segs as [|seg segs IH]; intros ps params name value H.
  - now right.
  - destruct ps as [|p ps]; [now right|]. cbn [bind] in H.
    apply IH in H as [H|H]; [left; now right|].
    destruct (IsParam seg); [|now right].
    destruct (decide (Name seg = name)) as [<-|Hne].
    + rewrite lookup_insert_eq in H. injection H as <-. left. now left.
    + rewrite lookup_insert_ne in H by exact Hne. now right.
Qed.

Section WithHandler.
Context {HandlerFunc : Type}.

(** A result of the loop of [Match] with bindings comes from a route
    that matches, and the bindings are those [bind] computes. *)
Lemma MatchLoop_bind (rs : list (Route HandlerFunc)) (method : string)
    (segs : list string) (h : option HandlerFunc) (params : gmap string string) :
  MatchLoop rs method segs = (h, Some params) ->
  exists k rt,
    rs !! k = Some rt /\ h = Handler rt /\ Method rt = method
    /\ length (Segments (Pattern rt)) = length segs
    /\ params = bind (Segments (Pattern rt)) segs ∅.
Proof.
  induction rs as [|rt rs IH]; [discriminate|]. cbn [MatchLoop].
  destruct (String.eqb (Method rt) method) eqn:Em; cbn [negb].
  - rewrite matchPattern_zip.
    destruct (Nat.eqb (length (Segments (Pattern rt))) (length segs)) eqn:El;
      cbn [andb].
    + destruct (literals_ok (Segments (Pattern rt)) segs).
      * intros H. injection H as <- <-. exists 0%nat, rt.
        apply String.eqb_eq in Em. apply Nat.eqb_eq in El. now repeat split.
      * intros H. destruct (IH H) as (k & rt' & Hk & Hrest).
        now exists (S k), rt'.
    + intros H. destruct (IH H) as (k & rt' & Hk & Hrest). now exists (S k), rt'.
  - intros H. destruct (IH H) as (k & rt' & Hk & Hrest). now exists (S k), rt'.
Qed.

(** The loop of [Match] gives bindings or two nils. *)
Lemma MatchLoop_none (rs : list (Route HandlerFunc)) (method : string)
    (segs : list string) :
  (MatchLoop rs method segs).2 = None -> MatchLoop rs method segs = (None, None).
Proof.
  induction rs as [|rt rs IH]; [reflexivity|]. cbn [MatchLoop].
  destruct (negb (String.eqb (Method rt) method)); [exact IH|].
  rewrite matchPattern_zip.
  destruct (Nat.eqb _ _ && literals_ok _ _); [discriminate | exact IH].
Qed.

(** A route added at the end is tried when no earlier route matches. *)
Lemma MatchLoop_snoc (rs : list (Route HandlerFunc)) (rt : Route HandlerFunc)
    (method : string) (segs : list string) :
  MatchLoop (rs ++ [rt]) method segs
  = match (MatchLoop rs method segs).2 with
    | Some _ => MatchLoop rs method segs
    | None => MatchLoop [rt] method segs
    end.
Proof.
  induction rs as [|rt0 rs IH]; [reflexivity|].
  cbn [app]. cbn [MatchLoop] in *.
  destruct (negb (String.eqb (Method rt0) method)); [exact IH|].
  rewrite matchPattern_zip.
  destruct (Nat.eqb _ _ && literals_ok _ _); [reflexivity | exact IH].
Qed.

End WithHandler.

End MatchMoreFacts.

(** X1. Slashes in front of and behind a path or a template make no
    difference: [Match] answers a request for the path with any number
    of slashes around it as it answers the request for the path, and
    [compilePattern] gives one pattern for a template and for the
    template with slashes around it. *)
Theorem Match_ignores_outer_slashes :
  forall (HandlerFunc : Type) (r : Router.Router HandlerFunc)
         (method path : string) (n k : nat),
    Router.Match r method
      (GoStrings.Repeat "/" n +:+ path +:+ GoStrings.Repeat "/" k)
    = Router.Match r method path
    /\ @Router.compilePattern
         (GoStrings.Repeat "/" n +:+ path +:+ GoStrings.Repeat "/" k)
       = @Router.compilePattern path.
Proof.
  intros HandlerFunc r method path n k.
  unfold Router.Match, Router.compilePattern.
  now rewrite TrimFacts.Trim_outer.
Qed.

(** X2. When [Match] on a built router returns bindings, they come from a
    registered route of the request's method: the bound names are the
    parameter names of that route's pattern, and every bound value is a
    segment of the path and holds no slash. *)
Theorem Match_bindings_wellformed :
  forall (HandlerFunc : Type)
         (adds : list (string * string * option HandlerFunc))
         (method path : string) (h : option HandlerFunc)
         (params : gmap string string),
    Router.Match (Router.build adds) method path = (h, Some params) ->
    exists k reg,
      adds !! k = Some reg /\ reg.1.1 = method /\ reg.2 = h
      /\ (forall name,
            is_Some (params !! name)
            <-> name ∈ RouterMore.paramNames (@Router.compilePattern reg.1.2))
      /\ (forall name value,
            params !! name = Some value ->
            value ∈ RouterSpec.pieces path /\ GoStrings.Contains value "/" = false).
Proof.
  intros HandlerFunc adds method path h params HM.
  unfold Router.Match in HM. rewrite MatchFacts.build_routes in HM.
  apply MatchMoreFacts.MatchLoop_bind in HM
    as (k & rt & Hk & Hh & Hm & Hlen & Hparams).
  rewrite list_lookup_fmap in Hk.
  destruct (adds !! k) as [reg|] eqn:Ek; [|discriminate].
  injection Hk as <-. exists k, reg.
  split; [exact Ek|]. split; [exact Hm|]. split; [now rewrite Hh|].
  cbn [RouterSpec.routeOf Router.Pattern] in Hlen, Hparams. split.
  - intros name. rewrite Hparams.
    rewrite (MatchMoreFacts.bind_dom _ _ _ _ Hlen). rewrite lookup_empty.
    destruct (@Router.compilePattern reg.1.2) as [segs]. cbn [Router.Segments].
    split; [intros [[x Hx]|H]; [discriminate | exact H] | intros H; now right].
  - intros name value Hv. rewrite Hparams in Hv.
    apply MatchMoreFacts.bind_values in Hv as [Hv|Hv];
      [|now rewrite lookup_empty in Hv].
    split; [exact Hv|]. now apply GoStringsFacts.Split_no_sep in Hv.
Qed.

(** The theorem at work on the route of the specification's example. *)
Lemma Match_bindings_wellformed_witness :
  Router.Match (Router.build [("GET", "/users/:id", Some tt)]) "GET" "/users/42"
  = (Some tt, Some {[ "id" := "42" ]})
  /\ exists k reg,
       [("GET", "/users/:id", Some tt)] !! k = Some reg /\ reg.1.1 = "GET"
       /\ reg.2 = Some tt
       /\ (forall name,
             is_Some (({[ "id" := "42" ]} : gmap string string) !! name)
             <-> name ∈ RouterMore.paramNames (@Router.compilePattern reg.1.2))
       /\ (forall name value,
             ({[ "id" := "42" ]} : gmap string string) !! name = Some value ->
             value ∈ RouterSpec.pieces "/users/42"
             /\ GoStrings.Contains value "/" = false).
Proof.
  split; [reflexivity|].
  apply (Match_bindings_wellformed unit [("GET", "/users/:id", Some tt)]
           "GET" "/users/42" (Some tt) {[ "id" := "42" ]}).
  reflexivity.
Defined.

(** X3. Registration order is priority: adding a route leaves the answer
    to every request that an earlier route matches as it was, and a
    request that no earlier route matches is answered by the new route
    alone. *)
Theorem Add_keeps_earlier_matches :
  forall (HandlerFunc : Type) (r : Router.Router HandlerFunc)
         (method path : string) (m' p' : string) (h' : option HandlerFunc),
    Router.Match (Router.Add r m' p' h') method path
    = match (Router.Match r method path).2 with
      | Some _ => Router.Match r method path
      | None => Router.Match (Router.Add Router.NewRouter m' p' h') method path
      end
    /\ ((Router.Match r method path).2 = None ->
        Router.Match r method path = (None, None)).
Proof.
  intros HandlerFunc r method path m' p' h'. split.
  - unfold Router.Match, Router.Add. cbn [Router.routes Router.NewRouter app].
    apply MatchMoreFacts.MatchLoop_snoc.
  - apply MatchMoreFacts.MatchLoop_none.
Qed.

(** X4. A route whose template is one parameter answers the request for
    the root: the path has one piece, the empty one, and the parameter is
    bound to it. *)
Theorem Match_parameter_takes_root :
  forall (HandlerFunc : Type) (method name : string) (h : option HandlerFunc),
    GoStrings.Contains name "/" = false ->
    Router.Match (Router.build [(method, "/:" +:+ name, h)]) method "/"
    = (h, Some {[ name := "" ]}).
Proof.
  intros HandlerFunc method name h Hname.
  unfold Router.Match, Router.build. cbn [foldl Router.Add Router.routes
    Router.NewRouter app Router.MatchLoop Router.Method Router.Pattern Router.Handler].
  rewrite String.eqb_refl. cbn [negb].
  rewrite MatchFacts.matchPattern_zip, RouterFacts.compilePattern_map.
  unfold RouterSpec.pieces.
  assert (Hc : GoStrings.Contains (String ":" name) "/" = false) by exact Hname.
  assert (Ht : GoStrings.Trim ("/:" +:+ name) "/" = String ":" name).
  { change ("/:" +:+ name) with (String "/" (String ":" name)).
    unfold GoStrings.Trim. cbn [GoStrings.TrimLeft Ascii.eqb Bool.eqb].
    now apply TrimFacts.TrimRight_clean. }
  rewrite Ht, (TrimFacts.Split_clean _ _ Hc).
  reflexivity.
Qed.

(** The theorem at work: the route [/:id] on the root. *)
Lemma Match_parameter_takes_root_witness :
  GoStrings.Contains "id" "/" = false
  /\ Router.Match (Router.build [("GET", "/:" +:+ "id", Some tt)]) "GET" "/"
     = (Some tt, Some {[ "id" := "" ]}).
Proof.
  split; [reflexivity|].
  apply (Match_parameter_takes_root unit "GET" "id" (Some tt)). reflexivity.
Defined.

(* ===================================================================== *)
(** * More of the WebSocket layer: reading frames                        *)
(* ===================================================================== *)

Module ReadFacts.
Import WebSocket WebSocketRead.

(** A check that holds for every number below a bound holds for each. *)
Lemma below_all (P : Z -> bool) (bound : nat) :
  forallb P (map Z.of_nat (seq 0 bound)) = true ->
  forall z, 0 <= z < Z.of_nat bound -> P z = true.
Proof.
  intros H z Hz. rewrite forallb_forall in H. apply H.
  apply in_map_iff. exists (Z.to_nat z). split; [lia|].
  apply in_seq. lia.
Qed.

Lemma small_length_bits (n : Z) :
  0 <= n < 128 -> Z.land n 0x7F = n /\ Z.land n 0x80 = 0.
Proof.
  intros Hn.
  pose proof (below_all (fun n => (Z.land n 0x7F =? n) && (Z.land n 0x80 =? 0)) 128
                ltac:(vm_compute; reflexivity) n ltac:(lia)) as H.
  cbv beta in H. apply andb_true_iff in H as [H1 H2].
  split; [now apply Z.eqb_eq | now apply Z.eqb_eq].
Qed.

Lemma masked_length_bits (n : Z) :
  0 <= n < 126 -> Z.land (128 + n) 0x7F = n /\ Z.land (128 + n) 0x80 = 128.
Proof.
  intros Hn.
  pose proof (below_all (fun n => (Z.land (128 + n) 0x7F =? n)
                                  && (Z.land (128 + n) 0x80 =? 128)) 126
                ltac:(vm_compute; reflexivity) n ltac:(lia)) as H.
  cbv beta in H. apply andb_true_iff in H as [H1 H2].
  split; [now apply Z.eqb_eq | now apply Z.eqb_eq].
Qed.

(** Reading as many bytes as a chunk has takes the chunk. *)
Lemma Conn_Read_chunk (chunk : list Z) (inbox : Inbox) :
  Conn_Read (match chunk with [] => inbox | _ => chunk :: inbox end) (length chunk)
  = (inbox, chunk, false).
Proof.
  destruct chunk as [|b chunk]; [now destruct inbox|].
  cbn [length Conn_Read]. rewrite take_ge, drop_ge by (cbn [length]; lia).
  cbn [length]. rewrite Nat.sub_diag. cbn [replicate]. now rewrite app_nil_r.
Qed.

(** Reading the front of a chunk leaves the rest of it first in line. *)
Lemma Conn_Read_front (front tail : list Z) (inbox : Inbox) :
  front <> [] ->
  Conn_Read ((front ++ tail) :: inbox) (length front)
  = (match tail with [] => inbox | _ => tail :: inbox end, front, false).
Proof.
  intros Hne. destruct front as [|b front]; [congruence|].
  cbn [length Conn_Read app].
  change (b :: front ++ tail) with ((b :: front) ++ tail).
  rewrite (take_app_length' (b :: front) tail (S (length front)) eq_refl).
  rewrite (drop_app_length' (b :: front) tail (S (length front)) eq_refl).
  cbn [length]. rewrite Nat.sub_diag. cbn [replicate]. rewrite app_nil_r.
  now destruct tail.
Qed.

(** Reading the two bytes of a header. *)
Lemma Conn_Read_header (a b : Z) (tail : list Z) (inbox : Inbox) :
  Conn_Read (([a; b] ++ tail) :: inbox) 2
  = (match tail with [] => inbox | _ => tail :: inbox end, [a; b], false).
Proof. apply (Conn_Read_front [a; b] tail inbox). discriminate. Qed.

Lemma unmask_length (key payload : list Z) : length (unmask key payload) = length payload.
Proof. unfold unmask. apply length_imap. Qed.

(** Masking twice with one key gives the payload back. *)
Lemma unmask_unmask (key payload : list Z) : unmask key (unmask key payload) = payload.
Proof.
  unfold unmask. apply list_eq. intros i.
  rewrite !list_lookup_imap. destruct (payload !! i) as [b|]; [|reflexivity].
  cbn. f_equal. rewrite Z.lxor_assoc, Z.lxor_nilpotent. apply Z.lxor_0_r.
Qed.

Lemma masked_length (payload : list Z) :
  forall k0 k1 k2 k3, length (masked k0 k1 k2 k3 payload) = length payload.
Proof.
  induction payload as [|b rest IH]; intros k0 k1 k2 k3; [reflexivity|].
  cbn [masked length]. now rewrite IH.
Qed.

(** The key octet the loop of [ReadMessage] takes at the next index is
    the first octet of the key turned by one. *)
Lemma key_turn (k0 k1 k2 k3 : Z) (i : nat) :
  nth (S i mod 4) [k0; k1; k2; k3] 0 = nth (i mod 4) [k1; k2; k3; k0] 0.
Proof.
  assert (Hs : (S i mod 4 = S (i mod 4) mod 4)%nat).
  { replace (S i) with (i + 1)%nat by lia.
    rewrite <- Nat.Div0.add_mod_idemp_l. f_equal. lia. }
  rewrite Hs. pose proof (Nat.mod_upper_bound i 4 ltac:(lia)) as Hlt.
  destruct (i mod 4)%nat as [|[|[|[|n]]]]; try reflexivity. lia.
Qed.

(** The loop of [ReadMessage] takes the sender's mask off. *)
Lemma unmask_masked (payload : list Z) :
  forall k0 k1 k2 k3,
    unmask [k0; k1; k2; k3] (masked k0 k1 k2 k3 payload) = payload.
Proof.
  unfold unmask. induction payload as [|b rest IH]; intros k0 k1 k2 k3; [reflexivity|].
  cbn [masked imap]. f_equal.
  - cbn. rewrite Z.lxor_assoc, Z.lxor_nilpotent. apply Z.lxor_0_r.
  - rewrite <- (IH k1 k2 k3 k0) at 2. apply imap_ext. intros i x _.
    unfold compose. now rewrite key_turn.
Qed.

(** The frame of a short payload. *)
Lemma frameOf_short (data : list Z) :
  (length data < 126)%nat ->
  frameOf data = [0x81; Z.of_nat (length data)] ++ data.
Proof.
  intros H. rewrite FrameFacts.frameOf_cases. cbv zeta.
  assert (Hlt : (Z.of_nat (length data) <? 126) = true) by (apply Z.ltb_lt; lia).
  now rewrite Hlt.
Qed.

(** The frame of a long payload. *)
Lemma frameOf_long (data : list Z) :
  (126 <= length data)%nat ->
  frameOf data
  = [0x81; 126] ++ [(Z.of_nat (length data) / 256) mod 256;
                    Z.of_nat (length data) mod 256] ++ data.
Proof.
  intros H. rewrite FrameFacts.frameOf_cases. cbv zeta.
  assert (Hge : (Z.of_nat (length data) <? 126) = false) by (apply Z.ltb_ge; lia).
  now rewrite Hge.
Qed.

(** [ReadMessage] on an unmasked header whose chunk goes on with [tail]:
    the payload read is what [Conn_Read] gives for the length. *)
Lemma ReadMessage_unmasked (n : Z) (tail : list Z) (inbox : Inbox) :
  0 <= n < 128 ->
  ReadMessage (([0x81; n] ++ tail) :: inbox)
  = let '(inbox', payload, err) :=
      Conn_Read (match tail with [] => inbox | _ => tail :: inbox end) (Z.to_nat n) in
    if err then (inbox', None) else (inbox', Some payload).
Proof.
  intros Hn. unfold ReadMessage.
  rewrite Conn_Read_header. cbn [nth]. destruct (small_length_bits n Hn) as [-> ->]. cbn [Z.eqb negb].
  destruct (Conn_Read _ (Z.to_nat n)) as [[inbox' payload] []]; reflexivity.
Qed.

End ReadFacts.

(** X5. What [WriteMessage] sends for a payload of fewer than 126 bytes,
    [ReadMessage] reads back: given the frame as one chunk it returns the
    payload and leaves the inbox as it was behind the frame; so a text
    sent with [WriteText] arrives as its bytes. *)
Theorem ReadMessage_reads_WriteMessage :
  forall (data : list Z) (inbox : WebSocketRead.Inbox),
    (length data < 126)%nat ->
    WebSocketRead.ReadMessage (WebSocket.frameOf data :: inbox) = (inbox, Some data)
    /\ forall text : string,
         data = bytes_of_string text ->
         WebSocketRead.ReadMessage
           (WebSocket.sent (WebSocketRead.WriteText (WebSocket.mkConn [] true) text).1
            ++ inbox)
         = (inbox, Some (bytes_of_string text)).
Proof.
  intros data inbox Hlen.
  assert (Hread : WebSocketRead.ReadMessage (WebSocket.frameOf data :: inbox)
                  = (inbox, Some data)).
  { rewrite (ReadFacts.frameOf_short data Hlen).
    rewrite ReadFacts.ReadMessage_unmasked by lia.
    rewrite Nat2Z.id, ReadFacts.Conn_Read_chunk. reflexivity. }
  split; [exact Hread|]. intros text ->. exact Hread.
Qed.

(** The theorem at work: the text [hi]. *)
Lemma ReadMessage_reads_WriteMessage_witness :
  (length (bytes_of_string "hi") < 126)%nat
  /\ WebSocketRead.ReadMessage (WebSocket.frameOf (bytes_of_string "hi") :: [])
     = ([], Some [104; 105]).
Proof.
  split; [cbn; lia|].
  exact (proj1 (ReadMessage_reads_WriteMessage (bytes_of_string "hi") []
                  ltac:(cbn; lia))).
Defined.

(** X6. A frame of [WriteMessage] for a payload of 126 bytes or more is
    not read back: [ReadMessage] takes the marker 126 for the length and
    returns the two length bytes followed by the first 124 bytes of the
    payload; the rest of the payload stays in the inbox, in front of the
    next frame. *)
Theorem ReadMessage_misreads_long_frame :
  forall (data : list Z) (inbox : WebSocketRead.Inbox),
    (126 <= length data)%nat ->
    WebSocketRead.ReadMessage (WebSocket.frameOf data :: inbox)
    = (drop 124 data :: inbox,
       Some ([(Z.of_nat (length data) / 256) mod 256; Z.of_nat (length data) mod 256]
             ++ take 124 data))
    /\ drop 124 data <> [].
Proof.
  intros data inbox Hlen.
  assert (Hrest : drop 124 data <> []).
  { intros H. apply (f_equal length) in H. rewrite length_drop in H.
    cbn [length] in H. lia. }
  split; [|exact Hrest].
  rewrite (ReadFacts.frameOf_long data Hlen).
  rewrite ReadFacts.ReadMessage_unmasked by lia.
  set (hi := (Z.of_nat (length data) / 256) mod 256).
  set (lo := Z.of_nat (length data) mod 256).
  cbn [app].
  replace (hi :: lo :: data) with (([hi; lo] ++ take 124 data) ++ drop 124 data)
    by (rewrite <- app_assoc, take_drop; reflexivity).
  change (Z.to_nat 126) with 126%nat.
  replace 126%nat with (length ([hi; lo] ++ take 124 data))
    by (rewrite length_app, length_take; cbn [length]; lia).
  rewrite ReadFacts.Conn_Read_front by discriminate.
  destruct (drop 124 data); [congruence | reflexivity].
Qed.

(** The theorem at work: a payload of 200 bytes. *)
Lemma ReadMessage_misreads_long_frame_witness :
  (126 <= length (replicate 200 7))%nat
  /\ WebSocketRead.ReadMessage (WebSocket.frameOf (replicate 200 7) :: [])
     = ([replicate 76 7], Some ([0; 200] ++ replicate 124 7)).
Proof.
  split; [cbn; lia|].
  exact (proj1 (ReadMessage_misreads_long_frame (replicate 200 7) []
                  ltac:(cbn; lia))).
Defined.

(** X7. A frame masked as RFC 6455 has the sender mask it is unmasked:
    for every key of four octets and every payload of fewer than 126
    bytes, [ReadMessage] on the frame that carries the key and the
    payload added octet by octet to the key, the key starting over after
    its fourth octet, returns the payload. *)
Theorem ReadMessage_unmasks :
  forall (k0 k1 k2 k3 : Z) (payload : list Z) (inbox : WebSocketRead.Inbox),
    (length payload < 126)%nat ->
    WebSocketRead.ReadMessage (WebSocketRead.maskedFrame k0 k1 k2 k3 payload :: inbox)
    = (inbox, Some payload).
Proof.
  intros k0 k1 k2 k3 payload inbox Hlen.
  unfold WebSocketRead.ReadMessage, WebSocketRead.maskedFrame.
  rewrite ReadFacts.Conn_Read_header. cbn [nth].
  destruct (ReadFacts.masked_length_bits (Z.of_nat (length payload)) ltac:(lia))
    as [-> ->].
  cbn [Z.eqb negb].
  cbn [app]. change 4%nat with (length [k0; k1; k2; k3]).
  change (k0 :: k1 :: k2 :: k3 :: WebSocketRead.masked k0 k1 k2 k3 payload)
    with ([k0; k1; k2; k3] ++ WebSocketRead.masked k0 k1 k2 k3 payload).
  rewrite ReadFacts.Conn_Read_front by discriminate.
  rewrite Nat2Z.id, <- (ReadFacts.masked_length payload k0 k1 k2 k3).
  rewrite ReadFacts.Conn_Read_chunk.
  now rewrite ReadFacts.unmask_masked.
Qed.

(** The theorem at work: six bytes under the key 1, 2, 3, 4, so that the
    key starts over. *)
Lemma ReadMessage_unmasks_witness :
  (length [10; 20; 30; 40; 50; 60] < 126)%nat
  /\ WebSocketRead.maskedFrame 1 2 3 4 [10; 20; 30; 40; 50; 60]
     = [0x81; 134; 1; 2; 3; 4; 11; 22; 29; 44; 51; 62]
  /\ WebSocketRead.ReadMessage
       (WebSocketRead.maskedFrame 1 2 3 4 [10; 20; 30; 40; 50; 60] :: [])
     = ([], Some [10; 20; 30; 40; 50; 60]).
Proof.
  split; [cbn; lia|]. split; [reflexivity|].
  apply (ReadMessage_unmasks 1 2 3 4 [10; 20; 30; 40; 50; 60] []). cbn. lia.
Defined.

(** X8. [ReadMessage] does not wait for a frame to arrive whole. When the
    chunk that brings the header of a frame of [WriteMessage] ends [k]
    bytes into the payload, it returns a payload of the announced length
    whose bytes from [k] on are zero, without an error, and the bytes
    that come later stay in the inbox; when the first chunk is a single
    byte, it returns the empty payload. *)
Theorem ReadMessage_does_not_wait :
  forall (data : list Z) (k : nat) (inbox : WebSocketRead.Inbox),
    (length data < 126)%nat ->
    (0 < k < length data)%nat ->
    WebSocketRead.ReadMessage
      (take (2 + k) (WebSocket.frameOf data)
       :: drop (2 + k) (WebSocket.frameOf data) :: inbox)
    = (drop k data :: inbox,
       Some (take k data ++ replicate (length data - k) 0))
    /\ forall b : Z,
         WebSocketRead.ReadMessage ([b] :: inbox) = (inbox, Some []).
Proof.
  intros data k inbox Hlen Hk. split.
  - rewrite (ReadFacts.frameOf_short data Hlen).
    change (take (2 + k) ([129; Z.of_nat (length data)] ++ data))
      with ([129; Z.of_nat (length data)] ++ take k data).
    change (drop (2 + k) ([129; Z.of_nat (length data)] ++ data)) with (drop k data).
    rewrite ReadFacts.ReadMessage_unmasked by lia. rewrite Nat2Z.id.
    destruct (take k data) as [|b t] eqn:E.
    { apply (f_equal length) in E. rewrite length_take in E. cbn [length] in E. lia. }
    destruct data as [|d data]; [cbn in Hk; lia|].
    cbn [length WebSocketRead.Conn_Read].
    assert (Hshort : (length (b :: t) = k)%nat).
    { rewrite <- E, length_take. cbn [length] in *. lia. }
    rewrite take_ge, drop_ge by (cbn [length] in *; lia).
    rewrite Hshort. reflexivity.
  - intros b. unfold WebSocketRead.ReadMessage. cbn.
    now destruct inbox.
Qed.

(** The theorem at work: three bytes, the first chunk ending after one. *)
Lemma ReadMessage_does_not_wait_witness :
  (length [7; 8; 9] < 126)%nat
  /\ (0 < 1 < length [7; 8; 9])%nat
  /\ WebSocketRead.ReadMessage ([0x81; 3; 7] :: [8; 9] :: [])
     = ([[8; 9]], Some [7; 0; 0]).
Proof.
  split; [cbn; lia|]. split; [cbn; lia|].
  exact (proj1 (ReadMessage_does_not_wait [7; 8; 9] 1 []
                  ltac:(cbn; lia) ltac:(cbn; lia))).
Defined.

(* ===================================================================== *)
(** * More of the session store                                          *)
(* ===================================================================== *)

(** X9. The bag of a session behaves as a map: [Delete] and [Clear] make
    [Get] give [nil] and [Has] give false, [Set] makes [Has] give true,
    [Set] and [Delete] of one key leave every other key as it was, the
    keys [Keys] lists are those [Has] holds, each once, and no operation
    changes the session's id. *)
Theorem session_bag_laws :
  forall (s : Session.Session) (key other : string) (value : Any),
    (Session.Get (Session.Delete s key) key = ANil
     /\ Session.Has (Session.Delete s key) key = false
     /\ Session.Has (Session.Set_ s key value) key = true)
    /\ (Session.Get (Session.Clear s) other = ANil
        /\ Session.Has (Session.Clear s) other = false
        /\ SessionMore.Keys (Session.Clear s) = [])
    /\ (other <> key ->
        Session.Get (Session.Set_ s key value) other = Session.Get s other
        /\ Session.Has (Session.Set_ s key value) other = Session.Has s other
        /\ Session.Get (Session.Delete s key) other = Session.Get s other
        /\ Session.Has (Session.Delete s key) other = Session.Has s other)
    /\ ((other ∈ SessionMore.Keys s <-> Session.Has s other = true)
        /\ NoDup (SessionMore.Keys s))
    /\ (SessionMore.ID (Session.Set_ s key value) = SessionMore.ID s
        /\ SessionMore.ID (Session.Delete s key) = SessionMore.ID s
        /\ SessionMore.ID (Session.Clear s) = SessionMore.ID s).
Proof.
  intros s key other value.
  unfold Session.Get, Session.Has, Session.Delete, Session.Set_, Session.Clear,
    SessionMore.Keys, SessionMore.ID.
  cbn [Session.data Session.id].
  split.
  { rewrite lookup_delete_eq, lookup_insert_eq.
    split; [reflexivity|]. split.
    - apply bool_decide_eq_false. intros [x Hx]. discriminate.
    - apply bool_decide_eq_true. eauto. }
  split.
  { rewrite lookup_empty, map_to_list_empty.
    split; [reflexivity|]. split; [|reflexivity].
    apply bool_decide_eq_false. intros [x Hx]. discriminate. }
  split.
  { intros Hne.
    rewrite lookup_insert_ne, lookup_delete_ne by congruence. repeat split. }
  split; [|repeat split].
  split.
  - rewrite bool_decide_eq_true. rewrite list_elem_of_fmap. split.
    + intros [[k v] [-> Hin]]. apply elem_of_map_to_list in Hin. cbn. eauto.
    + intros [v Hv]. exists (other, v). split; [reflexivity|].
      now apply elem_of_map_to_list.
  - apply NoDup_fst_map_to_list.
Qed.

(** A key set to [nil] is in the bag for [Has] and [Keys] but reads
    as a missing key with [Get]; [GetString] and [GetInt] give the value
    of a key that holds a string or an int and the zero value, not an
    error, for a key that is missing or holds a value of another type. *)
Theorem session_typed_getters :
  forall (s : Session.Session) (key : string) (str : string) (i : Z),
    (Session.Has (Session.Set_ s key ANil) key = true
     /\ Session.Get (Session.Set_ s key ANil) key
        = Session.Get (Session.Delete s key) key)
    /\ (SessionMore.GetString (Session.Set_ s key (AStr str)) key = str
        /\ SessionMore.GetInt (Session.Set_ s key (AInt i)) key = i
        /\ SessionMore.GetInt (Session.Set_ s key (AStr str)) key = 0
        /\ SessionMore.GetString (Session.Set_ s key (AInt i)) key = ""
        /\ SessionMore.GetString (Session.Delete s key) key = ""
        /\ SessionMore.GetInt (Session.Delete s key) key = 0)
    /\ ((forall x, Session.Get s key <> AStr x) -> SessionMore.GetString s key = "")
    /\ ((forall x, Session.Get s key <> AInt x) -> SessionMore.GetInt s key = 0).
Proof.
  intros s key str i.
  unfold SessionMore.GetString, SessionMore.GetInt, Session.Get, Session.Has,
    Session.Delete, Session.Set_.
  cbn [Session.data]. rewrite !lookup_insert_eq, lookup_delete_eq. cbn.
  split; [split; reflexivity|].
  split; [repeat split|].
  split.
  - intros H. destruct (default ANil (Session.data s !! key)) eqn:E;
      try reflexivity. now specialize (H s0).
  - intros H. destruct (default ANil (Session.data s !! key)) eqn:E;
      try reflexivity. now specialize (H z).
Qed.

(** X10. [GetSession] only adds to the table: every session in it stays
    as it is, the table grows by one entry exactly when the token is not
    in it, and nothing is ever removed. The session cookie is set exactly
    when the request brings no cookie or an empty one; it carries the
    generated token, is HTTP-only, not secure, for the path [/], and for
    a new manager lasts 86400 seconds. *)
Theorem GetSession_only_adds :
  forall (sm : Session.SessionManager) (r : Http.Request) (w : Http.ResponseWriter)
         (fresh : string),
    let sm1 := (Session.GetSession sm r w fresh).1.1 in
    let w1 := (Session.GetSession sm r w fresh).1.2 in
    (forall sid s, Session.sessions sm !! sid = Some s ->
                   Session.sessions sm1 !! sid = Some s)
    /\ size (Session.sessions sm1)
       = (size (Session.sessions sm)
          + match Session.sessions sm !! SessionSpec.token r fresh with
            | Some _ => 0
            | None => 1
            end)%nat
    /\ Session.smMaxAge sm1 = Session.smMaxAge sm
    /\ Http.RCookies w1
       = Http.RCookies w
         ++ (if bool_decide (default "" (Http.Cookies r !! "session_id") = "")
             then [Http.mkCookie "session_id" fresh "/"
                     (Session.smMaxAge sm / 1000000000) true false true]
             else [])
    /\ Session.smMaxAge Session.NewSessionManager / 1000000000 = 86400.
Proof.
  intros sm r w fresh sm1 w1.
  assert (Htab := SessionFacts.GetSession_table sm r w fresh). fold sm1 in Htab.
  split.
  { intros sid s Hs. rewrite Htab.
    destruct (Session.sessions sm !! SessionSpec.token r fresh) eqn:E; [exact Hs|].
    rewrite lookup_insert_ne; [exact Hs|]. intros <-. congruence. }
  split.
  { rewrite Htab.
    destruct (Session.sessions sm !! SessionSpec.token r fresh) eqn:E; [lia|].
    rewrite map_size_insert_None by exact E. lia. }
  split.
  { clear Htab. unfold sm1, Session.GetSession.
    destruct (Http.Cookies r !! "session_id") as [value|];
      [destruct (String.eqb value "")|];
      destruct (Session.sessions sm !! _); reflexivity. }
  split; [|reflexivity].
  clear Htab. unfold w1, Session.GetSession.
  destruct (Http.Cookies r !! "session_id") as [value|]; cbn [from_option id].
  - destruct (String.eqb value "") eqn:E.
    + apply String.eqb_eq in E. subst value.
      rewrite bool_decide_eq_true_2 by reflexivity.
      destruct (Session.sessions sm !! _); reflexivity.
    + apply String.eqb_neq in E. rewrite bool_decide_eq_false_2 by exact E.
      rewrite app_nil_r. destruct (Session.sessions sm !! _); reflexivity.
  - rewrite bool_decide_eq_true_2 by reflexivity.
    destruct (Session.sessions sm !! _); reflexivity.
Qed.

(* ===================================================================== *)
(** * More of the request context                                        *)
(* ===================================================================== *)

Module StrconvFacts.
Import GoStrconv StrconvSpec.

(** A numeral printed by [Itoa] does not start with a plus sign. *)
Lemma string_of_uint_digit (d : Decimal.uint) :
  d <> Decimal.Nil ->
  exists a rest, NilEmpty.string_of_uint d = String a rest /\ a <> "+"%char /\ a <> "-"%char.
Proof.
  destruct d; [congruence| ..]; intros _; cbn; eexists _, _;
    (split; [reflexivity | split; discriminate]).
Qed.

Lemma parse_Itoa (z : Z) : parse (Itoa z) = Some (Z.to_int z).
Proof.
  unfold Itoa, parse.
  assert (Hisi : NilZero.int_of_string (NilZero.string_of_int (Z.to_int z))
                 = Some (Z.to_int z)).
  { apply NilZero.isi; destruct z; cbn; try discriminate;
      intros [= H]; now apply Unsigned.to_uint_nonnil in H. }
  rewrite <- Hisi.
  destruct z as [|p|p]; [reflexivity| |reflexivity].
  cbn [Z.to_int NilZero.string_of_int].
  pose proof (Unsigned.to_uint_nonnil p) as Hnn.
  destruct (string_of_uint_digit (Pos.to_uint p) Hnn) as (a & rest & E & Hplus & _).
  unfold NilZero.string_of_uint.
  destruct (Pos.to_uint p) eqn:Ep; [congruence| ..]; rewrite E;
    destruct a as [[] [] [] [] [] [] [] []]; try reflexivity; congruence.
Qed.

(** Reading what [Itoa] prints gives the number back. *)
Lemma Atoi_Itoa (z : Z) : minInt <= z <= maxInt -> Atoi (Itoa z) = (z, false).
Proof.
  intros [Hlo Hhi]. unfold Atoi. rewrite parse_Itoa, DecimalZ.of_to.
  assert (H1 : (z <? minInt) = false) by (apply Z.ltb_ge; lia).
  assert (H2 : (maxInt <? z) = false) by (apply Z.ltb_ge; lia).
  now rewrite H1, H2.
Qed.

Lemma string_of_uint_nonempty (d : Decimal.uint) : NilZero.string_of_uint d <> "".
Proof. now destruct d. Qed.

Lemma Itoa_nonempty (z : Z) : Itoa z <> "".
Proof.
  unfold Itoa. destruct (Z.to_int z); cbn; [apply string_of_uint_nonempty | discriminate].
Qed.

(** A digit in front of a numeral: what the library's parser makes of
    it, in the accumulator and in the number. *)
Lemma uint_of_char_digit (a : ascii) (d : Decimal.uint) :
  if isDigit a
  then exists d',
         uint_of_char a (Some d) = Some d'
         /\ (forall acc, exists acc',
               Pos.of_uint_acc d' acc = Pos.of_uint_acc d acc'
               /\ Z.pos acc' = 10 * Z.pos acc + digitValue a)
         /\ ((digitValue a = 0 /\ Pos.of_uint d' = Pos.of_uint d)
             \/ exists p, Z.pos p = digitValue a
                          /\ Pos.of_uint d' = N.pos (Pos.of_uint_acc d p))
  else uint_of_char a (Some d) = None.
Proof.
  destruct a as [[] [] [] [] [] [] [] []]; try reflexivity;
    (eexists; split; [reflexivity|]; split;
     [intros acc; eexists; split;
      [reflexivity
      | match goal with |- context [digitValue ?a] =>
          let v := eval vm_compute in (digitValue a) in
          change (digitValue a) with v
        end; lia]
     | first [left; split; reflexivity | right; eexists; split; reflexivity]]).
Qed.

Lemma parse_acc (s : string) :
  forall d acc, NilEmpty.uint_of_string s = Some d ->
                digits s = true
                /\ Z.pos (Pos.of_uint_acc d acc) = valueFrom (Z.pos acc) s.
Proof.
  induction s as [|a s IH]; intros d acc; cbn [NilEmpty.uint_of_string digits valueFrom].
  - intros [= <-]. now split.
  - destruct (NilEmpty.uint_of_string s) as [d0|]; [|discriminate].
    pose proof (uint_of_char_digit a d0) as Ha.
    destruct (isDigit a); [|congruence].
    destruct Ha as (d' & Hc & Hacc & _). rewrite Hc. intros [= <-].
    destruct (Hacc acc) as (acc' & -> & Hv).
    destruct (IH d0 acc' eq_refl) as [Hd ->]. split; [exact Hd|]. now rewrite Hv.
Qed.

Lemma parse_value (s : string) :
  forall d, NilEmpty.uint_of_string s = Some d ->
            digits s = true /\ Z.of_N (Pos.of_uint d) = valueFrom 0 s.
Proof.
  induction s as [|a s IH]; intros d; cbn [NilEmpty.uint_of_string digits valueFrom].
  - intros [= <-]. now split.
  - destruct (NilEmpty.uint_of_string s) as [d0|] eqn:Es; [|discriminate].
    pose proof (uint_of_char_digit a d0) as Ha.
    destruct (isDigit a); [|congruence].
    destruct Ha as (d' & Hc & _ & Hcase). rewrite Hc. intros [= <-].
    destruct Hcase as [[Hz Ho]|(p & Hp & Ho)]; rewrite Ho.
    + destruct (IH d0 eq_refl) as [Hd ->]. split; [exact Hd|]. now rewrite Hz.
    + destruct (parse_acc s d0 p Es) as [Hd Hv]. split; [exact Hd|].
      cbn [Z.of_N]. rewrite Hv, Hp. reflexivity.
Qed.

Lemma digits_parse (s : string) :
  digits s = true -> exists d, NilEmpty.uint_of_string s = Some d.
Proof.
  induction s as [|a s IH]; cbn [NilEmpty.uint_of_string digits]; [eauto|].
  intros H. apply andb_true_iff in H as [Ha Hs]. destruct (IH Hs) as [d0 ->].
  pose proof (uint_of_char_digit a d0) as Hc. rewrite Ha in Hc.
  destruct Hc as (d' & -> & _). eauto.
Qed.

(** The unsigned part: [NilZero.uint_of_string] reads exactly the runs
    of one or more digits, with their value. *)
Lemma uint_read (s : string) :
  match NilZero.uint_of_string s with
  | Some d => negb (String.eqb s "") && digits s = true
              /\ Z.of_uint d = valueFrom 0 s
  | None => negb (String.eqb s "") && digits s = false
  end.
Proof.
  destruct s as [|a s]; [reflexivity|].
  unfold NilZero.uint_of_string.
  destruct (NilEmpty.uint_of_string (String a s)) as [d|] eqn:E.
  - destruct (parse_value _ d E) as [Hd Hv]. split; [now rewrite Hd | exact Hv].
  - cbn [String.eqb negb andb].
    destruct (digits (String a s)) eqn:Hd; [|reflexivity].
    destruct (digits_parse _ Hd) as [d Hp]. congruence.
Qed.

Lemma parse_signs (a : ascii) (r : string) :
  parse (String a r)
  = if Ascii.eqb a "+" then option_map Decimal.Pos (NilZero.uint_of_string r)
    else if Ascii.eqb a "-" then option_map Decimal.Neg (NilZero.uint_of_string r)
    else option_map Decimal.Pos (NilZero.uint_of_string (String a r)).
Proof.
  destruct a as [[] [] [] [] [] [] [] []]; reflexivity.
Qed.

Lemma Atoi_read (s : string) : Atoi s = read s.
Proof.
  unfold Atoi, read. destruct s as [|a r]; [reflexivity|].
  rewrite parse_signs. unfold numeral, value.
  destruct (Ascii.eqb a "+") eqn:Eplus.
  - assert (a = "+"%char) as -> by (now apply Ascii.eqb_eq). cbn [orb Ascii.eqb Bool.eqb].
    pose proof (uint_read r) as Hr.
    destruct (NilZero.uint_of_string r) as [d|]; cbn [option_map].
    + destruct Hr as [-> Hv]. cbn [Z.of_int]. now rewrite Hv.
    + now rewrite Hr.
  - cbn [orb]. destruct (Ascii.eqb a "-") eqn:Eminus.
    + pose proof (uint_read r) as Hr.
      destruct (NilZero.uint_of_string r) as [d|]; cbn [option_map].
      * destruct Hr as [-> Hv]. cbn [Z.of_int]. now rewrite Hv.
      * now rewrite Hr.
    + pose proof (uint_read (String a r)) as Hr.
      destruct (NilZero.uint_of_string (String a r)) as [d|]; cbn [option_map].
      * destruct Hr as [Hn Hv]. cbn [String.eqb negb andb] in Hn. rewrite Hn.
        cbn [Z.of_int]. now rewrite Hv.
      * cbn [String.eqb negb andb] in Hr. now rewrite Hr.
Qed.

End StrconvFacts.

(** X11. [ParamInt] and [QueryInt] read a parameter as [Atoi] reads its
    text, and [Atoi] reads exactly the numerals: for an optional sign
    and one or more decimal digits it gives the number they stand for,
    without an error when the number is in the range of an [int] and as
    the nearest bound with an error when it is not; for every other
    text it gives zero and an error. So a number printed by [Itoa] is
    read back, and a parameter that is missing gives zero and an
    error. *)
Theorem ParamInt_reads_decimal :
  forall (c : Ctx.Context) (name s : string),
    GoStrconv.Atoi s
    = (if StrconvSpec.numeral s
       then
         if StrconvSpec.value s <? GoStrconv.minInt then (GoStrconv.minInt, true)
         else if GoStrconv.maxInt <? StrconvSpec.value s then (GoStrconv.maxInt, true)
         else (StrconvSpec.value s, false)
       else (0, true))
    /\ (Ctx.Param c name = s -> CtxMore.ParamInt c name = GoStrconv.Atoi s)
    /\ (Http.Values_Get (Ctx.query c) name = s ->
        CtxMore.QueryInt c name = GoStrconv.Atoi s)
    /\ (StrconvSpec.numeral s = false ->
        GoStrconv.Atoi s = (0, true)
        /\ (Ctx.Param c name = s -> CtxMore.ParamInt c name = (0, true))
        /\ (Http.Values_Get (Ctx.query c) name = s ->
            CtxMore.QueryInt c name = (0, true)))
    /\ (forall z, GoStrconv.minInt <= z <= GoStrconv.maxInt ->
          GoStrconv.Atoi (Itoa z) = (z, false)
          /\ (Ctx.Param c name = Itoa z -> CtxMore.ParamInt c name = (z, false))
          /\ (Http.Values_Get (Ctx.query c) name = Itoa z ->
              CtxMore.QueryInt c name = (z, false)))
    /\ ((forall m, Ctx.params c = Some m -> m !! name = None) ->
        CtxMore.ParamInt c name = (0, true))
    /\ (Ctx.query c !! name = None -> CtxMore.QueryInt c name = (0, true)).
Proof.
  intros c name s.
  assert (Hread : GoStrconv.Atoi s = StrconvSpec.read s) by apply StrconvFacts.Atoi_read.
  assert (Hp : forall t, Ctx.Param c name = t -> CtxMore.ParamInt c name = GoStrconv.Atoi t).
  { intros t Ht. unfold CtxMore.ParamInt. rewrite Ht.
    destruct (String.eqb t "") eqn:E; [|reflexivity].
    apply String.eqb_eq in E. rewrite E. reflexivity. }
  assert (Hq : forall t, Http.Values_Get (Ctx.query c) name = t ->
                         CtxMore.QueryInt c name = GoStrconv.Atoi t).
  { intros t Ht. unfold CtxMore.QueryInt. rewrite Ht.
    destruct (String.eqb t "") eqn:E; [|reflexivity].
    apply String.eqb_eq in E. rewrite E. reflexivity. }
  split; [exact Hread|]. split; [apply Hp|]. split; [apply Hq|].
  split; [|split; [|split]].
  - intros Hn.
    assert (H0 : GoStrconv.Atoi s = (0, true))
      by (rewrite Hread; unfold StrconvSpec.read; now rewrite Hn).
    split; [exact H0|].
    split; intros Hs; [rewrite (Hp s Hs) | rewrite (Hq s Hs)]; exact H0.
  - intros z Hz. pose proof (StrconvFacts.Atoi_Itoa z Hz) as Hrt.
    split; [exact Hrt|].
    split; intros Hs; [rewrite (Hp _ Hs) | rewrite (Hq _ Hs)]; exact Hrt.
  - intros Hm. unfold CtxMore.ParamInt, Ctx.Param.
    destruct (Ctx.params c) as [m|]; [|reflexivity].
    rewrite (Hm m eq_refl). reflexivity.
  - intros Hm. unfold CtxMore.QueryInt, Http.Values_Get. rewrite Hm. reflexivity.
Qed.

(** The theorem at work: a numeral behind a space is no numeral, and the
    number -17 is read back. *)
Lemma ParamInt_reads_decimal_witness :
  GoStrconv.Atoi " 42" = (0, true)
  /\ GoStrconv.minInt <= -17 <= GoStrconv.maxInt
  /\ Itoa (-17) = "-17"
  /\ GoStrconv.Atoi (Itoa (-17)) = (-17, false).
Proof.
  split.
  - exact (proj1 (proj1 (proj2 (proj2 (proj2
      (ParamInt_reads_decimal (ExampleRuntime.context "GET" "/" "") "id" " 42"))))
      eq_refl)).
  - split; [unfold GoStrconv.minInt, GoStrconv.maxInt; lia|].
    split; [reflexivity|].
    refine (proj1 (proj1 (proj2 (proj2 (proj2 (proj2
      (ParamInt_reads_decimal (ExampleRuntime.context "GET" "/" "") "id" "")))))
      (-17) _)).
    unfold GoStrconv.minInt, GoStrconv.maxInt. lia.
Defined.

Module IPFacts.
Import GoStrings GoStringsFacts.

(** The first piece of a split is the string up to the first
    separator. *)
Lemma Split_head (s : string) (c : ascii) :
  exists first rest,
    Split s c = first :: rest
    /\ Contains first c = false
    /\ (s = first \/ exists tail, s = first +:+ String c tail).
Proof.
  pose proof (Join_Split s c) as Hj.
  destruct (Split s c) as [|first rest] eqn:E;
    [now apply Split_nonempty in E|].
  exists first, rest. split; [reflexivity|]. split.
  - apply (Split_no_sep s c). rewrite E. now left.
  - destruct rest as [|x rest]; [left; now rewrite <- Hj|].
    right. exists (Join (x :: rest) c). now rewrite <- Hj.
Qed.

End IPFacts.

(** X12. [IP] trusts the request's headers before the connection: when
    X-Forwarded-For is set, the result is its text up to the first comma
    (as it stands, without a comma), whatever X-Real-IP and the remote
    address are; otherwise it is X-Real-IP when that is set, and the
    remote address only when neither header is. *)
Theorem IP_precedence :
  forall c : Ctx.Context,
    let forwarded := Http.Header_Get (Ctx.Request c) "X-Forwarded-For" in
    let real := Http.Header_Get (Ctx.Request c) "X-Real-IP" in
    (forwarded <> "" ->
     GoStrings.Contains (Ctx.IP c) "," = false
     /\ (forwarded = Ctx.IP c
         \/ exists tail, forwarded = Ctx.IP c +:+ String "," tail))
    /\ (forwarded = "" -> real <> "" -> Ctx.IP c = real)
    /\ (forwarded = "" -> real = "" -> Ctx.IP c = Http.RemoteAddr (Ctx.Request c)).
Proof.
  intros c forwarded real. unfold Ctx.IP. fold forwarded. fold real.
  split; [|split].
  - intros Hne. apply String.eqb_neq in Hne. rewrite Hne. cbn [negb].
    destruct (IPFacts.Split_head forwarded ",") as (first & rest & -> & Hc & Hs).
    cbn. now split.
  - intros -> Hne. apply String.eqb_neq in Hne. cbn. now rewrite Hne.
  - intros -> ->. reflexivity.
Qed.

(** The theorem at work: a chain of two addresses. *)
Lemma IP_precedence_witness :
  Http.Header_Get (Ctx.Request (RateLimitMore.forwardedContext "10.0.0.1:4000" "1.2.3.4, 5.6.7.8"))
    "X-Forwarded-For" <> ""
  /\ Ctx.IP (RateLimitMore.forwardedContext "10.0.0.1:4000" "1.2.3.4, 5.6.7.8") = "1.2.3.4"
  /\ GoStrings.Contains
       (Ctx.IP (RateLimitMore.forwardedContext "10.0.0.1:4000" "1.2.3.4, 5.6.7.8")) ","
     = false.
Proof.
  split; [discriminate|]. split; [reflexivity|].
  apply (IP_precedence (RateLimitMore.forwardedContext "10.0.0.1:4000" "1.2.3.4, 5.6.7.8")).
  discriminate.
Defined.

(** A new context has form values only for POST, PUT and PATCH: for
    any other method [Form] gives the empty string and [FormDefault] the
    default for every name, whatever the request's form holds; [Query]
    reads the URL's values for every method; and [QueryDefault] and
    [FormDefault] take an empty value for a missing one, so they give the
    empty string only when the default is empty. *)
Theorem NewContext_form_and_query :
  forall (w : Http.ResponseWriter) (r : Http.Request)
         (tmpl : option (string -> Any -> string * bool))
         (sm : Session.SessionManager) (fresh : string) (name fallback : string),
    let c := (Ctx.NewContext w r tmpl sm fresh).1 in
    (Http.Method r <> "POST" -> Http.Method r <> "PUT" -> Http.Method r <> "PATCH" ->
     Ctx.Form c name = "" /\ Ctx.FormDefault c name fallback = fallback)
    /\ (Http.Method r = "POST" \/ Http.Method r = "PUT" \/ Http.Method r = "PATCH" ->
        Ctx.Form c name = Http.Values_Get (Http.PostForm r) name)
    /\ Ctx.Query c name = Http.Values_Get (Http.URLQuery r) name
    /\ (Ctx.QueryDefault c name fallback = "" -> fallback = "")
    /\ (Ctx.FormDefault c name fallback = "" -> fallback = "")
    /\ (Ctx.Query c name <> "" -> Ctx.QueryDefault c name fallback = Ctx.Query c name)
    /\ (Ctx.statusCode c = 200 /\ Ctx.params c = Some ∅ /\ Ctx.data c = ∅).
Proof.
  intros w r tmpl sm fresh name fallback c.
  assert (Hc : Ctx.query c = Http.URLQuery r
               /\ Ctx.form c
                  = (if String.eqb (Http.Method r) "POST"
                        || String.eqb (Http.Method r) "PUT"
                        || String.eqb (Http.Method r) "PATCH"
                     then Http.PostForm r else ∅)
               /\ Ctx.statusCode c = 200 /\ Ctx.params c = Some ∅ /\ Ctx.data c = ∅).
  { unfold c, Ctx.NewContext.
    destruct (Session.GetSession sm r w fresh) as [[sm' w'] sid]. now repeat split. }
  destruct Hc as (Hq & Hf & Hrest).
  unfold Ctx.Form, Ctx.FormDefault, Ctx.Query, Ctx.QueryDefault.
  rewrite Hq, Hf.
  split.
  { intros H1 H2 H3. apply String.eqb_neq in H1, H2, H3. rewrite H1, H2, H3.
    cbn. unfold Http.Values_Get. rewrite lookup_empty. now split. }
  split.
  { intros [H|[H|H]]; rewrite H; reflexivity. }
  split; [reflexivity|].
  split.
  { destruct (String.eqb (Http.Values_Get (Http.URLQuery r) name) "") eqn:E;
      [easy|]. apply String.eqb_neq in E. congruence. }
  split.
  { match goal with |- context [Http.Values_Get ?v name] =>
      destruct (String.eqb (Http.Values_Get v name) "") eqn:E end;
      [easy|]. apply String.eqb_neq in E. congruence. }
  split; [|exact Hrest].
  intros Hne. apply String.eqb_neq in Hne. now rewrite Hne.
Qed.

(** The theorem at work: a DELETE request. *)
Lemma NewContext_form_and_query_witness :
  Http.Method (ExampleRuntime.request "DELETE" "/" "") <> "POST"
  /\ Ctx.Form (ExampleRuntime.context "DELETE" "/" "") "name" = ""
  /\ Ctx.FormDefault (ExampleRuntime.context "DELETE" "/" "") "name" "anonymous"
     = "anonymous".
Proof.
  split; [discriminate|].
  apply (NewContext_form_and_query (Http.NewResponseWriter Http.NotHijacker)
           (ExampleRuntime.request "DELETE" "/" "") None Session.NewSessionManager
           "s1" "name" "anonymous"); discriminate.
Defined.

Module SendFacts.
Import Http Ctx.

Section WithRuntime.
Context {rt : GoRuntime}.

(** The status a writer has sent after [WriteHeader] with [code] when the
    code is not 200, and a [Write]. *)
Lemma status_after_send (w : ResponseWriter) (code : Z) :
  RStatus (Write (if negb (code =? 200) then WriteHeader w code else w) "")
  = Some (default code (RStatus w)).
Proof.
  unfold Write, WriteHeader.
  destruct (code =? 200) eqn:E; cbn [negb]; destruct (RStatus w) eqn:Es; cbn;
    rewrite ?Es; cbn; try reflexivity.
  apply Z.eqb_eq in E. now subst.
Qed.

(** [String]: the status sent and the body. *)
Lemma String_sends (c : Context) (text : string) :
  RStatus (Response (String c text)) = Some (default (statusCode c) (RStatus (Response c)))
  /\ RBody (Response (String c text)) = RBody (Response c) ++ [text]
  /\ statusCode (String c text) = statusCode c.
Proof.
  unfold String. destruct c as [rq w tm pa qu fo se da wr st].
  cbn. unfold Write, WriteHeader. cbn.
  destruct (st =? 200) eqn:E; cbn;
    destruct (RStatus w) eqn:Es; cbn; rewrite ?Es; cbn;
    repeat split; try assumption.
  apply Z.eqb_eq in E. now rewrite E.
Qed.

(** [HTML]: the same. *)
Lemma HTML_sends (c : Context) (html : string) :
  RStatus (Response (HTML c html)) = Some (default (statusCode c) (RStatus (Response c)))
  /\ RBody (Response (HTML c html)) = RBody (Response c) ++ [html]
  /\ statusCode (HTML c html) = statusCode c.
Proof.
  unfold HTML. destruct c as [rq w tm pa qu fo se da wr st].
  cbn. unfold Write, WriteHeader. cbn.
  destruct (st =? 200) eqn:E; cbn;
    destruct (RStatus w) eqn:Es; cbn; rewrite ?Es; cbn;
    repeat split; try assumption.
  apply Z.eqb_eq in E. now rewrite E.
Qed.

End WithRuntime.

End SendFacts.

(** X13. The first response decides the status. For a status code that
    net/http sends as a status and that allows a body (200 to 999, not
    204 or 304), [String] on a writer that has sent nothing sends the
    code and appends its text to the body; a later [HTML], after any
    change of the status code, appends its text to the same body and
    leaves the status sent as it is, while the status code of the
    context is the new one. *)
Theorem first_send_fixes_status :
  forall (c : Ctx.Context) (first second : Z) (t1 t2 : string),
    Http.finalStatus first ->
    Http.bodyAllowed first ->
    Http.RStatus (Ctx.Response c) = None ->
    let c1 := Ctx.String (Ctx.Status c first) t1 in
    let c2 := Ctx.HTML (Ctx.Status c1 second) t2 in
    Http.RStatus (Ctx.Response c1) = Some first
    /\ Http.RBody (Ctx.Response c1) = Http.RBody (Ctx.Response c) ++ [t1]
    /\ Http.RStatus (Ctx.Response c2) = Some first
    /\ Http.RBody (Ctx.Response c2) = Http.RBody (Ctx.Response c) ++ [t1; t2]
    /\ Ctx.statusCode c2 = second.
Proof.
  intros c first second t1 t2 _ _ Hnone c1 c2.
  destruct (SendFacts.String_sends (Ctx.Status c first) t1) as (Hs1 & Hb1 & Hc1).
  fold c1 in Hs1, Hb1, Hc1.
  destruct (SendFacts.HTML_sends (Ctx.Status c1 second) t2) as (Hs2 & Hb2 & Hc2).
  fold c2 in Hs2, Hb2, Hc2.
  change (Ctx.Response (Ctx.Status c first)) with (Ctx.Response c) in Hs1, Hb1.
  change (Ctx.statusCode (Ctx.Status c first)) with first in Hs1.
  change (Ctx.Response (Ctx.Status c1 second)) with (Ctx.Response c1) in Hs2, Hb2.
  change (Ctx.statusCode (Ctx.Status c1 second)) with second in Hs2, Hc2.
  rewrite Hnone in Hs1. rewrite Hs1 in Hs2.
  split; [exact Hs1|]. split; [exact Hb1|]. split; [exact Hs2|].
  split; [|exact Hc2]. rewrite Hb2, Hb1. now rewrite <- app_assoc.
Qed.

(** The theorem at work: a 201 text, then a 500 page. *)
Lemma first_send_fixes_status_witness :
  Http.finalStatus 201 /\ Http.bodyAllowed 201
  /\ Http.RStatus (Ctx.Response (ExampleRuntime.context "GET" "/" "")) = None
  /\ Http.RStatus (Ctx.Response
       (Ctx.HTML (Ctx.Status (Ctx.String (Ctx.Status (ExampleRuntime.context "GET" "/" "")
                                            201) "made") 500) "oops"))
     = Some 201.
Proof.
  assert (Hf : Http.finalStatus 201) by (unfold Http.finalStatus; lia).
  assert (Hb : Http.bodyAllowed 201) by (unfold Http.bodyAllowed; lia).
  split; [exact Hf|]. split; [exact Hb|]. split; [reflexivity|].
  exact (proj1 (proj2 (proj2
    (first_send_fixes_status (ExampleRuntime.context "GET" "/" "") 201 500 "made" "oops"
       Hf Hb eq_refl)))).
Defined.


(** X15. [Upgrade] returns no error exactly when the Connection header
    is the text Upgrade, the Upgrade header is the text websocket, the
    key header is not empty, and the writer gives up its connection and
    takes the handshake and the flush. It has then written one thing to
    the raw connection, the 101 response whose accept line is
    [calculateAcceptKey] of the key, and nothing to the response: status,
    body and the written flag are as before. *)
Theorem Upgrade_succeeds_iff :
  forall (rt : GoRuntime) (c : Ctx.Context),
    let key := Http.Header_Get (Ctx.Request c) "Sec-WebSocket-Key" in
    let r := Ctx.Upgrade c in
    (r.2 = false <->
     Http.Header_Get (Ctx.Request c) "Connection" = "Upgrade"
     /\ Http.Header_Get (Ctx.Request c) "Upgrade" = "websocket"
     /\ key <> ""
     /\ Http.RHijack (Ctx.Response c) = Http.HijackOk false false)
    /\ (r.2 = false ->
        Http.RRaw (Ctx.Response r.1)
        = Some (default [] (Http.RRaw (Ctx.Response c))
                ++ ["HTTP/1.1 101 Switching Protocols" +:+ Ctx.CRLF
                    +:+ "Upgrade: websocket" +:+ Ctx.CRLF
                    +:+ "Connection: Upgrade" +:+ Ctx.CRLF
                    +:+ "Sec-WebSocket-Accept: " +:+ WebSocket.calculateAcceptKey key
                    +:+ Ctx.CRLF +:+ Ctx.CRLF])
        /\ Http.RStatus (Ctx.Response r.1) = Http.RStatus (Ctx.Response c)
        /\ Http.RBody (Ctx.Response r.1) = Http.RBody (Ctx.Response c)
        /\ Ctx.written r.1 = Ctx.written c).
Proof.
  intros rt c key r. subst r. unfold Ctx.Upgrade. fold key.
  destruct (String.eqb (Http.Header_Get (Ctx.Request c) "Connection") "Upgrade") eqn:E1;
    [apply String.eqb_eq in E1 | apply String.eqb_neq in E1]; cbn [negb orb].
  2: { cbn [snd]. split; [|discriminate].
       split; [discriminate | intros (H & _); contradiction]. }
  destruct (String.eqb (Http.Header_Get (Ctx.Request c) "Upgrade") "websocket") eqn:E2;
    [apply String.eqb_eq in E2 | apply String.eqb_neq in E2]; cbn [negb].
  2: { cbn [snd]. split; [|discriminate].
       split; [discriminate | intros (_ & H & _); contradiction]. }
  destruct (String.eqb key "") eqn:E3;
    [apply String.eqb_eq in E3 | apply String.eqb_neq in E3].
  { cbn [snd]. split; [|discriminate].
    split; [discriminate | intros (_ & _ & H & _); contradiction]. }
  destruct (Http.RHijack (Ctx.Response c)) as [| |writeFails flushFails] eqn:Eh.
  - cbn [snd]. split; [|discriminate].
    split; [discriminate | intros (_ & _ & _ & H); discriminate H].
  - cbn [snd]. split; [|discriminate].
    split; [discriminate | intros (_ & _ & _ & H); discriminate H].
  - destruct writeFails.
    + cbn [snd]. split; [|discriminate].
      split; [discriminate | intros (_ & _ & _ & H); discriminate H].
    + cbn [fst snd]. split.
      * split; [intros ->; now repeat split | intros (_ & _ & _ & [= <-]); reflexivity].
      * intros _. destruct c; repeat split.
Qed.

Module EvasionFacts.
Import Http Ctx Middleware RateLimitSpec RateLimitMore.

Section WithRuntime.
Context {rt : GoRuntime}.

(** Callers the limiter has not seen are all accepted, whatever their
    number, when no two of them give the same address. *)
Lemma answers_distinct (limit : Z) (reqs : list (Z * Context)) :
  0 < limit ->
  forall clients : gmap string client,
    NoDup (map (fun rq => IP rq.2) reqs) ->
    (forall rq, rq ∈ reqs -> clients !! IP rq.2 = None) ->
    answers limit reqs clients = map (fun _ => true) reqs.
Proof.
  intros Hlimit. induction reqs as [|[now c] reqs IH]; intros clients Hnd Hnew;
    [reflexivity|].
  cbn [answers map]. cbn [map snd] in Hnd. apply NoDup_cons in Hnd as [Hnotin Hnd].
  assert (Hlive : forall ip, clients !! ip = None -> live now clients ip = None).
  { intros ip Hip. unfold live. now rewrite Hip. }
  assert (Hc : clients !! IP c = None) by (apply (Hnew (now, c)); left).
  assert (He : entry now clients (IP c) = mkClient 0 (now + Minute))
    by (apply LimiterFacts.entry_fresh, Hlive, Hc).
  f_equal.
  - rewrite RateLimitFacts.RateLimit_accept; [reflexivity|]. rewrite He. exact Hlimit.
  - apply IH; [exact Hnd|]. intros rq Hin.
    destruct (RateLimitFacts.RateLimit_map limit now clients c) as [_ Hother].
    rewrite Hother.
    + apply Hlive, Hnew. now right.
    + intros Heq. apply Hnotin. rewrite <- Heq.
      apply (list_elem_of_fmap_2 (fun rq => IP rq.2)) in Hin. exact Hin.
Qed.

(** The address of a caller that names one address in X-Forwarded-For. *)
Lemma IP_forwarded (remote forwarded : string) :
  forwarded <> "" -> GoStrings.Contains forwarded "," = false ->
  IP (forwardedContext remote forwarded) = forwarded.
Proof.
  intros Hne Hc. unfold forwardedContext, NewContext.
  destruct (Session.GetSession _ _ _ _) as [[sm w] sid]. cbn [fst].
  unfold IP. cbn [Request].
  assert (Hg : Header_Get (forwardedRequest remote forwarded) "X-Forwarded-For"
               = forwarded).
  { vm_compute. reflexivity. }
  rewrite Hg. apply String.eqb_neq in Hne. rewrite Hne. cbn [negb].
  now rewrite (TrimFacts.Split_clean "," forwarded Hc).
Qed.

End WithRuntime.

End EvasionFacts.

(** X16. The rate limiter counts by [IP], which takes the request's
    X-Forwarded-For header before the connection's address. So one
    remote address that names a different forwarded address in each
    request (not empty, without a comma) is accepted every time by a
    limiter that starts with no entries, whatever the limit above zero,
    the number of requests and their times. *)
Theorem RateLimit_counts_forwarded_address :
  forall (rt : GoRuntime) (limit : Z) (remote : string) (reqs : list (Z * string)),
    0 < limit ->
    NoDup (map snd reqs) ->
    (forall rq, rq ∈ reqs -> rq.2 <> "" /\ GoStrings.Contains rq.2 "," = false) ->
    RateLimitMore.answers limit
      (map (fun rq => (rq.1, RateLimitMore.forwardedContext remote rq.2)) reqs) ∅
    = map (fun _ => true) reqs.
Proof.
  intros rt limit remote reqs Hlimit Hnd Hok.
  rewrite EvasionFacts.answers_distinct.
  - now rewrite map_map.
  - exact Hlimit.
  - rewrite map_map. cbn [snd].
    erewrite map_ext_in; [exact Hnd|].
    intros rq Hin. apply list_elem_of_In in Hin. destruct (Hok rq Hin) as [Hne Hc].
    now apply EvasionFacts.IP_forwarded.
  - intros rq Hin. apply lookup_empty.
Qed.

(** The theorem at work: three requests in one second against a limit of
    one. *)
Lemma RateLimit_counts_forwarded_address_witness :
  RateLimitMore.answers (rt := ExampleRuntime.runtime) 1
    (map (fun rq => (rq.1, RateLimitMore.forwardedContext "10.0.0.1:4000" rq.2))
       [(0, "a"); (1, "b"); (2, "c")]) ∅
  = [true; true; true].
Proof.
  apply (RateLimit_counts_forwarded_address ExampleRuntime.runtime 1 "10.0.0.1:4000"
           [(0, "a"); (1, "b"); (2, "c")]).
  - lia.
  - apply (bool_decide_unpack _). vm_compute. exact I.
  - intros rq Hin. repeat (apply elem_of_cons in Hin as [->|Hin]);
      [split; [discriminate | reflexivity] ..|]. now apply elem_of_nil in Hin.
Defined.

Module GroupFacts.
Import Http Ctx App AppMore.

Section WithEnv.
Context {rt : GoRuntime} {Env : Type}.

(** The middleware loop records middleware calls only. *)
Lemma runMiddleware_no_handler (ms : list (MiddlewareFunc Env)) :
  forall (i : nat) (s : State Env) (tr : list Event),
    EvHandler ∉ tr -> EvHandler ∉ (runMiddleware ms i s tr).2.
Proof.
  induction ms as [|m ms IH]; intros i s tr Htr; [exact Htr|].
  cbn [runMiddleware].
  assert (Hadd : forall ret, EvHandler ∉ tr ++ [EvMiddleware i ret]).
  { intros ret Hin. apply elem_of_app in Hin as [Hin|Hin]; [now apply Htr|].
    apply list_elem_of_singleton in Hin. discriminate Hin. }
  destruct (m s) as [[|] s'|p s']; cbn [snd]; [apply IH| |]; apply Hadd.
Qed.

(** A loop whose last middleware refuses every request never gets
    through. *)
Lemma runMiddleware_refused (ms : list (MiddlewareFunc Env)) (m : MiddlewareFunc Env) :
  (forall s, exists s', m s = Returned false s') ->
  forall (i : nat) (s : State Env) (tr : list Event) (s' : State Env),
    (runMiddleware (ms ++ [m]) i s tr).1 <> Continue s'.
Proof.
  intros Hm. induction ms as [|m0 ms IH]; intros i s tr s'.
  - cbn [List.app app runMiddleware]. destruct (Hm s) as [s1 ->]. discriminate.
  - cbn [List.app app runMiddleware].
    destruct (m0 s) as [[|] s1|p s1]; [apply IH | discriminate | discriminate].
Qed.

(** [Route] on the router: the methods are looked at after the routes
    that were there. *)
Lemma Route_router (a : App Env) (methods : list string) (path : string)
    (h : option (HandlerFunc Env)) :
  Router.routes (router (Route a methods path h))
  = Router.routes (router a)
    ++ map (fun method => Router.mkRoute method path h (Router.compilePattern path))
         methods.
Proof.
  revert a. induction methods as [|m methods IH]; intros a.
  - cbn. now rewrite app_nil_r.
  - unfold Route in *. cbn [foldl map]. rewrite IH.
    cbn [addRoute router Router.Add Router.routes]. now rewrite <- app_assoc.
Qed.

(** The routes of one template under several methods answer as the
    route of the request's method, when it is among them. *)
Lemma MatchLoop_methods (methods : list string) (path : string)
    (h : option (HandlerFunc Env)) (method : string) (segs : list string) :
  Router.MatchLoop
    (map (fun m => Router.mkRoute m path h (Router.compilePattern path)) methods)
    method segs
  = if bool_decide (method ∈ methods)
    then Router.MatchLoop
           [Router.mkRoute method path h (Router.compilePattern path)] method segs
    else (None, None).
Proof.
  induction methods as [|m methods IH].
  - cbn. rewrite bool_decide_eq_false_2; [reflexivity | apply not_elem_of_nil].
  - cbn [map Router.MatchLoop Router.Method Router.Pattern Router.Handler].
    rewrite String.eqb_refl. cbn [negb].
    destruct (String.eqb m method) eqn:E.
    + apply String.eqb_eq in E. subst m. cbn [negb].
      rewrite bool_decide_eq_true_2 by (left).
      destruct (Router.matchPattern _ segs) as [params matches] eqn:Em.
      destruct matches; [reflexivity|]. rewrite IH.
      cbn [Router.MatchLoop Router.Method Router.Pattern Router.Handler].
      rewrite String.eqb_refl, Em. cbn [negb]. now destruct (bool_decide _).
    + apply String.eqb_neq in E. cbn [negb]. rewrite IH.
      cbn [Router.MatchLoop Router.Method Router.Pattern Router.Handler].
      rewrite String.eqb_refl. cbn [negb].
      destruct (decide (method ∈ methods)) as [Hin|Hin].
      * rewrite !bool_decide_eq_true_2; [reflexivity | now right | exact Hin].
      * rewrite !bool_decide_eq_false_2; [reflexivity | | exact Hin].
        intros Hc. apply elem_of_cons in Hc as [->|Hc]; [now apply E | now apply Hin].
Qed.

End WithEnv.

End GroupFacts.

(** X17. A middleware added to a route group goes to the whole
    application. When it refuses every request (as a guard does for a
    caller that is not logged in), no handler runs for any request, with
    or without the group's prefix in its path. *)
Theorem group_middleware_is_global :
  forall (rt : GoRuntime) (Env : Type) (a : App.App Env) (prefix : string)
         (m : App.MiddlewareFunc Env) (w : Http.ResponseWriter) (r : Http.Request)
         (fresh : string) (sm : Session.SessionManager) (lg : list string) (e : Env),
    (forall s, exists s', m s = App.Returned false s') ->
    let a' := AppMore.app (AppMore.GroupUse (AppMore.Group a prefix) m) in
    App.middleware a' = App.middleware a ++ [m]
    /\ App.router a' = App.router a
    /\ App.EvHandler ∉ App.events (App.ServeHTTP a' w r fresh sm lg e).
Proof.
  intros rt Env a prefix m w r fresh sm lg e Hm a'.
  split; [reflexivity|]. split; [reflexivity|].
  unfold App.ServeHTTP.
  destruct (Ctx.NewContext w r (App.templates a') sm fresh) as [c sm'].
  destruct (App.staticLoop (App.static a') (Http.URLPath r)) as [filePath|].
  { cbn [App.events]. intros Hin. apply list_elem_of_singleton in Hin. discriminate Hin. }
  pose proof (GroupFacts.runMiddleware_no_handler (App.middleware a') 0
                (App.mkState c sm' lg e) [] (not_elem_of_nil _)) as Hno.
  pose proof (GroupFacts.runMiddleware_refused (App.middleware a) m Hm 0
                (App.mkState c sm' lg e) []) as Hstop.
  change (App.middleware a ++ [m]) with (App.middleware a') in Hstop.
  destruct (App.runMiddleware (App.middleware a') 0 (App.mkState c sm' lg e) [])
    as [[s1|s1|p s1] tr]; cbn [fst snd] in *.
  - now contradiction (Hstop s1).
  - exact Hno.
  - exact Hno.
Qed.

(** The theorem at work: the route [/] is outside the group [/admin]. *)
Lemma group_middleware_is_global_witness :
  App.EvHandler ∉ App.events (PipelineSpec.serve AppMore.groupedApp "GET" "/" "").
Proof.
  apply (group_middleware_is_global ExampleRuntime.runtime unit
           (AppMore.app
              (AppMore.GroupGet
                 (AppMore.Group
                    (App.Get (App.New (fun _ _ => ("", true))) "/" (Some PipelineSpec.hello))
                    "/admin")
                 "/users" (Some PipelineSpec.hello)))
           "/admin" AppMore.deny).
  intros s. exists s. reflexivity.
Defined.

(** [Route] registers the template once for each method, behind the
    routes that are there: a request an earlier route matches is
    answered as before; any other request is answered by the new
    template when its method is one of the methods, and by no route
    otherwise. *)
Theorem Route_registers_each_method :
  forall (Env : Type) (a : App.App Env) (methods : list string)
         (path : string) (h : option (App.HandlerFunc Env)) (method p : string),
    Router.Match (App.router (AppMore.Route a methods path h)) method p
    = match (Router.Match (App.router a) method p).2 with
      | Some _ => Router.Match (App.router a) method p
      | None =>
          if bool_decide (method ∈ methods)
          then Router.Match (Router.Add Router.NewRouter method path h) method p
          else (None, None)
      end.
Proof.
  intros Env a methods path h method p.
  unfold Router.Match. rewrite GroupFacts.Route_router.
  set (segs := GoStrings.Split (GoStrings.Trim p "/") "/").
  set (extra := map _ methods).
  assert (Happ : forall rs : list (Router.Route (App.HandlerFunc Env)),
             Router.MatchLoop (rs ++ extra) method segs
             = match (Router.MatchLoop rs method segs).2 with
               | Some _ => Router.MatchLoop rs method segs
               | None => Router.MatchLoop extra method segs
               end).
  { induction rs as [|rt0 rs IH].
    - cbn [List.app app Router.MatchLoop snd]. reflexivity.
    - cbn [List.app app Router.MatchLoop].
      destruct (negb (String.eqb (Router.Method rt0) method)); [exact IH|].
      rewrite MatchFacts.matchPattern_zip.
      destruct (Nat.eqb _ _ && RouterSpec.literals_ok _ _); [reflexivity | exact IH]. }
  rewrite Happ. subst extra. rewrite GroupFacts.MatchLoop_methods.
  reflexivity.
Qed.



Module CORSFacts.
Import Http Ctx MiddlewareMore.

(** The origin loop: some entry is the wildcard or the origin. *)
Lemma originAllowed_spec (allowOrigins : list string) (origin : string) :
  originAllowed allowOrigins origin = true
  <-> "*" ∈ allowOrigins \/ origin ∈ allowOrigins.
Proof.
  induction allowOrigins as [|x xs IH]; cbn [originAllowed].
  - split; [discriminate|]. intros [H|H]; now apply elem_of_nil in H.
  - destruct (String.eqb x "*") eqn:E1; cbn [orb].
    { apply String.eqb_eq in E1. subst x. split; [|reflexivity]. intros _. left. left. }
    destruct (String.eqb x origin) eqn:E2.
    { apply String.eqb_eq in E2. subst x. split; [|reflexivity]. intros _. right. left. }
    apply String.eqb_neq in E1, E2. rewrite IH. split.
    + intros [H|H]; [left | right]; now right.
    + intros [H|H]; apply elem_of_cons in H as [H|H];
        [now contradiction E1 | now left | now contradiction E2 | now right].
Qed.

End CORSFacts.

(** X19. The CORS middleware never refuses an origin and never sends
    anything. It returns false exactly for the method OPTIONS, and then
    has put 204 in the context's status code without sending it; status,
    body and the written flag of the response are always as before. When
    the configured origins hold the wildcard or the request's origin, the
    allow-origin header is the request's Origin header as it came (so
    the default configuration names every origin), otherwise the header
    is left as it was; the allow-credentials header is true in both
    cases. *)
Theorem CORS_never_sends :
  forall (config : MiddlewareMore.CORSConfig) (c : Ctx.Context),
    let origin := Http.Header_Get (Ctx.Request c) "Origin" in
    let r := MiddlewareMore.CORSWithConfig config c in
    (r.2 = false <-> Http.Method (Ctx.Request c) = "OPTIONS")
    /\ (r.2 = false -> Ctx.statusCode r.1 = 204)
    /\ Http.RStatus (Ctx.Response r.1) = Http.RStatus (Ctx.Response c)
    /\ Http.RBody (Ctx.Response r.1) = Http.RBody (Ctx.Response c)
    /\ Ctx.written r.1 = Ctx.written c
    /\ Http.RHeader (Ctx.Response r.1) !! "Access-Control-Allow-Credentials" = Some "true"
    /\ Http.RHeader (Ctx.Response r.1) !! "Access-Control-Allow-Origin"
       = (if bool_decide ("*" ∈ MiddlewareMore.AllowOrigins config
                          \/ origin ∈ MiddlewareMore.AllowOrigins config)
          then Some origin
          else Http.RHeader (Ctx.Response c) !! "Access-Control-Allow-Origin")
    /\ Http.RHeader (Ctx.Response (MiddlewareMore.CORS c).1)
         !! "Access-Control-Allow-Origin" = Some origin.
Proof.
  intros config c origin r.
  assert (Hgen : forall config' : MiddlewareMore.CORSConfig,
             Http.RHeader (Ctx.Response (MiddlewareMore.CORSWithConfig config' c).1)
               !! "Access-Control-Allow-Origin"
             = (if MiddlewareMore.originAllowed (MiddlewareMore.AllowOrigins config') origin
                then Some origin
                else Http.RHeader (Ctx.Response c) !! "Access-Control-Allow-Origin")).
  { intros config'. unfold MiddlewareMore.CORSWithConfig. fold origin.
    destruct c as [rq w tm pa qu fo se da wr st].
    destruct (MiddlewareMore.originAllowed _ origin);
      destruct (String.eqb _ "OPTIONS");
      cbn [fst Ctx.Status Ctx.setStatusCode Ctx.Header Ctx.setResponse Ctx.Response
           Http.Header_Set Http.RHeader];
      rewrite !lookup_insert_ne by discriminate;
      first [apply lookup_insert_eq | reflexivity]. }
  split; [|split; [|split; [|split; [|split; [|split; [|split]]]]]].
  - subst r. unfold MiddlewareMore.CORSWithConfig, CtxMore.Method.
    destruct c as [rq w tm pa qu fo se da wr st].
    destruct (MiddlewareMore.originAllowed _ _);
      cbn [Ctx.Header Ctx.setResponse Ctx.Request];
      (destruct (String.eqb (Http.Method rq) "OPTIONS") eqn:E;
       [apply String.eqb_eq in E | apply String.eqb_neq in E]; cbn [snd];
       split; [intros _; exact E | reflexivity | discriminate | intros H; now contradiction E]).
  - subst r. unfold MiddlewareMore.CORSWithConfig.
    destruct (String.eqb _ "OPTIONS"); [reflexivity | discriminate].
  - subst r. unfold MiddlewareMore.CORSWithConfig.
    destruct c as [rq w tm pa qu fo se da wr st].
    now destruct (MiddlewareMore.originAllowed _ _); destruct (String.eqb _ "OPTIONS").
  - subst r. unfold MiddlewareMore.CORSWithConfig.
    destruct c as [rq w tm pa qu fo se da wr st].
    now destruct (MiddlewareMore.originAllowed _ _); destruct (String.eqb _ "OPTIONS").
  - subst r. unfold MiddlewareMore.CORSWithConfig.
    destruct c as [rq w tm pa qu fo se da wr st].
    now destruct (MiddlewareMore.originAllowed _ _); destruct (String.eqb _ "OPTIONS").
  - subst r. unfold MiddlewareMore.CORSWithConfig.
    destruct c as [rq w tm pa qu fo se da wr st].
    destruct (MiddlewareMore.originAllowed _ _); destruct (String.eqb _ "OPTIONS");
      cbn [fst Ctx.Status Ctx.setStatusCode Ctx.Header Ctx.setResponse Ctx.Response
           Http.Header_Set Http.RHeader];
      apply lookup_insert_eq.
  - subst r. rewrite Hgen.
    destruct (MiddlewareMore.originAllowed _ origin) eqn:Ea.
    + apply CORSFacts.originAllowed_spec in Ea. now rewrite bool_decide_eq_true_2.
    + rewrite bool_decide_eq_false_2; [reflexivity|].
      intros H. apply CORSFacts.originAllowed_spec in H. congruence.
  - unfold MiddlewareMore.CORS. rewrite Hgen. reflexivity.
Qed.



(** X21. [RequireAuth] lets a request through exactly when the session
    of the context holds a value other than [nil] under [user_id], and
    then copies that value into the context's data; otherwise it sets
    status code 401. So it passes after the session's [Set] of any
    value but [nil], the empty string included, and refuses a new
    session, and again after [Delete] of the key or [Clear]. *)
Theorem RequireAuth_reads_session :
  forall (rt : GoRuntime) (sm : Session.SessionManager) (c : Ctx.Context) (v : Any),
    let sid := CtxMore.Session c in
    let set := Session.through (fun s => Session.Set_ s "user_id" v) sm sid in
    ((MiddlewareMore.RequireAuth sm c).2 = true
     <-> Session.Get (Session.deref sm sid) "user_id" <> ANil)
    /\ ((MiddlewareMore.RequireAuth sm c).2 = true ->
        Ctx.Get (MiddlewareMore.RequireAuth sm c).1 "user_id"
        = Session.Get (Session.deref sm sid) "user_id")
    /\ ((MiddlewareMore.RequireAuth sm c).2 = false ->
        Ctx.statusCode (MiddlewareMore.RequireAuth sm c).1 = 401)
    /\ (is_Some (Session.sessions sm !! sid) -> v <> ANil ->
        (MiddlewareMore.RequireAuth set c).2 = true
        /\ Ctx.Get (MiddlewareMore.RequireAuth set c).1 "user_id" = v
        /\ (MiddlewareMore.RequireAuth
              (Session.through (fun s => Session.Delete s "user_id") set sid) c).2 = false
        /\ (MiddlewareMore.RequireAuth (Session.through Session.Clear set sid) c).2 = false)
    /\ (Session.data (Session.deref sm sid) = ∅ ->
        (MiddlewareMore.RequireAuth sm c).2 = false).
Proof.
  intros rt sm c v sid set.
  assert (Hiff : forall sm', (MiddlewareMore.RequireAuth sm' c).2 = true
                             <-> Session.Get (Session.deref sm' sid) "user_id" <> ANil).
  { intros sm'. unfold MiddlewareMore.RequireAuth. fold sid.
    destruct (Session.Get (Session.deref sm' sid) "user_id"); cbn [snd];
      split; try discriminate; try reflexivity; intros H; now contradiction H. }
  assert (Hfalse : forall sm', Session.Get (Session.deref sm' sid) "user_id" = ANil ->
                               (MiddlewareMore.RequireAuth sm' c).2 = false).
  { intros sm' Hg. destruct (MiddlewareMore.RequireAuth sm' c).2 eqn:E; [|reflexivity].
    apply Hiff in E. now contradiction E. }
  split; [apply Hiff|]. split; [|split; [|split]].
  - unfold MiddlewareMore.RequireAuth. fold sid.
    destruct (Session.Get (Session.deref sm sid) "user_id"); cbn [fst snd];
      try discriminate; intros _; unfold Ctx.Get, Ctx.Set_; cbn;
      now rewrite lookup_insert_eq.
  - unfold MiddlewareMore.RequireAuth. fold sid.
    destruct (Session.Get (Session.deref sm sid) "user_id"); cbn [fst snd];
      try discriminate; intros _. now rewrite LimiterFacts.JSON_statusCode.
  - intros [s0 Hs0] Hv.
    assert (Hset : Session.Get (Session.deref set sid) "user_id" = v).
    { unfold set, Session.through, Session.deref, Session.Get. cbn.
      rewrite lookup_alter_eq, Hs0. cbn. now rewrite lookup_insert_eq. }
    split; [apply Hiff; now rewrite Hset|].
    split.
    { unfold MiddlewareMore.RequireAuth. fold sid. rewrite Hset.
      destruct v; try (now contradiction Hv); unfold Ctx.Get, Ctx.Set_; cbn;
        now rewrite lookup_insert_eq. }
    split; apply Hfalse.
    + unfold set, Session.through, Session.deref, Session.Get. cbn.
      rewrite !lookup_alter_eq, Hs0. cbn. now rewrite lookup_delete_eq.
    + unfold set, Session.through, Session.deref, Session.Get. cbn.
      rewrite !lookup_alter_eq, Hs0. cbn. now rewrite lookup_empty.
  - intros He. apply Hfalse. unfold Session.Get. now rewrite He, lookup_empty.
Qed.

(** The theorem at work: the session of a first request, then logged
    in. *)
Lemma RequireAuth_reads_session_witness :
  (MiddlewareMore.RequireAuth (rt := ExampleRuntime.runtime)
     (ExampleMore.headerSessions "Accept" "*/*")
     (ExampleMore.headerContext "Accept" "*/*")).2 = false
  /\ (MiddlewareMore.RequireAuth (rt := ExampleRuntime.runtime)
        (Session.through (fun s => Session.Set_ s "user_id" (AStr ""))
           (ExampleMore.headerSessions "Accept" "*/*") "s1")
        (ExampleMore.headerContext "Accept" "*/*")).2 = true.
Proof.
  split.
  - refine (proj2 (proj2 (proj2 (proj2
      (RequireAuth_reads_session ExampleRuntime.runtime
         (ExampleMore.headerSessions "Accept" "*/*")
         (ExampleMore.headerContext "Accept" "*/*") (AStr ""))))) _).
    vm_compute. reflexivity.
  - refine (proj1 (proj1 (proj2 (proj2 (proj2
      (RequireAuth_reads_session ExampleRuntime.runtime
         (ExampleMore.headerSessions "Accept" "*/*")
         (ExampleMore.headerContext "Accept" "*/*") (AStr ""))))) _ _)).
    + vm_compute. eexists. reflexivity.
    + discriminate.
Defined.

Module PasswordFacts.
Import Base64 Base64Decode Auth.

(** A shifted number and a smaller one share no bit. *)
Lemma land_shiftl_small (x y k : Z) :
  0 <= k -> 0 <= y < 2 ^ k -> Z.land (Z.shiftl x k) y = 0.
Proof.
  intros Hk Hy. apply Z.bits_inj'. intros n Hn.
  rewrite Z.land_spec, Z.bits_0.
  destruct (Z.ltb_spec n k) as [Hlt|Hge].
  - rewrite Z.shiftl_spec_low by lia. reflexivity.
  - assert (Hb : Z.testbit y n = false).
    { destruct (Z.eq_dec y 0) as [->|Hy0]; [apply Z.bits_0|].
      apply Z.bits_above_log2; [lia|].
      apply Z.log2_lt_pow2; [lia|].
      apply Z.lt_le_trans with (2 ^ k); [lia|].
      apply Z.pow_le_mono_r; lia. }
    rewrite Hb. apply Bool.andb_false_r.
Qed.

Lemma lor_shiftl_add (x y k : Z) :
  0 <= k -> 0 <= y < 2 ^ k -> Z.lor (Z.shiftl x k) y = x * 2 ^ k + y.
Proof.
  intros Hk Hy. pose proof (land_shiftl_small x y k Hk Hy) as H0.
  rewrite <- Z.lxor_lor by exact H0.
  rewrite <- Z.add_nocarry_lxor by exact H0.
  now rewrite Z.shiftl_mul_pow2.
Qed.

(** The bits of a quantum are its digits in base 64. *)
Lemma val_add (d0 d1 d2 d3 : Z) :
  0 <= d1 < 64 -> 0 <= d2 < 64 -> 0 <= d3 < 64 ->
  val d0 d1 d2 d3 = ((d0 * 64 + d1) * 64 + d2) * 64 + d3.
Proof.
  intros H1 H2 H3. unfold val.
  replace (Z.shiftl d0 18) with (Z.shiftl (Z.shiftl d0 6) 12)
    by (rewrite Z.shiftl_shiftl by lia; reflexivity).
  rewrite <- Z.shiftl_lor.
  rewrite (lor_shiftl_add d0 d1 6) by lia.
  replace (Z.shiftl (d0 * 2 ^ 6 + d1) 12) with (Z.shiftl (Z.shiftl (d0 * 2 ^ 6 + d1) 6) 6)
    by (rewrite Z.shiftl_shiftl by lia; reflexivity).
  rewrite <- Z.shiftl_lor.
  rewrite (lor_shiftl_add _ d2 6) by lia.
  rewrite (lor_shiftl_add _ d3 6) by lia.
  change (2 ^ 6) with 64. reflexivity.
Qed.

(** The four digits the encoder makes of three bytes, and the bits they
    make. *)
Lemma quantum3 (a b c : Z) :
  0 <= a < 256 -> 0 <= b < 256 -> 0 <= c < 256 ->
  let d0 := Z.shiftr a 2 in
  let d1 := Z.lor (Z.shiftl (Z.land a 3) 4) (Z.shiftr b 4) in
  let d2 := Z.lor (Z.shiftl (Z.land b 15) 2) (Z.shiftr c 6) in
  let d3 := Z.land c 63 in
  (0 <= d0 < 64 /\ 0 <= d1 < 64 /\ 0 <= d2 < 64 /\ 0 <= d3 < 64)
  /\ val d0 d1 d2 d3 = a * 65536 + b * 256 + c.
Proof.
  intros Ha Hb Hc d0 d1 d2 d3.
  assert (E0 : d0 = a / 4) by (subst d0; now rewrite Z.shiftr_div_pow2 by lia).
  assert (E1 : d1 = (a mod 4) * 16 + b / 16).
  { subst d1. change 3 with (Z.ones 2). rewrite Z.land_ones by lia.
    rewrite (Z.shiftr_div_pow2 b 4) by lia.
    rewrite lor_shiftl_add; [reflexivity | lia |].
    change (2 ^ 4) with 16. split; [apply Z.div_pos; lia | apply Z.div_lt_upper_bound; lia]. }
  assert (E2 : d2 = (b mod 16) * 4 + c / 64).
  { subst d2. change 15 with (Z.ones 4). rewrite Z.land_ones by lia.
    rewrite (Z.shiftr_div_pow2 c 6) by lia.
    rewrite lor_shiftl_add; [reflexivity | lia |].
    change (2 ^ 2) with 4. change (2 ^ 6) with 64.
    split; [apply Z.div_pos; lia | apply Z.div_lt_upper_bound; lia]. }
  assert (E3 : d3 = c mod 64).
  { subst d3. change 63 with (Z.ones 6). now rewrite Z.land_ones by lia. }
  change (2 ^ 2) with 4 in *. change (2 ^ 4) with 16 in *. change (2 ^ 6) with 64 in *.
  assert (B : (0 <= d0 < 64 /\ 0 <= d1 < 64 /\ 0 <= d2 < 64 /\ 0 <= d3 < 64)).
  { rewrite E0, E1, E2, E3. clear E0 E1 E2 E3. Z.div_mod_to_equations. lia. }
  split; [exact B|].
  rewrite val_add by tauto.
  rewrite E0, E1, E2, E3. clear. Z.div_mod_to_equations. lia.
Qed.

Lemma quantum_bytes (a b c : Z) :
  0 <= a < 256 -> 0 <= b < 256 -> 0 <= c < 256 ->
  let v := a * 65536 + b * 256 + c in
  byte (Z.shiftr v 16) = a /\ byte (Z.shiftr v 8) = b /\ byte v = c.
Proof.
  intros Ha Hb Hc v. subst v. unfold byte.
  rewrite !Z.shiftr_div_pow2 by lia. change (2 ^ 16) with 65536. change (2 ^ 8) with 256.
  Z.div_mod_to_equations. lia.
Qed.

(** The decode map takes a digit of the alphabet back to its value. *)
Lemma decodeMap_digit (v : Z) : 0 <= v < 64 -> decodeMap (digit v) = Some v.
Proof.
  intros Hv.
  pose proof (ReadFacts.below_all
                (fun v => match decodeMap (digit v) with
                          | Some x => x =? v
                          | None => false
                          end) 64 ltac:(vm_compute; reflexivity) v ltac:(lia)) as H.
  cbv beta in H. destruct (decodeMap (digit v)) as [x|]; [|discriminate H].
  apply Z.eqb_eq in H. now subst.
Qed.

(** One full quantum of the encoder, decoded. *)
Lemma decode_quantum (a b c : Z) (rest : string) :
  0 <= a < 256 -> 0 <= b < 256 -> 0 <= c < 256 ->
  decode
    (String (digit (Z.shiftr a 2))
       (String (digit (Z.lor (Z.shiftl (Z.land a 3) 4) (Z.shiftr b 4)))
          (String (digit (Z.lor (Z.shiftl (Z.land b 15) 2) (Z.shiftr c 6)))
             (String (digit (Z.land c 63)) rest)))) []
  = match decode rest [] with
    | Some more => Some (a :: b :: c :: more)
    | None => None
    end.
Proof.
  intros Ha Hb Hc.
  destruct (quantum3 a b c Ha Hb Hc) as ((B0 & B1 & B2 & B3) & Hv).
  cbn [decode]. rewrite (decodeMap_digit _ B0). cbn [app].
  rewrite (decodeMap_digit _ B1). cbn [app].
  rewrite (decodeMap_digit _ B2). cbn [app].
  rewrite (decodeMap_digit _ B3).
  cbv zeta. rewrite Hv.
  destruct (quantum_bytes a b c Ha Hb Hc) as (-> & -> & ->).
  reflexivity.
Qed.

(** The last quantum of one byte and of two bytes, with its padding. *)
Lemma decode_one (a : Z) : 0 <= a < 256 -> decode (EncodeToString [a]) [] = Some [a].
Proof.
  intros Ha.
  pose proof (ReadFacts.below_all
                (fun a => match decode (EncodeToString [a]) [] with
                          | Some [x] => x =? a
                          | _ => false
                          end) 256 ltac:(vm_compute; reflexivity) a ltac:(lia)) as H.
  cbv beta in H.
  destruct (decode (EncodeToString [a]) []) as [[|x [|y l]]|]; try discriminate H.
  apply Z.eqb_eq in H. now subst.
Qed.

Lemma decode_two (a b : Z) :
  0 <= a < 256 -> 0 <= b < 256 -> decode (EncodeToString [a; b]) [] = Some [a; b].
Proof.
  intros Ha Hb.
  destruct (quantum3 a b 0 Ha Hb ltac:(lia)) as ((B0 & B1 & B2 & _) & Hv).
  change (Z.shiftr 0 6) with 0 in *. change (Z.land 0 63) with 0 in *.
  rewrite Z.lor_0_r in *.
  cbn [EncodeToString decode]. rewrite (decodeMap_digit _ B0). cbn [app].
  rewrite (decodeMap_digit _ B1). cbn [app].
  rewrite (decodeMap_digit _ B2). cbn [app].
  change (decodeMap "=") with (@None Z). cbv iota.
  change (isNewline "=") with false. cbv iota.
  change (negb (Ascii.eqb "=" "=")) with false. cbv iota.
  cbn [skipNewlines]. cbv zeta. rewrite Hv.
  destruct (quantum_bytes a b 0 Ha Hb ltac:(lia)) as (-> & -> & _).
  reflexivity.
Qed.

(** Induction on a list three elements at a time. *)
Lemma list_ind3 (P : list Z -> Prop) :
  P [] -> (forall a, P [a]) -> (forall a b, P [a; b]) ->
  (forall a b c l, P l -> P (a :: b :: c :: l)) ->
  forall l, P l.
Proof.
  intros H0 H1 H2 H3 l.
  assert (H : P l /\ (forall a, P (a :: l)) /\ (forall a b, P (a :: b :: l))).
  { induction l as [|x l (IH0 & IH1 & IH2)]; [now repeat split|].
    split; [apply IH1|]. split; [intros a; apply IH2|]. intros a b. now apply H3. }
  exact (proj1 H).
Qed.

(** Decoding takes back what the encoder made of a list of bytes. *)
Lemma decode_encode (bs : list Z) :
  Forall (fun b => 0 <= b < 256) bs -> DecodeString (EncodeToString bs) = Some bs.
Proof.
  unfold DecodeString. induction bs as [|a|a b|a b c l IH] using list_ind3; intros Hbs.
  - reflexivity.
  - apply decode_one. now inversion Hbs.
  - inversion Hbs as [|? ? Ha Hbs']. inversion Hbs' as [|? ? Hb _]. subst.
    now apply decode_two.
  - inversion Hbs as [|? ? Ha Hbs1]. inversion Hbs1 as [|? ? Hb Hbs2].
    inversion Hbs2 as [|? ? Hc Hl]. subst.
    cbn [EncodeToString]. rewrite decode_quantum by assumption.
    now rewrite (IH Hl).
Qed.

Lemma bytes_of_string_range (s : string) :
  Forall (fun b => 0 <= b < 256) (bytes_of_string s).
Proof.
  induction s as [|a s IH]; [constructor|]. cbn [bytes_of_string].
  constructor; [|exact IH]. unfold byte_of_ascii.
  pose proof (N_ascii_bounded a). lia.
Qed.

Lemma string_of_bytes_of_string (s : string) : string_of_bytes (bytes_of_string s) = s.
Proof.
  induction s as [|a s IH]; [reflexivity|]. cbn [bytes_of_string string_of_bytes].
  rewrite IH. f_equal. unfold ascii_of_byte, byte_of_ascii.
  now rewrite N2Z.id, ascii_N_embedding.
Qed.

(** The stored password is the password, encoded. *)
Lemma verifyPassword_hashPassword (p q : string) :
  verifyPassword (hashPassword p) q = String.eqb p q.
Proof.
  unfold verifyPassword, hashPassword.
  rewrite decode_encode by apply bytes_of_string_range.
  now rewrite string_of_bytes_of_string.
Qed.

End PasswordFacts.

(** X22. The stored form of a password gives the password back:
    decoding what [hashPassword] returns yields the bytes of the
    password, for every password, and [verifyPassword] accepts a text
    for that stored form exactly when it is the password. *)
Theorem hashPassword_is_reversible :
  forall p q : string,
    Base64Decode.DecodeString (Auth.hashPassword p) = Some (bytes_of_string p)
    /\ string_of_bytes (bytes_of_string p) = p
    /\ (Auth.verifyPassword (Auth.hashPassword p) q = true <-> q = p).
Proof.
  intros p q. split; [|split].
  - apply PasswordFacts.decode_encode, PasswordFacts.bytes_of_string_range.
  - apply PasswordFacts.string_of_bytes_of_string.
  - rewrite PasswordFacts.verifyPassword_hashPassword, String.eqb_eq.
    split; intros H; now symmetry.
Qed.

Module AuthFacts.
Import Auth.

(** [load] after a write to the heap. *)
Lemma load_insert (am : AuthManager) (l l' : loc) (u : User) us ss :
  load (mkAuthManager (<[l := u]> (heap am)) us ss) l'
  = if decide (l = l') then u else load am l'.
Proof.
  unfold load. cbn [heap]. destruct (decide (l = l')) as [->|Hne].
  - now rewrite lookup_insert_eq.
  - now rewrite lookup_insert_ne.
Qed.

Lemma load_same (am : AuthManager) us ss (l : loc) :
  load (mkAuthManager (heap am) us ss) l = load am l.
Proof. reflexivity. Qed.

Lemma load_wellformed (am : AuthManager) (id : string) (l : loc) :
  wellformed am -> users am !! id = Some l ->
  heap am !! l = Some (load am l) /\ ID (load am l) = id.
Proof.
  intros [Hu _] Hl. destruct (Hu id l Hl) as (u & Hh & Hid).
  unfold load. rewrite Hh. now split.
Qed.

Lemma fresh_heap (am : AuthManager) (l : loc) :
  is_Some (heap am !! l) -> l <> fresh (dom (heap am)).
Proof.
  intros Hl Heq. apply elem_of_dom in Hl. rewrite Heq in Hl.
  now apply is_fresh in Hl.
Qed.

Section WithRange.
Variable range : gmap string loc -> list (string * loc).
Hypothesis Hrange : visits range.

Lemma range_lookup (m : gmap string loc) (k : string) (l : loc) :
  (k, l) ∈ range m <-> m !! k = Some l.
Proof. rewrite (Hrange m). apply elem_of_map_to_list. Qed.

Lemma taken_false (am : AuthManager) (visit : list (string * loc))
    (username email : string) :
  taken am visit username email = false ->
  forall k l, (k, l) ∈ visit ->
    Username (load am l) <> username /\ Email (load am l) <> email.
Proof.
  induction visit as [|[k0 l0] visit IH]; cbn [taken]; intros Ht k l Hin.
  - now apply elem_of_nil in Hin.
  - destruct (String.eqb (Username (load am l0)) username) eqn:E1; [discriminate Ht|].
    destruct (String.eqb (Email (load am l0)) email) eqn:E2; [discriminate Ht|].
    cbn [orb] in Ht. apply String.eqb_neq in E1, E2.
    apply elem_of_cons in Hin as [[= -> ->]|Hin]; [now split | exact (IH Ht k l Hin)].
Qed.

Lemma taken_true (am : AuthManager) (visit : list (string * loc))
    (username email : string) (k : string) (l : loc) :
  (k, l) ∈ visit ->
  Username (load am l) = username \/ Email (load am l) = email ->
  taken am visit username email = true.
Proof.
  induction visit as [|[k0 l0] visit IH]; cbn [taken]; intros Hin Hm.
  - now apply elem_of_nil in Hin.
  - destruct (String.eqb (Username (load am l0)) username) eqn:E1; [reflexivity|].
    destruct (String.eqb (Email (load am l0)) email) eqn:E2; [reflexivity|].
    cbn [orb]. apply String.eqb_neq in E1, E2.
    apply elem_of_cons in Hin as [[= -> ->]|Hin]; [tauto | exact (IH Hin Hm)].
Qed.

(** The loop of [Login] finds the user when one entry answers to the
    name and every entry that does points to that user. *)
Lemma find_the_one (am : AuthManager) (visit : list (string * loc))
    (username : string) (l : loc) :
  (exists k, (k, l) ∈ visit) ->
  (forall k l', (k, l') ∈ visit ->
     Username (load am l') = username \/ Email (load am l') = username -> l' = l) ->
  Username (load am l) = username \/ Email (load am l) = username ->
  find am visit username = Some l.
Proof.
  intros [k Hin] Hall Hl. induction visit as [|[k0 l0] visit IH]; cbn [find].
  - now apply elem_of_nil in Hin.
  - destruct (String.eqb (Username (load am l0)) username
              || String.eqb (Email (load am l0)) username) eqn:E.
    + f_equal. apply (Hall k0); [left|].
      apply orb_true_iff in E as [E|E]; apply String.eqb_eq in E; tauto.
    + apply elem_of_cons in Hin as [[= -> ->]|Hin].
      * apply orb_false_iff in E as [E1 E2]. apply String.eqb_neq in E1, E2. tauto.
      * apply IH; [exact Hin|]. intros k' l' Hin'. apply (Hall k'). now right.
Qed.

Lemma find_some (am : AuthManager) (visit : list (string * loc))
    (username : string) (l : loc) :
  find am visit username = Some l -> exists k, (k, l) ∈ visit.
Proof.
  induction visit as [|[k0 l0] visit IH]; cbn [find]; [discriminate|].
  destruct (_ || _).
  - intros [= ->]. exists k0. left.
  - intros H. destruct (IH H) as [k Hk]. exists k. now right.
Qed.

(** Every operation keeps the manager well-formed. *)
Lemma reachable_wellformed (am : AuthManager) : reachable range am -> wellformed am.
Proof.
  induction 1 as [|am username email password id now _ IH
                  |am username password token _ IH
                  |am token _ IH
                  |am userID oldPassword newPassword _ IH
                  |am userID updates _ IH
                  |am userID _ IH].
  - split; intros ? ? H; cbn in H; now rewrite lookup_empty in H.
  - unfold Register. destruct (taken _ _ _ _); [exact IH|].
    destruct id as [id|err]; [|exact IH]. cbn [fst].
    destruct IH as [Hu Hs]. split; cbn [heap users sessions].
    + intros id' l Hl. destruct (decide (id = id')) as [->|Hne].
      * rewrite lookup_insert_eq in Hl. injection Hl as <-.
        rewrite lookup_insert_eq. eexists. split; reflexivity.
      * rewrite lookup_insert_ne in Hl by exact Hne.
        destruct (Hu id' l Hl) as (u & Hh & Hid). exists u. split; [|exact Hid].
        rewrite lookup_insert_ne; [exact Hh|].
        intros Heq. symmetry in Heq. revert Heq. apply fresh_heap. now rewrite Hh.
    + intros t l Hl. specialize (Hs t l Hl).
      rewrite lookup_insert_ne; [exact Hs|].
      intros Heq. symmetry in Heq. revert Heq. now apply fresh_heap.
  - unfold Login. destruct (find _ _ _) as [user|] eqn:Ef; [|exact IH].
    destruct (negb _); [exact IH|]. destruct token as [token|err]; [|exact IH].
    cbn [fst]. destruct IH as [Hu Hs]. split; cbn [heap users sessions]; [exact Hu|].
    intros t l Hl. destruct (decide (token = t)) as [->|Hne].
    + rewrite lookup_insert_eq in Hl. injection Hl as <-.
      apply find_some in Ef as [k Hk]. apply range_lookup in Hk.
      destruct (Hu k user Hk) as (u & Hh & _). now rewrite Hh.
    + rewrite lookup_insert_ne in Hl by exact Hne. now apply (Hs t).
  - destruct IH as [Hu Hs]. split; cbn [Logout heap users sessions]; [exact Hu|].
    intros t l Hl. apply lookup_delete_Some in Hl as [_ Hl]. now apply (Hs t).
  - unfold ChangePassword. destruct (users am !! userID) as [user|] eqn:Eu; [|exact IH].
    destruct (negb _); [exact IH|]. cbn [fst].
    pose proof (load_wellformed am userID user IH Eu) as [Hh Hid].
    destruct IH as [Hu Hs]. split; cbn [heap users sessions].
    + intros id' l Hl. destruct (Hu id' l Hl) as (u & Hh' & Hid').
      destruct (decide (user = l)) as [->|Hne].
      * rewrite lookup_insert_eq. eexists. split; [reflexivity|]. cbn [ID].
        rewrite Hh in Hh'. injection Hh' as <-. exact Hid'.
      * rewrite lookup_insert_ne by exact Hne. now exists u.
    + intros t l Hl. specialize (Hs t l Hl).
      destruct (decide (user = l)) as [->|Hne];
        [rewrite lookup_insert_eq; eauto | now rewrite lookup_insert_ne].
  - unfold UpdateUser. destruct (users am !! userID) as [user|] eqn:Eu; [|exact IH].
    cbn [fst].
    pose proof (load_wellformed am userID user IH Eu) as [Hh Hid].
    destruct IH as [Hu Hs]. split; cbn [heap users sessions].
    + intros id' l Hl. destruct (Hu id' l Hl) as (u & Hh' & Hid').
      destruct (decide (user = l)) as [->|Hne].
      * rewrite lookup_insert_eq. eexists. split; [reflexivity|].
        rewrite Hh in Hh'. injection Hh' as <-.
        destruct (email updates), (data updates); exact Hid'.
      * rewrite lookup_insert_ne by exact Hne. now exists u.
    + intros t l Hl. specialize (Hs t l Hl).
      destruct (decide (user = l)) as [->|Hne];
        [rewrite lookup_insert_eq; eauto | now rewrite lookup_insert_ne].
  - unfold DeleteUser. destruct (users am !! userID) as [user|] eqn:Eu; [|exact IH].
    cbn [fst]. destruct IH as [Hu Hs]. split; cbn [heap users sessions].
    + intros id' l Hl. apply lookup_delete_Some in Hl as [_ Hl]. now apply Hu.
    + intros t l Hl. apply map_lookup_filter_Some in Hl as [Hl _]. now apply (Hs t).
Qed.

(** Every operation keeps the names of the users apart. *)
Lemma reachable_usernames (am : AuthManager) :
  reachable range am -> usernames_unique am.
Proof.
  induction 1 as [|am username email password id now Hr IH
                  |am username password token _ IH
                  |am token _ IH
                  |am userID oldPassword newPassword Hr IH
                  |am userID updates Hr IH
                  |am userID _ IH].
  - intros id1 id2 l1 l2 H1. cbn in H1. now rewrite lookup_empty in H1.
  - unfold Register. destruct (taken _ _ _ _) eqn:Et; [exact IH|].
    destruct id as [id|err]; [|exact IH]. cbn [fst].
    pose proof (reachable_wellformed am Hr) as Hwf.
    assert (Hold : forall id' l', id <> id' ->
               <[id := fresh (dom (heap am))]> (users am) !! id' = Some l' ->
               users am !! id' = Some l'
               /\ load (mkAuthManager
                          (<[fresh (dom (heap am)) :=
                               mkUser id username email (hashPassword password) ∅ now]>
                             (heap am))
                          (<[id := fresh (dom (heap am))]> (users am)) (sessions am)) l'
                  = load am l'
               /\ Username (load am l') <> username).
    { intros id' l' Hne Hl. rewrite lookup_insert_ne in Hl by exact Hne.
      split; [exact Hl|]. split.
      - rewrite load_insert. destruct (decide _) as [Heq|_]; [|reflexivity].
        exfalso. symmetry in Heq. revert Heq. apply fresh_heap.
        destruct (load_wellformed am id' l' Hwf Hl) as [Hh _]. now rewrite Hh.
      - apply range_lookup in Hl. exact (proj1 (taken_false _ _ _ _ Et _ _ Hl)). }
    assert (Hnew : load (mkAuthManager
                          (<[fresh (dom (heap am)) :=
                               mkUser id username email (hashPassword password) ∅ now]>
                             (heap am))
                          (<[id := fresh (dom (heap am))]> (users am)) (sessions am))
                     (fresh (dom (heap am)))
                   = mkUser id username email (hashPassword password) ∅ now).
    { rewrite load_insert. now destruct (decide _). }
    intros id1 id2 l1 l2 H1 H2 Hn. cbn [users] in H1, H2.
    destruct (decide (id = id1)) as [E1|E1]; destruct (decide (id = id2)) as [E2|E2].
    + congruence.
    + subst id1. rewrite lookup_insert_eq in H1. injection H1 as <-.
      destruct (Hold id2 l2 E2 H2) as (_ & Hl2 & Hu2).
      rewrite Hnew, Hl2 in Hn. cbn [Username] in Hn. now contradiction Hu2.
    + subst id2. rewrite lookup_insert_eq in H2. injection H2 as <-.
      destruct (Hold id1 l1 E1 H1) as (_ & Hl1 & Hu1).
      rewrite Hnew, Hl1 in Hn. cbn [Username] in Hn. now contradiction Hu1.
    + destruct (Hold id1 l1 E1 H1) as (H1' & Hl1 & _).
      destruct (Hold id2 l2 E2 H2) as (H2' & Hl2 & _).
      rewrite Hl1, Hl2 in Hn. exact (IH id1 id2 l1 l2 H1' H2' Hn).
  - unfold Login. destruct (find _ _ _) as [user|]; [|exact IH].
    destruct (negb _); [exact IH|]. destruct token as [token|err]; exact IH.
  - exact IH.
  - unfold ChangePassword. destruct (users am !! userID) as [user|] eqn:Eu; [|exact IH].
    destruct (negb _); [exact IH|]. cbn [fst].
    intros id1 id2 l1 l2 H1 H2 Hn. cbn [users] in H1, H2.
    apply (IH id1 id2 l1 l2 H1 H2).
    rewrite !load_insert in Hn.
    destruct (decide (user = l1)) as [<-|_]; destruct (decide (user = l2)) as [<-|_];
      exact Hn.
  - unfold UpdateUser. destruct (users am !! userID) as [user|] eqn:Eu; [|exact IH].
    cbn [fst].
    intros id1 id2 l1 l2 H1 H2 Hn. cbn [users] in H1, H2.
    apply (IH id1 id2 l1 l2 H1 H2).
    rewrite !load_insert in Hn.
    destruct (decide (user = l1)) as [<-|_]; destruct (decide (user = l2)) as [<-|_];
      destruct (email updates), (data updates); exact Hn.
  - unfold DeleteUser. destruct (users am !! userID) as [user|] eqn:Eu; [|exact IH].
    cbn [fst].
    intros id1 id2 l1 l2 H1 H2 Hn. cbn [users] in H1, H2.
    apply lookup_delete_Some in H1 as [_ H1]. apply lookup_delete_Some in H2 as [_ H2].
    exact (IH id1 id2 l1 l2 H1 H2 Hn).
Qed.

End WithRange.

Lemma visits_map_to_list : visits map_to_list.
Proof. intros m. reflexivity. Qed.

End AuthFacts.

Module LoginFacts.
Import Auth AuthFacts.

Lemma visits_rangeFirst (first : string) : visits (rangeFirst first).
Proof.
  intros m. unfold rangeFirst. destruct (m !! first) as [l|] eqn:E; [|reflexivity].
  rewrite <- (insert_delete_id m first l E) at 2.
  now rewrite map_to_list_insert by apply lookup_delete_eq.
Qed.

(** A visiting order of the empty map and of a map of one entry. *)
Lemma range_empty (range : gmap string loc -> list (string * loc)) :
  visits range -> range ∅ = [].
Proof.
  intros Hrange. apply Permutation_nil. symmetry.
  rewrite (Hrange ∅). now rewrite map_to_list_empty.
Qed.

Lemma range_singleton (range : gmap string loc -> list (string * loc))
    (k : string) (l : loc) :
  visits range -> range {[ k := l ]} = [(k, l)].
Proof.
  intros Hrange. apply Permutation_singleton_r. symmetry.
  rewrite (Hrange _). now rewrite map_to_list_singleton.
Qed.

(** [Login] when the loop takes the user [l]. *)
Lemma Login_found (range : gmap string loc -> list (string * loc)) (am : AuthManager)
    (username password token : string) (l : loc) :
  find am (range (users am)) username = Some l ->
  Login range am username password (inl token)
  = if verifyPassword (Password (load am l)) password
    then (mkAuthManager (heap am) (users am) (<[token := l]> (sessions am)),
          token, Some l, None)
    else (am, "", None, Some "invalid password").
Proof.
  intros Hf. unfold Login. rewrite Hf.
  now destruct (verifyPassword _ _).
Qed.

End LoginFacts.

(** X23. A registered user can log in, when no other account has the
    user's name as its address. For a manager a program can have, after
    a [Register] without an error, [Login] with the name and the
    password returns the token and the new user, [GetUser] of the token
    gives that user until [Logout] of the token, and [Login] with any
    other password fails and leaves the manager as it is. This holds for
    every order in which the loops visit the map. *)
Theorem Register_then_Login :
  forall (range : gmap string Auth.loc -> list (string * Auth.loc))
         (am : Auth.AuthManager) (username email password id token : string) (now : Z),
    Auth.visits range ->
    Auth.reachable range am ->
    (Auth.Register range am username email password (inl id) now).2 = None ->
    (forall id' l', Auth.users am !! id' = Some l' ->
                    Auth.Email (Auth.load am l') <> username) ->
    let am1 := (Auth.Register range am username email password (inl id) now).1.1 in
    exists l,
      (Auth.Register range am username email password (inl id) now).1.2 = Some l
      /\ Auth.load am1 l
         = Auth.mkUser id username email (Auth.hashPassword password) ∅ now
      /\ Auth.users am1 !! id = Some l
      /\ (let r := Auth.Login range am1 username password (inl token) in
          r.2 = None /\ r.1.2 = Some l /\ r.1.1.2 = token
          /\ Auth.GetUser r.1.1.1 token = Some l
          /\ Auth.GetUser (Auth.Logout r.1.1.1 token) token = None)
      /\ (forall q, q <> password ->
            Auth.Login range am1 username q (inl token)
            = (am1, "", None, Some "invalid password")).
Proof.
  intros range am username email password id token now Hrange Hreach Hok Hmail am1.
  pose proof (AuthFacts.reachable_wellformed range Hrange am Hreach) as Hwf.
  subst am1. revert Hok. unfold Auth.Register.
  destruct (Auth.taken am (range (Auth.users am)) username email) eqn:Et;
    [discriminate|]. intros _. cbn [fst snd].
  set (l := fresh (dom (Auth.heap am))).
  set (u := Auth.mkUser id username email (Auth.hashPassword password) ∅ now).
  set (am1 := Auth.mkAuthManager (<[l := u]> (Auth.heap am))
                (<[id := l]> (Auth.users am)) (Auth.sessions am)).
  assert (Hl : Auth.load am1 l = u).
  { unfold am1. rewrite AuthFacts.load_insert. now destruct (decide _). }
  assert (Hfind : Auth.find am1 (range (Auth.users am1)) username = Some l).
  { apply AuthFacts.find_the_one.
    - exists id. apply (AuthFacts.range_lookup range Hrange). apply lookup_insert_eq.
    - intros k l' Hin Hm. apply (AuthFacts.range_lookup range Hrange) in Hin.
      cbn [Auth.users am1] in Hin.
      destruct (decide (id = k)) as [->|Hne].
      + rewrite lookup_insert_eq in Hin. now injection Hin as <-.
      + rewrite lookup_insert_ne in Hin by exact Hne. exfalso.
        assert (Hsame : Auth.load am1 l' = Auth.load am l').
        { unfold am1. rewrite AuthFacts.load_insert.
          destruct (decide _) as [Heq|_]; [|reflexivity].
          exfalso. symmetry in Heq. revert Heq. apply AuthFacts.fresh_heap.
          destruct (AuthFacts.load_wellformed am k l' Hwf Hin) as [Hh _].
          now rewrite Hh. }
        rewrite Hsame in Hm. destruct Hm as [Hm|Hm].
        * apply (AuthFacts.range_lookup range Hrange) in Hin.
          exact (proj1 (AuthFacts.taken_false am _ _ _ Et _ _ Hin) Hm).
        * exact (Hmail k l' Hin Hm).
    - left. now rewrite Hl. }
  exists l. split; [reflexivity|]. split; [exact Hl|].
  split; [apply lookup_insert_eq|]. split.
  - rewrite (LoginFacts.Login_found range am1 username password token l Hfind).
    rewrite Hl. cbn [Auth.Password u].
    rewrite PasswordFacts.verifyPassword_hashPassword, String.eqb_refl.
    cbn [fst snd]. split; [reflexivity|]. split; [reflexivity|]. split; [reflexivity|].
    unfold Auth.GetUser, Auth.Logout. cbn [Auth.sessions].
    split; [apply lookup_insert_eq | apply lookup_delete_eq].
  - intros q Hq.
    rewrite (LoginFacts.Login_found range am1 username q token l Hfind).
    rewrite Hl. cbn [Auth.Password u].
    rewrite PasswordFacts.verifyPassword_hashPassword.
    assert (Hne : String.eqb password q = false)
      by (apply String.eqb_neq; congruence).
    now rewrite Hne.
Qed.

(** The theorem at work: the first account of a new manager. *)
Lemma Register_then_Login_witness :
  exists l,
    (Auth.Register map_to_list Auth.NewAuthManager "ann" "ann@example.org" "pw1"
       (inl "id1") 0).1.2 = Some l
    /\ Auth.GetUser
         (Auth.Login map_to_list
            (Auth.Register map_to_list Auth.NewAuthManager "ann" "ann@example.org" "pw1"
               (inl "id1") 0).1.1
            "ann" "pw1" (inl "t1")).1.1.1 "t1" = Some l.
Proof.
  destruct (Register_then_Login map_to_list Auth.NewAuthManager
              "ann" "ann@example.org" "pw1" "id1" "t1" 0
              AuthFacts.visits_map_to_list (Auth.reach_New map_to_list) eq_refl
              ltac:(intros id' l' H; cbn in H; rewrite lookup_empty in H; discriminate H))
    as (l & Hreg & _ & _ & (_ & _ & _ & Hget & _) & _).
  exists l. split; [exact Hreg | exact Hget].
Defined.

(** X24. A change of the password logs nobody out, and the deletion of
    a user logs the user out everywhere. After a [ChangePassword]
    without an error the sessions are as before, so every token gives
    the user it gave, and the user, reached by id or by token, has the
    new password. After a [DeleteUser] without an error the id has no
    user, no token gives a user with that id, and the tokens of the
    other users give what they gave. *)
Theorem sessions_after_account_changes :
  forall (am : Auth.AuthManager) (userID oldPassword newPassword : string),
    (let r := Auth.ChangePassword am userID oldPassword newPassword in
     r.2 = None ->
     (forall token, Auth.GetUser r.1 token = Auth.GetUser am token)
     /\ Auth.users r.1 = Auth.users am
     /\ exists l, Auth.users am !! userID = Some l
                  /\ Auth.verifyPassword (Auth.Password (Auth.load am l)) oldPassword = true
                  /\ Auth.Password (Auth.load r.1 l) = Auth.hashPassword newPassword
                  /\ (forall q, Auth.verifyPassword (Auth.Password (Auth.load r.1 l)) q = true
                                <-> q = newPassword))
    /\ (let r := Auth.DeleteUser am userID in
        r.2 = None ->
        Auth.users r.1 !! userID = None
        /\ (forall token l, Auth.GetUser r.1 token = Some l ->
              Auth.ID (Auth.load r.1 l) <> userID /\ Auth.GetUser am token = Some l)
        /\ (forall token l, Auth.GetUser am token = Some l ->
              Auth.ID (Auth.load am l) <> userID -> Auth.GetUser r.1 token = Some l)).
Proof.
  intros am userID oldPassword newPassword. split.
  - unfold Auth.ChangePassword.
    destruct (Auth.users am !! userID) as [l|] eqn:Eu; [|discriminate].
    destruct (Auth.verifyPassword (Auth.Password (Auth.load am l)) oldPassword) eqn:Ev;
      [|discriminate].
    cbn [negb fst snd]. intros _. split; [reflexivity|]. split; [reflexivity|].
    exists l. split; [reflexivity|]. split; [exact Ev|].
    rewrite AuthFacts.load_insert. destruct (decide (l = l)) as [_|Hne]; [|now contradiction Hne].
    cbn [Auth.Password]. split; [reflexivity|].
    intros q. rewrite PasswordFacts.verifyPassword_hashPassword, String.eqb_eq.
    split; intros H; now symmetry.
  - unfold Auth.DeleteUser.
    destruct (Auth.users am !! userID) as [l0|] eqn:Eu; [|discriminate].
    cbn [fst snd]. intros _. unfold Auth.GetUser. cbn [Auth.users Auth.sessions].
    split; [apply lookup_delete_eq|]. split.
    + intros token l Hl. apply map_lookup_filter_Some in Hl as [Hl Hid].
      cbn [snd] in Hid. split; [exact Hid | exact Hl].
    + intros token l Hl Hid. apply map_lookup_filter_Some. split; [exact Hl | exact Hid].
Qed.

(** X25. In every manager a program can have, under every visiting
    order, no two users have one name, every pointer of the two maps
    has its user, and the user under an id has that id. The addresses
    are not kept apart: [UpdateUser] gives an account the address of
    another one. *)
Theorem usernames_stay_unique :
  forall range : gmap string Auth.loc -> list (string * Auth.loc),
    Auth.visits range ->
    (forall am, Auth.reachable range am ->
                Auth.usernames_unique am /\ Auth.wellformed am)
    /\ (Auth.reachable range (Auth.twoUsers range)
        /\ exists l1 l2,
             Auth.users (Auth.twoUsers range) !! "id1" = Some l1
             /\ Auth.users (Auth.twoUsers range) !! "id2" = Some l2
             /\ Auth.Email (Auth.load (Auth.twoUsers range) l1)
                = Auth.Email (Auth.load (Auth.twoUsers range) l2)).
Proof.
  intros range Hrange. split.
  - intros am Hreach. split.
    + now apply (AuthFacts.reachable_usernames range Hrange).
    + now apply (AuthFacts.reachable_wellformed range Hrange).
  - split.
    + unfold Auth.twoUsers. repeat constructor.
    + unfold Auth.twoUsers, Auth.Register.
      cbn [Auth.users Auth.NewAuthManager].
      rewrite (LoginFacts.range_empty range Hrange).
      cbn [Auth.taken fst Auth.users].
      change (<["id1" := fresh (dom (Auth.heap Auth.NewAuthManager))]> ∅)
        with ({[ "id1" := fresh (dom (Auth.heap Auth.NewAuthManager)) ]} : gmap string Auth.loc).
      rewrite (LoginFacts.range_singleton range _ _ Hrange).
      exists 0%nat, 1%nat. vm_compute. repeat split.
Qed.

(** The theorem at work: the visiting order of the model's maps. *)
Lemma usernames_stay_unique_witness :
  Auth.usernames_unique (Auth.twoUsers map_to_list).
Proof.
  apply (usernames_stay_unique map_to_list AuthFacts.visits_map_to_list).
  apply (usernames_stay_unique map_to_list AuthFacts.visits_map_to_list).
Defined.

(** X26. Which user [Login] takes depends on the order in which the loop
    visits the map. When the text is the name of one user and the
    address of another, and the password is that of the first only,
    [Login] returns the first user under the order that starts with it
    and fails with an invalid password under the order that starts with
    the other; [Register] lets such a pair in. *)
Theorem Login_depends_on_order :
  forall (am : Auth.AuthManager) (id1 id2 : string) (l1 l2 : Auth.loc)
         (name password token : string),
    Auth.users am !! id1 = Some l1 ->
    Auth.users am !! id2 = Some l2 ->
    Auth.Username (Auth.load am l1) = name ->
    Auth.Email (Auth.load am l2) = name ->
    Auth.verifyPassword (Auth.Password (Auth.load am l1)) password = true ->
    Auth.verifyPassword (Auth.Password (Auth.load am l2)) password = false ->
    Auth.visits (Auth.rangeFirst id1) /\ Auth.visits (Auth.rangeFirst id2)
    /\ (Auth.Login (Auth.rangeFirst id1) am name password (inl token)).1.2 = Some l1
    /\ (Auth.Login (Auth.rangeFirst id1) am name password (inl token)).2 = None
    /\ Auth.Login (Auth.rangeFirst id2) am name password (inl token)
       = (am, "", None, Some "invalid password").
Proof.
  intros am id1 id2 l1 l2 name password token H1 H2 Hn He Hv1 Hv2.
  split; [apply LoginFacts.visits_rangeFirst|].
  split; [apply LoginFacts.visits_rangeFirst|].
  assert (Hf1 : Auth.find am (Auth.rangeFirst id1 (Auth.users am)) name = Some l1).
  { unfold Auth.rangeFirst. rewrite H1. cbn [Auth.find].
    rewrite Hn, String.eqb_refl. reflexivity. }
  assert (Hf2 : Auth.find am (Auth.rangeFirst id2 (Auth.users am)) name = Some l2).
  { unfold Auth.rangeFirst. rewrite H2. cbn [Auth.find].
    rewrite He, String.eqb_refl. now rewrite orb_true_r. }
  rewrite (LoginFacts.Login_found _ am name password token l1 Hf1), Hv1.
  rewrite (LoginFacts.Login_found _ am name password token l2 Hf2), Hv2.
  now repeat split.
Qed.

(** The theorem at work: the second account's name is the first one's
    address, and both registrations went through. *)
Lemma Login_depends_on_order_witness :
  Auth.reachable map_to_list Auth.crossed
  /\ (Auth.Login (Auth.rangeFirst "id2") Auth.crossed "ann@example.org" "pw2"
        (inl "t1")).2 = None
  /\ Auth.Login (Auth.rangeFirst "id1") Auth.crossed "ann@example.org" "pw2" (inl "t1")
     = (Auth.crossed, "", None, Some "invalid password").
Proof.
  split; [unfold Auth.crossed; repeat constructor|].
  refine (proj2 (proj2 (proj2
    (Login_depends_on_order Auth.crossed "id2" "id1" 1%nat 0%nat
       "ann@example.org" "pw2" "t1" _ _ _ _ _ _)))); vm_compute; reflexivity.
Defined.

Module RegexpFacts.
Import Regexp GoStringsFacts.

Lemma app_empty (s t : string) : s +:+ t = "" -> s = "" /\ t = "".
Proof. destruct s; [now cbn | discriminate]. Qed.

Lemma app_cons_inv (c : ascii) (x s t : string) :
  s +:+ t = String c x ->
  (s = "" /\ t = String c x) \/ (exists s', s = String c s' /\ x = s' +:+ t).
Proof.
  destruct s as [|a s]; [now left|]. rewrite append_cons. intros [= -> <-].
  right. now exists s.
Qed.

Lemma lang_nullable (r : re) (s : string) : lang r s -> s = "" -> nullable r = true.
Proof.
  induction 1 as [|p c Hp|a b s t _ IHa _ IHb|a b s _ IH|a b s _ IH| |a s t _ _ _ _];
    intros He; cbn [nullable]; try reflexivity.
  - discriminate He.
  - apply app_empty in He as [-> ->]. now rewrite IHa, IHb.
  - now rewrite IH.
  - rewrite IH by exact He. apply orb_true_r.
Qed.

Lemma nullable_lang (r : re) : nullable r = true -> lang r "".
Proof.
  induction r as [| |p|a IHa b IHb|a IHa b IHb|a IH]; cbn [nullable]; intros H;
    try discriminate H.
  - constructor.
  - apply andb_true_iff in H as [Ha Hb].
    change (lang (Cat a b) ("" +:+ "")). constructor; auto.
  - apply orb_true_iff in H as [H|H]; [apply lang_Alt_l | apply lang_Alt_r]; auto.
  - constructor.
Qed.

Lemma deriv_sound (c : ascii) (r : re) :
  forall s, lang (deriv c r) s -> lang r (String c s).
Proof.
  induction r as [| |p|a IHa b IHb|a IHa b IHb|a IH]; cbn [deriv]; intros s H.
  - inversion H.
  - inversion H.
  - destruct (p c) eqn:Hp; inversion H; subst. now constructor.
  - destruct (nullable a) eqn:Hn.
    + inversion H as [| | | ? ? ? Hl | ? ? ? Hr | |]; subst.
      * inversion Hl as [| |? ? s1 s2 H1 H2| | | |]; subst.
        rewrite <- append_cons. constructor; auto.
      * change (String c s) with ("" +:+ String c s).
        constructor; [now apply nullable_lang | auto].
    + inversion H as [| |? ? s1 s2 H1 H2| | | |]; subst.
      rewrite <- append_cons. constructor; auto.
  - inversion H; subst; [apply lang_Alt_l | apply lang_Alt_r]; auto.
  - inversion H as [| |? ? s1 s2 H1 H2| | | |]; subst.
    rewrite <- append_cons. constructor; auto.
Qed.

Lemma deriv_complete (r : re) (t : string) :
  lang r t -> forall c s, t = String c s -> lang (deriv c r) s.
Proof.
  induction 1 as [|p c0 Hp|a b s1 t1 Ha IHa Hb IHb|a b s1 _ IH|a b s1 _ IH|
                  |a s1 t1 Ha IHa Hs IHs];
    intros c s He; cbn [deriv].
  - discriminate He.
  - injection He as -> <-. rewrite Hp. constructor.
  - apply app_cons_inv in He as [[-> ->]|(s' & -> & ->)].
    + rewrite (lang_nullable a "" Ha eq_refl). apply lang_Alt_r. now apply IHb.
    + assert (Hc : lang (Cat (deriv c a) b) (s' +:+ t1))
        by (constructor; [now apply IHa | exact Hb]).
      destruct (nullable a); [now apply lang_Alt_l | exact Hc].
  - apply lang_Alt_l. now apply IH.
  - apply lang_Alt_r. now apply IH.
  - discriminate He.
  - apply app_cons_inv in He as [[-> ->]|(s' & -> & ->)].
    + now apply IHs.
    + constructor; [now apply IHa | exact Hs].
Qed.

(** The matcher accepts the strings of the pattern. *)
Lemma MatchString_lang (s : string) :
  forall r, MatchString r s = true <-> lang r s.
Proof.
  induction s as [|c s IH]; intros r; cbn [MatchString].
  - split; [apply nullable_lang | intros H; now apply (lang_nullable r "")].
  - rewrite IH. split; [apply deriv_sound | intros H; now apply (deriv_complete r _ H)].
Qed.

Lemma lang_Class_inv (p : ascii -> bool) (s : string) :
  lang (Class p) s -> exists c, s = String c "" /\ p c = true.
Proof. inversion 1; subst. eauto. Qed.

Lemma lang_Star_class (p : ascii -> bool) (s : string) :
  lang (Star (Class p)) s <-> all p s = true.
Proof.
  split.
  - remember (Star (Class p)) as r eqn:Er. induction 1; try discriminate Er.
    + reflexivity.
    + injection Er as ->. apply lang_Class_inv in H as (c & -> & Hp).
      rewrite append_cons, append_nil. cbn [all]. rewrite Hp. now apply IHlang2.
  - induction s as [|c s IH]; cbn [all]; intros H; [constructor|].
    apply andb_true_iff in H as [Hp Hs].
    change (String c s) with (String c "" +:+ s).
    constructor; [now constructor | now apply IH].
Qed.

Lemma lang_Plus_class (p : ascii -> bool) (s : string) :
  lang (Plus (Class p)) s <-> s <> "" /\ all p s = true.
Proof.
  unfold Plus. split.
  - inversion 1 as [| |? ? s1 s2 H1 H2| | | |]; subst.
    apply lang_Class_inv in H1 as (c & -> & Hp). apply lang_Star_class in H2.
    rewrite append_cons, append_nil. split; [discriminate|]. cbn [all]. now rewrite Hp.
  - intros [Hne Hall]. destruct s as [|c s]; [now contradiction Hne|].
    cbn [all] in Hall. apply andb_true_iff in Hall as [Hp Hs].
    change (String c s) with (String c "" +:+ s).
    constructor; [now constructor | now apply lang_Star_class].
Qed.

Lemma lang_TwoOrMore_class (p : ascii -> bool) (s : string) :
  lang (TwoOrMore (Class p)) s <-> (2 <= String.length s)%nat /\ all p s = true.
Proof.
  unfold TwoOrMore. split.
  - inversion 1 as [| |? ? s1 s2 H1 H2| | | |]; subst.
    apply lang_Class_inv in H1 as (c & -> & Hp).
    apply (proj1 (lang_Plus_class p s2)) in H2 as [Hne Hall].
    destruct s2 as [|c2 s2]; [now contradiction Hne|].
    rewrite append_cons, append_nil. split; [cbn; lia|]. cbn [all] in *. now rewrite Hp.
  - intros [Hlen Hall]. destruct s as [|c [|c2 s]]; cbn in Hlen; try lia.
    cbn [all] in Hall. apply andb_true_iff in Hall as [Hp Hs].
    change (String c (String c2 s)) with (String c "" +:+ String c2 s).
    constructor; [now constructor|]. apply lang_Plus_class. split; [discriminate | exact Hs].
Qed.

(** The strings of the email pattern. *)
Lemma lang_emailRegex (s : string) :
  lang emailRegex s
  <-> exists loc domain tld,
        s = loc +:+ String "@" (domain +:+ String "." tld)
        /\ (loc <> "" /\ all localChar loc = true)
        /\ (domain <> "" /\ all domainChar domain = true)
        /\ ((2 <= String.length tld)%nat /\ all letter tld = true).
Proof.
  unfold emailRegex. split.
  - inversion 1 as [| |? ? loc r1 Hl H1| | | |]; subst.
    inversion H1 as [| |? ? at_ r2 Ha H2| | | |]; subst.
    inversion H2 as [| |? ? domain r3 Hd H3| | | |]; subst.
    inversion H3 as [| |? ? dot tld Ho Ht| | | |]; subst.
    apply lang_Class_inv in Ha as (c1 & -> & Hc1). apply ascii_eqb_true in Hc1. subst c1.
    apply lang_Class_inv in Ho as (c2 & -> & Hc2). apply ascii_eqb_true in Hc2. subst c2.
    exists loc, domain, tld. split; [reflexivity|].
    split; [now apply lang_Plus_class|]. split; [now apply lang_Plus_class|].
    now apply lang_TwoOrMore_class.
  - intros (loc & domain & tld & -> & Hl & Hd & Ht).
    constructor; [now apply lang_Plus_class|].
    change (String "@" (domain +:+ String "." tld))
      with (String "@" "" +:+ (domain +:+ (String "." "" +:+ tld))).
    constructor; [now constructor|].
    constructor; [now apply lang_Plus_class|].
    constructor; [now constructor | now apply lang_TwoOrMore_class].
Qed.

End RegexpFacts.

(** X27. The pattern validators accept exactly these strings: [numeric]
    the strings of one or more digits, [alpha] of one or more letters,
    [alphanum] of one or more letters and digits, so each of them
    refuses the empty string; and [email] the strings made of a local
    part of one or more of the letters, the digits and [._%+-], the sign
    [@], a domain of one or more of the letters, the digits, [.] and [-],
    a dot, and two or more letters. Each refuses a field that is not a
    string. *)
Theorem pattern_validators_accept :
  forall (lib : Validation.ValidationLib) (name s : string),
    (Validation.validateNumeric (Validation.VString s) name = None
     <-> s <> "" /\ Regexp.all Regexp.digit s = true)
    /\ (Validation.validateAlpha (Validation.VString s) name = None
        <-> s <> "" /\ Regexp.all Regexp.letter s = true)
    /\ (Validation.validateAlphaNum (Validation.VString s) name = None
        <-> s <> "" /\ Regexp.all Regexp.alnum s = true)
    /\ (Validation.validateEmail (Validation.VString s) name = None
        <-> exists loc domain tld,
              s = loc +:+ String "@" (domain +:+ String "." tld)
              /\ (loc <> "" /\ Regexp.all Regexp.localChar loc = true)
              /\ (domain <> "" /\ Regexp.all Regexp.domainChar domain = true)
              /\ ((2 <= String.length tld)%nat /\ Regexp.all Regexp.letter tld = true))
    /\ (forall v, (forall t, v <> Validation.VString t) ->
          Validation.validateNumeric v name <> None
          /\ Validation.validateAlpha v name <> None
          /\ Validation.validateAlphaNum v name <> None
          /\ Validation.validateEmail v name <> None).
Proof.
  intros lib name s.
  assert (Hgen : forall r (msg : string),
             (if negb (Regexp.MatchString r s) then Some msg else None) = None
             <-> Regexp.lang r s).
  { intros r msg. rewrite <- RegexpFacts.MatchString_lang.
    destruct (Regexp.MatchString r s); cbn; split; congruence. }
  split; [|split; [|split; [|split]]].
  - unfold Validation.validateNumeric. rewrite Hgen. apply RegexpFacts.lang_Plus_class.
  - unfold Validation.validateAlpha. rewrite Hgen. apply RegexpFacts.lang_Plus_class.
  - unfold Validation.validateAlphaNum. rewrite Hgen. apply RegexpFacts.lang_Plus_class.
  - unfold Validation.validateEmail. rewrite Hgen. apply RegexpFacts.lang_emailRegex.
  - intros v Hv. destruct v; try (now repeat split); now contradiction (Hv s0).
Qed.

Module ValidationFacts.
Import GoStringsMore Validation.

Section WithLib.
Context {lib : ValidationLib}.

Lemma fieldErrors_omap (fields : list Field) :
  forall errs, fieldErrors fields errs = errs ++ omap failure fields.
Proof.
  induction fields as [|f fields IH]; intros errs; cbn [fieldErrors omap list_omap].
  - now rewrite app_nil_r.
  - unfold failure at 1. destruct (String.eqb (fieldTag f) ""); [apply IH|].
    destruct (validateField _ _ _) as [err|]; [|apply IH].
    rewrite IH. now rewrite <- app_assoc.
Qed.

Lemma validateField_first (v : Value) (name : string) (rules : list ValidationRule) :
  match validateField v name rules with
  | None => Forall (fun r => applyValidationRule v name r = None) rules
  | Some err =>
      exists before r after,
        rules = before ++ r :: after
        /\ Forall (fun r => applyValidationRule v name r = None) before
        /\ applyValidationRule v name r = Some err
  end.
Proof.
  induction rules as [|r rules IH]; cbn [validateField]; [constructor|].
  destruct (applyValidationRule v name r) as [err|] eqn:Er.
  - exists [], r, rules. now repeat split.
  - destruct (validateField v name rules) as [err|].
    + destruct IH as (before & r' & after & -> & Hb & Hr).
      exists (r :: before), r', after. split; [reflexivity|]. split; [|exact Hr].
      now constructor.
    + now constructor.
Qed.

End WithLib.

End ValidationFacts.

(** X28. [validateStruct] reports one error for each field that fails,
    the error of the field's first failing rule, in the order of the
    fields and joined by a semicolon and a space; a field without a tag
    is not looked at, and the result is [nil] exactly when no field
    fails. A pointer to a struct is validated as the struct; a nil
    pointer, a pointer to a pointer and a value that is not a struct are
    refused. *)
Theorem validateStruct_reports_each_field :
  forall (lib : Validation.ValidationLib) (fields : list Validation.Field),
    let failures := omap Validation.failure fields in
    Validation.validateStruct (Validation.TStruct fields)
    = match failures with
      | [] => None
      | _ => Some (GoStringsMore.JoinS failures "; ")
      end
    /\ (Validation.validateStruct (Validation.TStruct fields) = None
        <-> Forall (fun f => Validation.fieldTag f = ""
                             \/ Forall (fun r => Validation.applyValidationRule
                                                   (Validation.fieldValue f)
                                                   (Validation.fieldName f) r = None)
                                  (Validation.parseValidationTag (Validation.fieldTag f)))
              fields)
    /\ Validation.validateStruct (Validation.TPtr (Validation.TStruct fields))
       = Validation.validateStruct (Validation.TStruct fields)
    /\ Validation.validateStruct (Validation.TPtr (Validation.TPtr (Validation.TStruct fields)))
       = Some "validation target must be a struct"
    /\ Validation.validateStruct Validation.TNil = Some "validation target must be a struct"
    /\ Validation.validateStruct Validation.TOther
       = Some "validation target must be a struct".
Proof.
  intros lib fields failures.
  assert (Hs : Validation.validateStruct (Validation.TStruct fields)
               = match failures with
                 | [] => None
                 | _ => Some (GoStringsMore.JoinS failures "; ")
                 end).
  { unfold Validation.validateStruct. rewrite ValidationFacts.fieldErrors_omap.
    cbn [List.app app]. fold failures. now destruct failures. }
  split; [exact Hs|]. split; [|now repeat split].
  rewrite Hs. subst failures. clear Hs.
  assert (Hnone : forall f,
             Validation.failure f = None
             <-> Validation.fieldTag f = ""
                 \/ Forall (fun r => Validation.applyValidationRule
                                       (Validation.fieldValue f)
                                       (Validation.fieldName f) r = None)
                      (Validation.parseValidationTag (Validation.fieldTag f))).
  { intros f. unfold Validation.failure.
    destruct (String.eqb (Validation.fieldTag f) "") eqn:Et.
    - apply String.eqb_eq in Et. split; [now left | reflexivity].
    - apply String.eqb_neq in Et.
      pose proof (ValidationFacts.validateField_first (Validation.fieldValue f)
                    (Validation.fieldName f)
                    (Validation.parseValidationTag (Validation.fieldTag f))) as Hf.
      destruct (Validation.validateField _ _ _) as [err|].
      + split; [discriminate|]. intros [Hempty|Hall]; [now contradiction Et|].
        exfalso. destruct Hf as (before & r & after & Heq & _ & Hr).
        rewrite Heq in Hall. apply Forall_app in Hall as [_ Hall].
        inversion Hall as [|? ? Hr' _]; subst. congruence.
      + split; [now right | reflexivity]. }
  assert (Hnil : omap Validation.failure fields = []
                 <-> Forall (fun f => Validation.failure f = None) fields).
  { induction fields as [|f fields IH]; [split; [constructor | reflexivity]|].
    change (omap Validation.failure (f :: fields))
      with (match Validation.failure f with
            | Some e => e :: omap Validation.failure fields
            | None => omap Validation.failure fields
            end).
    destruct (Validation.failure f) as [e|] eqn:Ef.
    - split; [discriminate|]. intros H. inversion H; congruence.
    - rewrite IH. split; [now constructor | intros H; now inversion H]. }
  split.
  - intros H. destruct (omap Validation.failure fields) eqn:Eo; [|discriminate H].
    apply (Forall_impl _ _ _ (proj1 Hnil eq_refl)). intros f. apply Hnone.
  - intros H. rewrite (proj2 Hnil); [reflexivity|].
    apply (Forall_impl _ _ _ H). intros f. apply Hnone.
Qed.

(** The theorem at work: a sign-up form with two bad fields. *)
Lemma validateStruct_reports_each_field_witness :
  Validation.validateStruct (lib := Validation.exampleLib)
    (Validation.TPtr (Validation.TStruct (Validation.signup "A" "ann@example.org" "4x")))
  = Some "Name must be at least 2 characters; Age must contain only numbers".
Proof.
  rewrite (proj1 (proj2 (proj2 (validateStruct_reports_each_field Validation.exampleLib
             (Validation.signup "A" "ann@example.org" "4x"))))).
  vm_compute. reflexivity.
Defined.

(** X29. [min] and [max] go by the kind of the field: for a bound in
    the range of an [int], written in decimal, each of the two compares
    the number of bytes of a string, the value of a signed integer and
    the number of items of a slice and of an array with the bound, and
    lets every map, pointer, interface and field of another kind (a
    bool, an unsigned integer) pass. A bound that is no numeral fails every field. And
    [required] lets every number and every bool pass, zero and false
    included, and fails a string exactly when it is empty. *)
Theorem length_rules_by_kind :
  forall (lib : Validation.ValidationLib) (name : string) (n : Z),
    GoStrconv.minInt <= n <= GoStrconv.maxInt ->
    (forall s, (Validation.validateMin (Validation.VString s) name (Itoa n) = None
                <-> n <= Z.of_nat (String.length s))
               /\ (Validation.validateMax (Validation.VString s) name (Itoa n) = None
                   <-> Z.of_nat (String.length s) <= n))
    /\ (forall i, (Validation.validateMin (Validation.VInt i) name (Itoa n) = None
                   <-> n <= i)
                  /\ (Validation.validateMax (Validation.VInt i) name (Itoa n) = None
                      <-> i <= n))
    /\ (forall len, (Validation.validateMin (Validation.VSlice len) name (Itoa n) = None
                     <-> n <= len)
                    /\ (Validation.validateMax (Validation.VSlice len) name (Itoa n) = None
                        <-> len <= n)
                    /\ (Validation.validateMin (Validation.VArray len) name (Itoa n) = None
                        <-> n <= len)
                    /\ (Validation.validateMax (Validation.VArray len) name (Itoa n) = None
                        <-> len <= n))
    /\ (forall v, (forall s, v <> Validation.VString s) ->
                  (forall i, v <> Validation.VInt i) ->
                  (forall b a, v <> Validation.VFloat b a) ->
                  (forall len, v <> Validation.VSlice len) ->
                  (forall len, v <> Validation.VArray len) ->
                  Validation.validateMin v name (Itoa n) = None
                  /\ Validation.validateMax v name (Itoa n) = None)
    /\ (forall v text, (GoStrconv.Atoi text).2 = true ->
                       Validation.validateMin v name text
                       = Some ("invalid min value: " +:+ text)
                       /\ Validation.validateMax v name text
                          = Some ("invalid max value: " +:+ text))
    /\ (forall v, (forall s, v <> Validation.VString s) ->
                  (forall len, v <> Validation.VSlice len) ->
                  (forall len, v <> Validation.VArray len) ->
                  (forall len, v <> Validation.VMap len) ->
                  (forall b, v <> Validation.VPtr b) ->
                  (forall b, v <> Validation.VInterface b) ->
                  Validation.validateRequired v name = None)
    /\ (forall s, Validation.validateRequired (Validation.VString s) name = None
                  <-> s <> "").
Proof.
  intros lib name n Hn.
  pose proof (StrconvFacts.Atoi_Itoa n Hn) as Ha.
  assert (Hlt : forall (a b : Z) (msg : string),
             (if a <? b then Some msg else None) = None <-> b <= a).
  { intros a b msg. destruct (Z.ltb_spec a b) as [Hab|Hab]; split; intros Hx;
      first [discriminate Hx | lia | reflexivity]. }
  split; [|split; [|split; [|split; [|split; [|split]]]]].
  - intros s. unfold Validation.validateMin, Validation.validateMax. rewrite Ha.
    split; apply Hlt.
  - intros i. unfold Validation.validateMin, Validation.validateMax. rewrite Ha.
    split; apply Hlt.
  - intros len. unfold Validation.validateMin, Validation.validateMax. rewrite Ha.
    repeat split; apply Hlt.
  - intros v H1 H2 H3 H4 H5.
    unfold Validation.validateMin, Validation.validateMax. rewrite Ha.
    destruct v; try (split; reflexivity);
      first [now contradiction (H1 s) | now contradiction (H2 i)
            | now contradiction (H3 below above) | now contradiction (H4 len)
            | now contradiction (H5 len)].
  - intros v text Herr. unfold Validation.validateMin, Validation.validateMax.
    destruct (GoStrconv.Atoi text) as [value err]. cbn [snd] in Herr. subst err.
    split; reflexivity.
  - intros v H1 H2 H3 H4 H5 H6. destruct v; try reflexivity;
      first [now contradiction (H1 s) | now contradiction (H2 len)
            | now contradiction (H3 len) | now contradiction (H4 len)
            | now contradiction (H5 isNil) | now contradiction (H6 isNil)].
  - intros s. cbn [Validation.validateRequired].
    destruct (String.eqb s "") eqn:E;
      [apply String.eqb_eq in E | apply String.eqb_neq in E];
      split; intros H; first [discriminate H | now contradiction H | assumption | reflexivity].
Qed.

(** The theorem at work: a bound of three, on an array of four items,
    a map and a number. *)
Lemma length_rules_by_kind_witness :
  (Validation.validateMax (Validation.VArray 4) "Tags" "3" = None <-> 4 <= 3)
  /\ Validation.validateMin (Validation.VMap 0) "Tags" "3"
     = None
  /\ Validation.validateRequired (Validation.VInt 0) "Age" = None.
Proof.
  pose proof (length_rules_by_kind Validation.exampleLib) as H.
  split; [|split].
  - refine (proj2 (proj2 (proj2 (proj1 (proj2 (proj2 (H "Tags" 3 _))) 4))));
      vm_compute; split; discriminate.
  - refine (proj1 (proj1 (proj2 (proj2 (proj2 (H "Tags" 3 _)))) (Validation.VMap 0)
                     _ _ _ _ _)); first [discriminate | vm_compute; split; discriminate].
  - refine (proj1 (proj2 (proj2 (proj2 (proj2 (proj2 (H "Age" 3 _))))))
                  (Validation.VInt 0) _ _ _ _ _ _);
      first [discriminate | vm_compute; split; discriminate].
Defined.

(** X30. [Logger] writes its line when the middleware returns, before
    the handler runs, so the line tells the status code the context has
    then. With [Logger] as the only middleware and a route that matches,
    the handler starts with the line in the log, and the line names 200
    whatever the handler answers: after a handler that sends a text
    with a status code from 200 to 999, the codes net/http sends as a
    status, the log holds the line with 200 and the response has the
    handler's status. *)
Theorem Logger_logs_before_the_handler :
  forall (rt : GoRuntime) (Env : Type) (a : App.App Env) (w : Http.ResponseWriter)
         (r : Http.Request) (fresh : string) (sm : Session.SessionManager)
         (lg : list string) (e : Env) (duration : string)
         (h : App.HandlerFunc Env) (params : option (gmap string string)),
    App.staticLoop (App.static a) (Http.URLPath r) = None ->
    App.middleware a = [MiddlewareMore.Logger duration] ->
    Router.Match (App.router a) (Http.Method r) (Http.URLPath r) = (Some h, params) ->
    let start := Ctx.NewContext w r (App.templates a) sm fresh in
    let line := Http.Method r +:+ " " +:+ Http.URLPath r +:+ " " +:+ Itoa 200
                +:+ " " +:+ duration in
    let s1 := App.mkState (Ctx.setParams start.1 params) start.2 (lg ++ [line]) e in
    let run := App.ServeHTTP a w r fresh sm lg e in
    App.events run = [App.EvMiddleware 0 (Some true); App.EvHandler]
    /\ App.deferRecover tt (App.respond500 "Panic in handler: ") h s1
       = App.Returned tt (App.final run)
    /\ (forall code text,
          Http.finalStatus code ->
          h = AppMore.respond code text ->
          App.logs (App.final run) = lg ++ [line]
          /\ Ctx.statusCode (App.ctx (App.final run)) = code
          /\ (Http.RStatus w = None ->
              Http.RStatus (Ctx.Response (App.ctx (App.final run))) = Some code)).
Proof.
  intros rt Env a w r fresh sm lg e duration h params Hstatic Hmw Hmatch
         start line s1 run.
  assert (Hstart : Ctx.Request start.1 = r /\ Ctx.statusCode start.1 = 200
                   /\ Http.RStatus (Ctx.Response start.1) = Http.RStatus w).
  { subst start. unfold Ctx.NewContext, Session.GetSession.
    destruct (Http.Cookies r !! "session_id") as [value|];
      [destruct (String.eqb value "")|];
      match goal with |- context [Session.sessions sm !! ?k] =>
        destruct (Session.sessions sm !! k) end;
      cbn; now repeat split. }
  destruct Hstart as (Hreq & Hcode & Hstatus).
  assert (Hrun : run = match App.deferRecover tt (App.respond500 "Panic in handler: ") h s1 with
                       | App.Returned _ s =>
                           App.mkRun s [App.EvMiddleware 0 (Some true); App.EvHandler] None
                       | App.Panicked p s =>
                           App.mkRun s [App.EvMiddleware 0 (Some true); App.EvHandler] (Some p)
                       end).
  { subst run. unfold App.ServeHTTP. fold start.
    destruct start as [c sm'] eqn:Es. cbn [fst snd] in *.
    rewrite Hstatic, Hmw.
    cbn [App.runMiddleware MiddlewareMore.Logger App.Printf App.ctx App.sess App.logs
         App.env].
    unfold CtxMore.Method, CtxMore.Path. rewrite Hreq, Hcode, Hmatch.
    reflexivity. }
  destruct (PipelineFacts.deferRecover_returns tt (App.respond500 "Panic in handler: ")
              h s1) as ([] & s' & Hd).
  rewrite Hd in Hrun. rewrite Hrun. cbn [App.events App.final].
  split; [reflexivity|]. split; [exact Hd|].
  intros code text _ ->. unfold App.deferRecover, AppMore.respond in Hd.
  injection Hd as <-. cbn [App.setCtx App.logs App.ctx s1].
  split; [reflexivity|].
  destruct (SendFacts.String_sends (Ctx.Status (Ctx.setParams start.1 params) code) text)
    as (Hs & _ & Hc).
  split; [exact Hc|]. intros Hnone. rewrite Hs.
  change (Ctx.Response (Ctx.Status (Ctx.setParams start.1 params) code))
    with (Ctx.Response start.1).
  rewrite Hstatus, Hnone. reflexivity.
Qed.

(** The theorem at work: the handler answers 500 and the line says
    200. *)
Lemma Logger_logs_before_the_handler_witness :
  Http.finalStatus 500
  /\ App.logs (App.final (PipelineSpec.serve ExampleMore.loggedApp "GET" "/" ""))
     = ["GET / 200 1ms"]
  /\ Http.RStatus (Ctx.Response (App.ctx (App.final
        (PipelineSpec.serve ExampleMore.loggedApp "GET" "/" "")))) = Some 500.
Proof.
  assert (Hf : Http.finalStatus 500) by (unfold Http.finalStatus; lia).
  destruct (proj2 (proj2
    (Logger_logs_before_the_handler ExampleRuntime.runtime unit ExampleMore.loggedApp
       (Http.NewResponseWriter Http.NotHijacker) (ExampleRuntime.request "GET" "/" "")
       "s1" Session.NewSessionManager [] tt "1ms"
       (AppMore.respond 500 "oops") (Some ∅) eq_refl eq_refl eq_refl))
    500 "oops" Hf eq_refl) as (Hlogs & _ & Hstatus).
  split; [exact Hf|]. split; [exact Hlogs | exact (Hstatus eq_refl)].
Defined.
